(** * Replay memory and TD learning rules of [src/agent.py]

    A shallow embedding of the four value-based agents ([DQNAgent],
    [DDQNAgent], [DQVAgent], [DQVMaxAgent]) and of their common base class
    [Agent], followed by the properties of the replay memory, of the
    burn-in guard, of the TD targets, of the target-network
    synchronisation and of the exploration-rate decay.

    Modelling conventions.
    - Python [int]s are [Z]; [%] is [Z.modulo] (the sign follows the
      divisor in both), and a zero divisor raises [ZeroDivisionError].
    - Python and torch floating-point numbers are exact rationals [Q];
      infinities and NaN are outside the model.  The concrete scenarios
      below compute dyadic values, which binary64 represents exactly, and
      use 0.1 in comparisons only; module [Binary64] replays the
      exploration-rate scenario on hardware floats.
    - The replay memory is made of typed numpy arrays.  Writing an action
      into the [np.int32] array is [as_int32], which raises outside the
      32-bit range; writing a reward into the [np.float32] array is
      [as_float32], the rounding to the nearest binary32 number.
    - [obs] is the type of the [float32] arrays of shape
      [state_dimensions]: an observation as a row of the state buffers
      holds it and as a network receives it.  Every observation that
      enters the agent is converted to it on the way in (lines 49 and 52
      by numpy, line 144 by [torch.tensor(..., dtype=torch.float32)]),
      and the agent never looks at it in any other form.
    - A numpy array or a torch tensor is the list of its rows; a network
      is the list of its scalar parameters (its [state_dict]).
    - Exceptions are the [Raise] results of an error monad.  An exception
      aborts the call; the partially mutated object is not observed.
    - [np.random.choice] is an oracle: [learn] receives the indices it
      draws as the argument [drawn].
    - The network architectures, autograd and Adam are the collaborators
      of class [Approximators]. *)

From Stdlib Require Import ZArith QArith Qabs Lqa Lia Floats.
From stdpp Require Import base list.

#[local] Open Scope Z_scope.

(** ** Exceptions *)

Inductive exn : Type :=
| ValueError          (* numpy: negative dimensions, sample larger than population *)
| ZeroDivisionError   (* integer modulo by zero *)
| IndexError          (* index out of bounds, reduction over an empty dimension *)
| RuntimeError        (* torch.gather with an index out of range *)
| OverflowError       (* numpy: a Python int outside the range of the array's dtype *)
| ConfigurationError. (* named by the specification; no path of agent.py raises it *)

Inductive result (A : Type) : Type :=
| Ok (a : A)
| Raise (e : exn).
Arguments Ok {A} a.
Arguments Raise {A} e.

#[export] Instance result_ret : MRet result := fun A a => Ok a.
#[export] Instance result_bind : MBind result := fun A B k m =>
  match m with
  | Ok a => k a
  | Raise e => Raise e
  end.
#[export] Instance result_fmap : FMap result := fun A B f m =>
  match m with
  | Ok a => Ok (f a)
  | Raise e => Raise e
  end.

Definition from_option {A : Type} (e : exn) (o : option A) : result A :=
  match o with
  | Some a => Ok a
  | None => Raise e
  end.

(** ** Numbers *)

(** [a > b] on floats. *)
Definition Qgtb (a b : Q) : bool := negb (Qle_bool a b).

(** Python's [max(a, b)]: the first argument unless the second is larger. *)
Definition py_max (a b : Q) : Q := if Qgtb b a then b else a.

(** ** The element types of the numpy arrays *)

Definition int32_min : Z := - 2 ^ 31.
Definition int32_max : Z := 2 ^ 31 - 1.

(** [array[index] = n] on an [np.int32] array, [n] a Python [int]: numpy
    refuses a value that the element type cannot hold. *)
Definition as_int32 (n : Z) : result Z :=
  if (n <? int32_min) || (int32_max <? n) then Raise OverflowError else Ok n.

(** The fraction [(num / den) / 2 ^ e], as numerator and denominator. *)
Definition scaled (num : Z) (den : positive) (e : Z) : Z * Z :=
  if 0 <=? e then (num, Zpos den * 2 ^ e) else (num * 2 ^ (- e), Zpos den).

(** The exponent [e] of the leading bit of [num / den], for [num > 0]:
    [2 ^ e <= num / den < 2 ^ (e + 1)]. *)
Definition leading_exponent (num : Z) (den : positive) : Z :=
  let e := Z.log2 num - Z.log2 (Zpos den) in
  let '(a, b) := scaled num den e in
  if b <=? a then e else e - 1.

(** The integer nearest to [a / b], the even one of two that are equally
    near; [a >= 0] and [b > 0]. *)
Definition round_half_even (a b : Z) : Z :=
  let q := a / b in
  match 2 * (a mod b) ?= b with
  | Lt => q
  | Gt => q + 1
  | Eq => if Z.even q then q else q + 1
  end.

(** [array[index] = x] on an [np.float32] array: [x] is rounded to the
    nearest binary32 number, on a tie to the one with the even
    significand.  A binary32 number is an integer significand below
    [2 ^ 24] in magnitude times a power of two, [2 ^ -149] at the
    least (gradual underflow), so the unit of rounding is [2 ^ e] with
    [e] 23 below the exponent of the leading bit of [x], and at least
    -149.  The result is in lowest terms.

    Past the largest binary32 number numpy stores an infinity (and
    warns), which the rationals lack.  There [as_float32] is the same
    rounding with the exponent left unbounded, a number of magnitude
    [2 ^ 128] or more which is no binary32 number; [float32_finite]
    tells the two cases apart, and the properties of stored rewards
    below are stated where it holds. *)
Definition as_float32 (x : Q) : Q :=
  let num := Z.abs (Qnum x) in
  if num =? 0 then 0%Q else
  let e := Z.max (leading_exponent num (Qden x) - 23) (-149) in
  let '(a, b) := scaled num (Qden x) e in
  let significand := Z.sgn (Qnum x) * round_half_even a b in
  Qred (if 0 <=? e then inject_Z (significand * 2 ^ e)
        else significand # Z.to_pos (2 ^ (- e))).

(** The largest binary32 number, [(2 ^ 24 - 1) * 2 ^ 104]. *)
Definition float32_max : Q := inject_Z ((2 ^ 24 - 1) * 2 ^ 104).

(** The conversion to [np.float32] does not overflow. *)
Definition float32_finite (x : Q) : bool := Qle_bool (Qabs (as_float32 x)) float32_max.

(** ** Tensors

    A tensor carries its data and torch's [requires_grad] flag.  The
    output of a network evaluated outside [torch.no_grad()] requires
    gradients; inside it does not.  Tensors built from numpy arrays never
    do. *)

Record tensor (A : Type) : Type := Tensor { data : A; requires_grad : bool }.
Arguments Tensor {A} data requires_grad.
Arguments data {A} t.
Arguments requires_grad {A} t.

(** [torch.tensor(buffer[batch_indices])]: numpy fancy indexing. *)
Definition take_rows {A : Type} (buffer : list A) (batch_indices : list nat)
  : result (list A) :=
  mapM (fun i => from_option IndexError (buffer !! i)) batch_indices.

(** [t[mask] = 0.0] on a matrix: the rows selected by the mask become zero. *)
Definition zero_rows (mask : list bool) (t : tensor (list (list Q)))
  : tensor (list (list Q)) :=
  Tensor (zip_with (fun (m : bool) row => if m then map (fun _ => 0%Q) row else row)
            mask (data t))
         (requires_grad t).

(** [t[mask] = 0.0] on a vector. *)
Definition zero_entries (mask : list bool) (t : tensor (list Q)) : tensor (list Q) :=
  Tensor (zip_with (fun (m : bool) x => if m then 0%Q else x) mask (data t))
         (requires_grad t).

(** Maximum of one row with the index of its first occurrence. *)
Fixpoint max_from (best_i : nat) (best : Q) (i : nat) (row : list Q) : nat * Q :=
  match row with
  | [] => (best_i, best)
  | x :: row' =>
      if Qgtb x best then max_from i x (S i) row' else max_from best_i best (S i) row'
  end.

Definition row_max (row : list Q) : result (nat * Q) :=
  match row with
  | [] => Raise IndexError
  | x :: row' => Ok (max_from 0%nat x 1%nat row')
  end.

(** [torch.max(t, dim=1)[0]]. *)
Definition max_dim1 (t : tensor (list (list Q))) : result (tensor (list Q)) :=
  vals ← mapM (fun row => snd <$> row_max row) (data t);
  mret (Tensor vals (requires_grad t)).

(** [torch.argmax(t, dim=1)]: integer indices, which carry no gradient. *)
Definition argmax_dim1 (t : tensor (list (list Q))) : result (list nat) :=
  mapM (fun row => fst <$> row_max row) (data t).

(** [t.gather(1, index.unsqueeze(1)).squeeze(1)] with non-negative indices. *)
Fixpoint gather_rows (rows : list (list Q)) (index : list nat) : result (list Q) :=
  match rows, index with
  | row :: rows', i :: index' =>
      x ← from_option RuntimeError (row !! i);
      xs ← gather_rows rows' index';
      mret (x :: xs)
  | _, _ => mret []
  end.

Definition gather_dim1 (t : tensor (list (list Q))) (index : list nat)
  : result (tensor (list Q)) :=
  vals ← gather_rows (data t) index;
  mret (Tensor vals (requires_grad t)).

(** The stored actions index the columns: [torch.gather] rejects negative
    indices as it rejects too large ones. *)
Definition column_index (action : Z) : result nat :=
  if action <? 0 then Raise RuntimeError else Ok (Z.to_nat action).

Definition gather_actions (t : tensor (list (list Q))) (actions : list Z)
  : result (tensor (list Q)) :=
  index ← mapM column_index actions;
  gather_dim1 t index.

(** [rewards_batch + gamma * t]; the rewards come from numpy. *)
Definition td_target (rewards : list Q) (gamma : Q) (t : tensor (list Q))
  : tensor (list Q) :=
  Tensor (zip_with (fun r x => (r + gamma * x)%Q) rewards (data t)) (requires_grad t).

(** [t.squeeze()] of a column of shape [(batch, 1)]: a batch of one row
    collapses to a 0-dimensional tensor. *)
Inductive squeezed : Type :=
| Scalar (x : Q)
| Vector (xs : list Q).

Definition squeeze (t : tensor (list Q)) : tensor squeezed :=
  Tensor (match data t with
          | [x] => Scalar x
          | xs => Vector xs
          end)
         (requires_grad t).

(** [t[mask] = 0.0] after [squeeze()]: a 0-dimensional tensor cannot be
    indexed by the one-dimensional mask. *)
Definition zero_squeezed (mask : list bool) (t : tensor squeezed)
  : result (tensor (list Q)) :=
  match data t with
  | Scalar _ => Raise IndexError
  | Vector xs => Ok (zero_entries mask (Tensor xs (requires_grad t)))
  end.

(** One call [loss_fn(arg1, arg2)] of [nn.MSELoss]. *)
Record loss_call : Type := LossCall { arg1 : tensor (list Q); arg2 : tensor (list Q) }.

(** [np.random.choice(max_mem, batch_size, replace=False)] raises when the
    sample is larger than the population or has a negative size;
    otherwise it answers with [batch_size] distinct indices below
    [max_mem], here [drawn]. *)
Definition random_choice (max_mem batch_size : Z) (drawn : list nat)
  : result (list nat) :=
  if (batch_size <? 0) || (max_mem <? batch_size) then Raise ValueError else Ok drawn.

(** Soft update, [zip] over the two parameter lists: each paired target
    parameter becomes [t_weight * param + (1 - t_weight) * target_param];
    [zip] stops at the shorter list and leaves the rest of the target. *)
Fixpoint soft_update_params (t_weight : Q) (target online : list Q) : list Q :=
  match target, online with
  | target_param :: target', param :: online' =>
      (t_weight * param + (1 - t_weight) * target_param)%Q
        :: soft_update_params t_weight target' online'
  | _, _ => target
  end.

(** ** Collaborators: network classes, autograd and Adam

    The module [network] with [QNetwork] and [VNetwork] is not part of
    the sources, so the network classes are parameters.  [q_forward] and
    [v_forward] evaluate a network with the given parameters on one
    state; a batch is evaluated row by row, and the state-value network
    returns one column, of shape [(batch, 1)].  [adam] is
    [optim.Adam(params, lr)].  [q_step] is [optimizer.zero_grad()],
    [loss.backward()] and [optimizer.step()] for the mean squared error
    between the gathered action values of the states and the target;
    [v_step] likewise for the state-value network.  Both return the new
    optimizer state and the new parameters. *)

Class Approximators (obs : Type) : Type := {
  q_forward : list Q → obs → list Q;
  v_forward : list Q → obs → Q;
  opt_state : Type;
  adam : Q → opt_state;
  q_step : opt_state → list Q → list obs → list Z → list Q → opt_state * list Q;
  v_step : opt_state → list Q → list obs → list Q → opt_state * list Q;
}.

(** [network(batch)] for the two network forms, in or out of [no_grad]. *)
Definition q_apply `{Approximators obs} (grad_enabled : bool) (params : list Q)
  (batch : list obs) : tensor (list (list Q)) :=
  Tensor (map (q_forward params) batch) grad_enabled.

Definition v_apply `{Approximators obs} (grad_enabled : bool) (params : list Q)
  (batch : list obs) : tensor (list Q) :=
  Tensor (map (v_forward params) batch) grad_enabled.

(** ** Keyword arguments of the constructors *)

Record kwargs : Type := Kwargs {
  kw_learning_rate : option Q;
  kw_gamma : option Q;
  kw_epsilon_start : option Q;
  kw_epsilon_min : option Q;
  kw_epsilon_decay : option Q;
  kw_batch_size : option Z;
  kw_target_update_frequency : option Z;
  kw_burn_in_period : option Z;
}.

Definition no_kwargs : kwargs := Kwargs None None None None None None None None.

(** ** class Agent *)

Module Agent.
Section Agent.
Context {obs : Type}.

Record t : Type := mk {
  memory_size : Z;
  state_buffer : list obs;
  next_state_buffer : list obs;
  action_buffer : list Z;
  reward_buffer : list Q;
  terminal_buffer : list bool;
  mem_counter : Z;
  n_actions : Z;
}.

(** [__init__]; [zero_state] is [np.zeros(state_dimensions)].  numpy
    refuses a negative [memory_size]. *)
Definition init (memory_size : Z) (zero_state : obs) (n_actions : Z) : result t :=
  if memory_size <? 0 then Raise ValueError else
  Ok {| memory_size := memory_size;
        state_buffer := replicate (Z.to_nat memory_size) zero_state;
        next_state_buffer := replicate (Z.to_nat memory_size) zero_state;
        action_buffer := replicate (Z.to_nat memory_size) 0;
        reward_buffer := replicate (Z.to_nat memory_size) 0%Q;
        terminal_buffer := replicate (Z.to_nat memory_size) false;
        mem_counter := 0;
        n_actions := n_actions |}.

(** [store_transition]: the write index first, then the five
    assignments, each converting to the element type of its array, then
    the counter. *)
Definition store_transition (self : t) (state : obs) (action : Z) (reward : Q)
  (new_state : obs) (done : bool) : result t :=
  if memory_size self =? 0 then Raise ZeroDivisionError else
  let index := Z.to_nat (mem_counter self mod memory_size self) in
  let state_buffer := <[index := state]> (state_buffer self) in
  action ← as_int32 action;
  let action_buffer := <[index := action]> (action_buffer self) in
  let reward_buffer := <[index := as_float32 reward]> (reward_buffer self) in
  let next_state_buffer := <[index := new_state]> (next_state_buffer self) in
  let terminal_buffer := <[index := done]> (terminal_buffer self) in
  mret {| memory_size := memory_size self;
          state_buffer := state_buffer;
          next_state_buffer := next_state_buffer;
          action_buffer := action_buffer;
          reward_buffer := reward_buffer;
          terminal_buffer := terminal_buffer;
          mem_counter := mem_counter self + 1;
          n_actions := n_actions self |}.

(** The five fields of one recorded transition. *)
Record transition : Type := Transition {
  tr_state : obs;
  tr_action : Z;
  tr_reward : Q;
  tr_new_state : obs;
  tr_done : bool;
}.

Definition store (self : t) (tr : transition) : result t :=
  store_transition self (tr_state tr) (tr_action tr) (tr_reward tr)
    (tr_new_state tr) (tr_done tr).

(** Successive [store_transition] calls. *)
Fixpoint store_all (self : t) (trs : list transition) : result t :=
  match trs with
  | [] => Ok self
  | tr :: trs' => self' ← store self tr; store_all self' trs'
  end.

(** The row at one index, read across the five parallel arrays. *)
Definition row (self : t) (i : nat) : option transition :=
  s ← state_buffer self !! i;
  a ← action_buffer self !! i;
  r ← reward_buffer self !! i;
  s' ← next_state_buffer self !! i;
  d ← terminal_buffer self !! i;
  Some (Transition s a r s' d).

(** The five sampled batches of [learn], rows aligned. *)
Record batch : Type := Batch {
  states_batch : list obs;
  actions_batch : list Z;
  rewards_batch : list Q;
  new_states_batch : list obs;
  terminal_batch : list bool;
}.

Definition sample (self : t) (batch_indices : list nat) : result batch :=
  states ← take_rows (state_buffer self) batch_indices;
  actions ← take_rows (action_buffer self) batch_indices;
  rewards ← take_rows (reward_buffer self) batch_indices;
  new_states ← take_rows (next_state_buffer self) batch_indices;
  terminal ← take_rows (terminal_buffer self) batch_indices;
  mret (Batch states actions rewards new_states terminal).
End Agent.
Arguments t obs : clear implicits.
Arguments transition obs : clear implicits.
Arguments batch obs : clear implicits.
End Agent.

(** [target.load_state_dict(source.state_dict())]: every parameter of the
    target is overwritten by the source's. *)
Definition load_state_dict (target source : list Q) : list Q := source.

(** ** class DQNAgent *)

Module DQNAgent.
Section DQNAgent.
Context `{Approximators obs}.

Record t : Type := mk {
  super : Agent.t obs;
  lr : Q;
  gamma : Q;
  epsilon : Q;
  epsilon_min : Q;
  epsilon_decay : Q;
  batch_size : Z;
  target_update_frequency : Z;
  burn_in_period : Z;
  learn_step_counter : Z;
  q_network : list Q;
  q_target_network : list Q;
  optimizer : opt_state;
}.

(** [__init__]; [q_fresh] and [q_target_fresh] are the initial parameters
    drawn by the two calls of [q_network_class]. *)
Definition init (memory_size : Z) (zero_state : obs) (n_actions : Z)
  (q_fresh q_target_fresh : list Q) (kw : kwargs) : result t :=
  super ← Agent.init memory_size zero_state n_actions;
  let lr := default (1 # 10000)%Q (kw_learning_rate kw) in
  let q_network := q_fresh in
  let q_target_network := q_target_fresh in
  let q_target_network := load_state_dict q_target_network q_network in
  mret {| super := super;
          lr := lr;
          gamma := default (99 # 100)%Q (kw_gamma kw);
          epsilon := default 1%Q (kw_epsilon_start kw);
          epsilon_min := default (1 # 10000)%Q (kw_epsilon_min kw);
          epsilon_decay := default (986 # 1000)%Q (kw_epsilon_decay kw);
          batch_size := default 32 (kw_batch_size kw);
          target_update_frequency := default 1000 (kw_target_update_frequency kw);
          burn_in_period := default 7000 (kw_burn_in_period kw);
          learn_step_counter := 0;
          q_network := q_network;
          q_target_network := q_target_network;
          optimizer := adam lr |}.

(** [learn], returning with the agent the [loss_fn] calls it made. *)
Definition learn_trace (self : t) (drawn : list nat) : result (t * list loss_call) :=
  if Agent.mem_counter (super self) <? burn_in_period self then mret (self, []) else
  let max_mem := Z.min (Agent.mem_counter (super self)) (Agent.memory_size (super self)) in
  batch_indices ← random_choice max_mem (batch_size self) drawn;
  b ← Agent.sample (super self) batch_indices;
  let q_s := q_apply true (q_network self) (Agent.states_batch b) in
  q_action_taken ← gather_actions q_s (Agent.actions_batch b);
  let q_next := q_apply true (q_target_network self) (Agent.new_states_batch b) in
  let q_next := zero_rows (Agent.terminal_batch b) q_next in
  q_next_max ← max_dim1 q_next;
  let q_target := td_target (Agent.rewards_batch b) (gamma self) q_next_max in
  let loss := LossCall q_action_taken q_target in
  let '(optimizer', q_network') :=
    q_step (optimizer self) (q_network self) (Agent.states_batch b)
      (Agent.actions_batch b) (data q_target) in
  let learn_step_counter' := learn_step_counter self + 1 in
  if target_update_frequency self =? 0 then Raise ZeroDivisionError else
  let q_target_network' :=
    if learn_step_counter' mod target_update_frequency self =? 0
    then load_state_dict (q_target_network self) q_network'
    else q_target_network self in
  let epsilon' :=
    if Qgtb (epsilon self) (epsilon_min self)
    then (epsilon self * epsilon_decay self)%Q
    else epsilon_min self in
  mret ({| super := super self;
           lr := lr self;
           gamma := gamma self;
           epsilon := epsilon';
           epsilon_min := epsilon_min self;
           epsilon_decay := epsilon_decay self;
           batch_size := batch_size self;
           target_update_frequency := target_update_frequency self;
           burn_in_period := burn_in_period self;
           learn_step_counter := learn_step_counter';
           q_network := q_network';
           q_target_network := q_target_network';
           optimizer := optimizer' |}, [loss]).

Definition learn (self : t) (drawn : list nat) : result t :=
  fst <$> learn_trace self drawn.
End DQNAgent.
Arguments t obs {_}.
End DQNAgent.

(** ** class DDQNAgent *)

Module DDQNAgent.
Section DDQNAgent.
Context `{Approximators obs}.

Record t : Type := mk {
  super : Agent.t obs;
  lr : Q;
  gamma : Q;
  epsilon : Q;
  epsilon_min : Q;
  epsilon_decay : Q;
  batch_size : Z;
  target_update_frequency : Z;
  burn_in_period : Z;
  learn_step_counter : Z;
  t_weight : Q;
  soft_update : bool;
  q_network : list Q;
  q_target_network : list Q;
  optimizer : opt_state;
}.

(** [__init__]; [t_weight_start] and [soft_update] are keyword
    parameters with defaults.  The target network is created and put
    in evaluation mode; nothing is loaded into it. *)
Definition init (memory_size : Z) (zero_state : obs) (n_actions : Z)
  (q_fresh q_target_fresh : list Q) (t_weight_start : option Q)
  (soft_update : option bool) (kw : kwargs) : result t :=
  super ← Agent.init memory_size zero_state n_actions;
  let lr := default (1 # 10000)%Q (kw_learning_rate kw) in
  let q_network := q_fresh in
  let q_target_network := q_target_fresh in
  mret {| super := super;
          lr := lr;
          gamma := default (99 # 100)%Q (kw_gamma kw);
          epsilon := default 1%Q (kw_epsilon_start kw);
          epsilon_min := default (1 # 10000)%Q (kw_epsilon_min kw);
          epsilon_decay := default (986 # 1000)%Q (kw_epsilon_decay kw);
          batch_size := default 32 (kw_batch_size kw);
          target_update_frequency := default 1000 (kw_target_update_frequency kw);
          burn_in_period := default 7000 (kw_burn_in_period kw);
          learn_step_counter := 0;
          t_weight := default (2 # 10)%Q t_weight_start;
          soft_update := default false soft_update;
          q_network := q_network;
          q_target_network := q_target_network;
          optimizer := adam lr |}.

Definition learn_trace (self : t) (drawn : list nat) : result (t * list loss_call) :=
  if Agent.mem_counter (super self) <? burn_in_period self then mret (self, []) else
  let max_mem := Z.min (Agent.mem_counter (super self)) (Agent.memory_size (super self)) in
  batch_indices ← random_choice max_mem (batch_size self) drawn;
  b ← Agent.sample (super self) batch_indices;
  let q_s := q_apply true (q_network self) (Agent.states_batch b) in
  q_action_taken ← gather_actions q_s (Agent.actions_batch b);
  let q_snext := q_apply true (q_network self) (Agent.new_states_batch b) in
  let q_snext := zero_rows (Agent.terminal_batch b) q_snext in
  q_actions_batch ← argmax_dim1 q_snext;
  (* with torch.no_grad(): *)
  let target_q_snext := q_apply false (q_target_network self) (Agent.new_states_batch b) in
  let target_q_snext := zero_rows (Agent.terminal_batch b) target_q_snext in
  q_action_target ← gather_dim1 target_q_snext q_actions_batch;
  let target := td_target (Agent.rewards_batch b) (gamma self) q_action_target in
  let loss := LossCall q_action_taken target in
  let '(optimizer', q_network') :=
    q_step (optimizer self) (q_network self) (Agent.states_batch b)
      (Agent.actions_batch b) (data target) in
  let learn_step_counter' := learn_step_counter self + 1 in
  if target_update_frequency self =? 0 then Raise ZeroDivisionError else
  let q_target_network' :=
    if learn_step_counter' mod target_update_frequency self =? 0
    then
      if soft_update self
      then soft_update_params (t_weight self) (q_target_network self) q_network'
      else load_state_dict (q_target_network self) q_network'
    else q_target_network self in
  let epsilon' := py_max (epsilon self * epsilon_decay self)%Q (epsilon_min self) in
  mret ({| super := super self;
           lr := lr self;
           gamma := gamma self;
           epsilon := epsilon';
           epsilon_min := epsilon_min self;
           epsilon_decay := epsilon_decay self;
           batch_size := batch_size self;
           target_update_frequency := target_update_frequency self;
           burn_in_period := burn_in_period self;
           learn_step_counter := learn_step_counter';
           t_weight := t_weight self;
           soft_update := soft_update self;
           q_network := q_network';
           q_target_network := q_target_network';
           optimizer := optimizer' |}, [loss]).

Definition learn (self : t) (drawn : list nat) : result t :=
  fst <$> learn_trace self drawn.
End DDQNAgent.
Arguments t obs {_}.
End DDQNAgent.

(** ** class DQVAgent *)

Module DQVAgent.
Section DQVAgent.
Context `{Approximators obs}.

Record t : Type := mk {
  super : Agent.t obs;
  lr : Q;
  gamma : Q;
  epsilon : Q;
  epsilon_min : Q;
  epsilon_decay : Q;
  batch_size : Z;
  target_update_frequency : Z;
  burn_in_period : Z;
  learn_step_counter : Z;
  q_network : list Q;
  v_network : list Q;
  target_v_network : list Q;
  q_optimizer : opt_state;
  v_optimizer : opt_state;
}.

(** [__init__]; the three fresh parameter lists are drawn by
    [q_network_class] and by the two calls of [v_network_class]. *)
Definition init (memory_size : Z) (zero_state : obs) (n_actions : Z)
  (q_fresh v_fresh target_v_fresh : list Q) (kw : kwargs) : result t :=
  super ← Agent.init memory_size zero_state n_actions;
  let lr := default (25 # 100000)%Q (kw_learning_rate kw) in
  let q_network := q_fresh in
  let v_network := v_fresh in
  let target_v_network := target_v_fresh in
  let target_v_network := load_state_dict target_v_network v_network in
  mret {| super := super;
          lr := lr;
          gamma := default (99 # 100)%Q (kw_gamma kw);
          epsilon := default 1%Q (kw_epsilon_start kw);
          epsilon_min := default (1 # 1000)%Q (kw_epsilon_min kw);
          epsilon_decay := default (9998 # 10000)%Q (kw_epsilon_decay kw);
          batch_size := default 32 (kw_batch_size kw);
          target_update_frequency := default 2000 (kw_target_update_frequency kw);
          burn_in_period := default 7000 (kw_burn_in_period kw);
          learn_step_counter := 0;
          q_network := q_network;
          v_network := v_network;
          target_v_network := target_v_network;
          q_optimizer := adam lr;
          v_optimizer := adam lr |}.

Definition learn_trace (self : t) (drawn : list nat) : result (t * list loss_call) :=
  if Agent.mem_counter (super self) <? burn_in_period self then mret (self, []) else
  let max_mem := Z.min (Agent.mem_counter (super self)) (Agent.memory_size (super self)) in
  batch_indices ← random_choice max_mem (batch_size self) drawn;
  b ← Agent.sample (super self) batch_indices;
  (* with torch.no_grad(): *)
  let v_s_next_target :=
    squeeze (v_apply false (target_v_network self) (Agent.new_states_batch b)) in
  v_s_next_target ← zero_squeezed (Agent.terminal_batch b) v_s_next_target;
  let target_dqv := td_target (Agent.rewards_batch b) (gamma self) v_s_next_target in
  (* update of the V-network; squeeze() is the identity here, a batch
     of one row has raised above *)
  let v_s := v_apply true (v_network self) (Agent.states_batch b) in
  let v_loss := LossCall target_dqv v_s in
  let '(v_optimizer', v_network') :=
    v_step (v_optimizer self) (v_network self) (Agent.states_batch b)
      (data target_dqv) in
  (* update of the Q-network *)
  let q_s := q_apply true (q_network self) (Agent.states_batch b) in
  q_action_taken ← gather_actions q_s (Agent.actions_batch b);
  let q_loss := LossCall target_dqv q_action_taken in
  let '(q_optimizer', q_network') :=
    q_step (q_optimizer self) (q_network self) (Agent.states_batch b)
      (Agent.actions_batch b) (data target_dqv) in
  let learn_step_counter' := learn_step_counter self + 1 in
  if target_update_frequency self =? 0 then Raise ZeroDivisionError else
  let target_v_network' :=
    if learn_step_counter' mod target_update_frequency self =? 0
    then load_state_dict (target_v_network self) v_network'
    else target_v_network self in
  let epsilon' := py_max (epsilon_min self) (epsilon self * epsilon_decay self)%Q in
  mret ({| super := super self;
           lr := lr self;
           gamma := gamma self;
           epsilon := epsilon';
           epsilon_min := epsilon_min self;
           epsilon_decay := epsilon_decay self;
           batch_size := batch_size self;
           target_update_frequency := target_update_frequency self;
           burn_in_period := burn_in_period self;
           learn_step_counter := learn_step_counter';
           q_network := q_network';
           v_network := v_network';
           target_v_network := target_v_network';
           q_optimizer := q_optimizer';
           v_optimizer := v_optimizer' |}, [v_loss; q_loss]).

Definition learn (self : t) (drawn : list nat) : result t :=
  fst <$> learn_trace self drawn.
End DQVAgent.
Arguments t obs {_}.
End DQVAgent.

(** ** class DQVMaxAgent *)

Module DQVMaxAgent.
Section DQVMaxAgent.
Context `{Approximators obs}.

Record t : Type := mk {
  super : Agent.t obs;
  lr : Q;
  gamma : Q;
  epsilon : Q;
  epsilon_min : Q;
  epsilon_decay : Q;
  batch_size : Z;
  target_update_frequency : Z;
  burn_in_period : Z;
  learn_step_counter : Z;
  q_network : list Q;
  target_q_network : list Q;
  v_network : list Q;
  q_optimizer : opt_state;
  v_optimizer : opt_state;
}.

(** [__init__]; the fresh parameter lists are drawn by the two calls of
    [q_network_class] and by [v_network_class]. *)
Definition init (memory_size : Z) (zero_state : obs) (n_actions : Z)
  (q_fresh target_q_fresh v_fresh : list Q) (kw : kwargs) : result t :=
  super ← Agent.init memory_size zero_state n_actions;
  let lr := default (25 # 100000)%Q (kw_learning_rate kw) in
  let q_network := q_fresh in
  let target_q_network := target_q_fresh in
  let target_q_network := load_state_dict target_q_network q_network in
  let v_network := v_fresh in
  mret {| super := super;
          lr := lr;
          gamma := default (99 # 100)%Q (kw_gamma kw);
          epsilon := default (5 # 10)%Q (kw_epsilon_start kw);
          epsilon_min := default (1 # 1000)%Q (kw_epsilon_min kw);
          epsilon_decay := default (9998 # 10000)%Q (kw_epsilon_decay kw);
          batch_size := default 32 (kw_batch_size kw);
          target_update_frequency := default 200 (kw_target_update_frequency kw);
          burn_in_period := default 7000 (kw_burn_in_period kw);
          learn_step_counter := 0;
          q_network := q_network;
          target_q_network := target_q_network;
          v_network := v_network;
          q_optimizer := adam lr;
          v_optimizer := adam lr |}.

Definition learn_trace (self : t) (drawn : list nat) : result (t * list loss_call) :=
  if Agent.mem_counter (super self) <? burn_in_period self then mret (self, []) else
  let max_mem := Z.min (Agent.mem_counter (super self)) (Agent.memory_size (super self)) in
  batch_indices ← random_choice max_mem (batch_size self) drawn;
  b ← Agent.sample (super self) batch_indices;
  (* update of the V-network; with torch.no_grad(): *)
  let q_next_target :=
    q_apply false (target_q_network self) (Agent.new_states_batch b) in
  max_q_next_target ← max_dim1 q_next_target;
  let max_q_next_target := zero_entries (Agent.terminal_batch b) max_q_next_target in
  let v_target := td_target (Agent.rewards_batch b) (gamma self) max_q_next_target in
  (* squeeze() only reshapes v_s; a batch of one row raises below *)
  let v_s := v_apply true (v_network self) (Agent.states_batch b) in
  let v_loss := LossCall v_target v_s in
  let '(v_optimizer', v_network') :=
    v_step (v_optimizer self) (v_network self) (Agent.states_batch b)
      (data v_target) in
  (* update of the Q-network; with torch.no_grad(), on the V-network
     that v_optimizer.step() has just changed: *)
  let v_s_next := squeeze (v_apply false v_network' (Agent.new_states_batch b)) in
  v_s_next ← zero_squeezed (Agent.terminal_batch b) v_s_next;
  let q_target := td_target (Agent.rewards_batch b) (gamma self) v_s_next in
  let q_s := q_apply true (q_network self) (Agent.states_batch b) in
  q_action_taken ← gather_actions q_s (Agent.actions_batch b);
  let q_loss := LossCall q_target q_action_taken in
  let '(q_optimizer', q_network') :=
    q_step (q_optimizer self) (q_network self) (Agent.states_batch b)
      (Agent.actions_batch b) (data q_target) in
  let learn_step_counter' := learn_step_counter self + 1 in
  if target_update_frequency self =? 0 then Raise ZeroDivisionError else
  let target_q_network' :=
    if learn_step_counter' mod target_update_frequency self =? 0
    then load_state_dict (target_q_network self) q_network'
    else target_q_network self in
  let epsilon' := py_max (epsilon_min self) (epsilon self * epsilon_decay self)%Q in
  mret ({| super := super self;
           lr := lr self;
           gamma := gamma self;
           epsilon := epsilon';
           epsilon_min := epsilon_min self;
           epsilon_decay := epsilon_decay self;
           batch_size := batch_size self;
           target_update_frequency := target_update_frequency self;
           burn_in_period := burn_in_period self;
           learn_step_counter := learn_step_counter';
           q_network := q_network';
           target_q_network := target_q_network';
           v_network := v_network';
           q_optimizer := q_optimizer';
           v_optimizer := v_optimizer' |}, [v_loss; q_loss]).

Definition learn (self : t) (drawn : list nat) : result t :=
  fst <$> learn_trace self drawn.
End DQVMaxAgent.
Arguments t obs {_}.
End DQVMaxAgent.

(** ** The four variants behind the abstract interface of [Agent] *)

Section Variants.
Context `{Approximators obs}.

Inductive agent : Type :=
| DQN (self : DQNAgent.t obs)
| DDQN (self : DDQNAgent.t obs)
| DQV (self : DQVAgent.t obs)
| DQVMax (self : DQVMaxAgent.t obs).

(** Dynamic dispatch of [learn]. *)
Definition learn_trace (ag : agent) (drawn : list nat) : result (agent * list loss_call) :=
  match ag with
  | DQN self => prod_map DQN id <$> DQNAgent.learn_trace self drawn
  | DDQN self => prod_map DDQN id <$> DDQNAgent.learn_trace self drawn
  | DQV self => prod_map DQV id <$> DQVAgent.learn_trace self drawn
  | DQVMax self => prod_map DQVMax id <$> DQVMaxAgent.learn_trace self drawn
  end.

Definition learn (ag : agent) (drawn : list nat) : result agent :=
  match ag with
  | DQN self => DQN <$> DQNAgent.learn self drawn
  | DDQN self => DDQN <$> DDQNAgent.learn self drawn
  | DQV self => DQV <$> DQVAgent.learn self drawn
  | DQVMax self => DQVMax <$> DQVMaxAgent.learn self drawn
  end.

(** The inherited replay memory. *)
Definition memory (ag : agent) : Agent.t obs :=
  match ag with
  | DQN self => DQNAgent.super self
  | DDQN self => DDQNAgent.super self
  | DQV self => DQVAgent.super self
  | DQVMax self => DQVMaxAgent.super self
  end.

Definition with_memory (ag : agent) (m : Agent.t obs) : agent :=
  match ag with
  | DQN self =>
      DQN (DQNAgent.mk m (DQNAgent.lr self) (DQNAgent.gamma self)
             (DQNAgent.epsilon self) (DQNAgent.epsilon_min self)
             (DQNAgent.epsilon_decay self) (DQNAgent.batch_size self)
             (DQNAgent.target_update_frequency self) (DQNAgent.burn_in_period self)
             (DQNAgent.learn_step_counter self) (DQNAgent.q_network self)
             (DQNAgent.q_target_network self) (DQNAgent.optimizer self))
  | DDQN self =>
      DDQN (DDQNAgent.mk m (DDQNAgent.lr self) (DDQNAgent.gamma self)
              (DDQNAgent.epsilon self) (DDQNAgent.epsilon_min self)
              (DDQNAgent.epsilon_decay self) (DDQNAgent.batch_size self)
              (DDQNAgent.target_update_frequency self) (DDQNAgent.burn_in_period self)
              (DDQNAgent.learn_step_counter self) (DDQNAgent.t_weight self)
              (DDQNAgent.soft_update self) (DDQNAgent.q_network self)
              (DDQNAgent.q_target_network self) (DDQNAgent.optimizer self))
  | DQV self =>
      DQV (DQVAgent.mk m (DQVAgent.lr self) (DQVAgent.gamma self)
             (DQVAgent.epsilon self) (DQVAgent.epsilon_min self)
             (DQVAgent.epsilon_decay self) (DQVAgent.batch_size self)
             (DQVAgent.target_update_frequency self) (DQVAgent.burn_in_period self)
             (DQVAgent.learn_step_counter self) (DQVAgent.q_network self)
             (DQVAgent.v_network self) (DQVAgent.target_v_network self)
             (DQVAgent.q_optimizer self) (DQVAgent.v_optimizer self))
  | DQVMax self =>
      DQVMax (DQVMaxAgent.mk m (DQVMaxAgent.lr self) (DQVMaxAgent.gamma self)
                (DQVMaxAgent.epsilon self) (DQVMaxAgent.epsilon_min self)
                (DQVMaxAgent.epsilon_decay self) (DQVMaxAgent.batch_size self)
                (DQVMaxAgent.target_update_frequency self)
                (DQVMaxAgent.burn_in_period self)
                (DQVMaxAgent.learn_step_counter self) (DQVMaxAgent.q_network self)
                (DQVMaxAgent.target_q_network self) (DQVMaxAgent.v_network self)
                (DQVMaxAgent.q_optimizer self) (DQVMaxAgent.v_optimizer self))
  end.

(** The inherited [store_transition]: only the memory changes. *)
Definition store_transition (ag : agent) (state : obs) (action : Z) (reward : Q)
  (new_state : obs) (done : bool) : result agent :=
  with_memory ag <$> Agent.store_transition (memory ag) state action reward new_state done.

Definition epsilon (ag : agent) : Q :=
  match ag with
  | DQN self => DQNAgent.epsilon self
  | DDQN self => DDQNAgent.epsilon self
  | DQV self => DQVAgent.epsilon self
  | DQVMax self => DQVMaxAgent.epsilon self
  end.

Definition epsilon_min (ag : agent) : Q :=
  match ag with
  | DQN self => DQNAgent.epsilon_min self
  | DDQN self => DDQNAgent.epsilon_min self
  | DQV self => DQVAgent.epsilon_min self
  | DQVMax self => DQVMaxAgent.epsilon_min self
  end.

Definition epsilon_decay (ag : agent) : Q :=
  match ag with
  | DQN self => DQNAgent.epsilon_decay self
  | DDQN self => DDQNAgent.epsilon_decay self
  | DQV self => DQVAgent.epsilon_decay self
  | DQVMax self => DQVMaxAgent.epsilon_decay self
  end.

Definition burn_in_period (ag : agent) : Z :=
  match ag with
  | DQN self => DQNAgent.burn_in_period self
  | DDQN self => DDQNAgent.burn_in_period self
  | DQV self => DQVAgent.burn_in_period self
  | DQVMax self => DQVMaxAgent.burn_in_period self
  end.

Definition target_update_frequency (ag : agent) : Z :=
  match ag with
  | DQN self => DQNAgent.target_update_frequency self
  | DDQN self => DDQNAgent.target_update_frequency self
  | DQV self => DQVAgent.target_update_frequency self
  | DQVMax self => DQVMaxAgent.target_update_frequency self
  end.

Definition learn_step_counter (ag : agent) : Z :=
  match ag with
  | DQN self => DQNAgent.learn_step_counter self
  | DDQN self => DDQNAgent.learn_step_counter self
  | DQV self => DQVAgent.learn_step_counter self
  | DQVMax self => DQVMaxAgent.learn_step_counter self
  end.

(** The target network of each variant and the online network it is
    synchronised with. *)
Definition target_network (ag : agent) : list Q :=
  match ag with
  | DQN self => DQNAgent.q_target_network self
  | DDQN self => DDQNAgent.q_target_network self
  | DQV self => DQVAgent.target_v_network self
  | DQVMax self => DQVMaxAgent.target_q_network self
  end.

Definition online_network (ag : agent) : list Q :=
  match ag with
  | DQN self => DQNAgent.q_network self
  | DDQN self => DDQNAgent.q_network self
  | DQV self => DQVAgent.v_network self
  | DQVMax self => DQVMaxAgent.q_network self
  end.

(** [Some t_weight] when the target is synchronised by soft update, a
    double-DQN option; [None] when it is synchronised by hard copy. *)
Definition soft_weight (ag : agent) : option Q :=
  match ag with
  | DDQN self =>
      if DDQNAgent.soft_update self then Some (DDQNAgent.t_weight self) else None
  | _ => None
  end.

(** [DQNAgent] writes its exploration-rate update as a conditional, the
    other three classes as a [max]. *)
Definition conditional_decay (ag : agent) : bool :=
  match ag with
  | DQN _ => true
  | _ => false
  end.

(** The burn-in guard at the head of every [learn]. *)
Definition burn_in_guard (ag : agent) : bool :=
  Agent.mem_counter (memory ag) <? burn_in_period ag.

(** Successive [learn] calls, one draw each; the exploration rate is
    read after every call. *)
Fixpoint learn_epsilons (ag : agent) (draws : list (list nat)) : result (list Q) :=
  match draws with
  | [] => mret []
  | drawn :: draws' =>
      ag' ← learn ag drawn;
      eps ← learn_epsilons ag' draws';
      mret (epsilon ag' :: eps)
  end.

Fixpoint learn_all (ag : agent) (draws : list (list nat)) : result agent :=
  match draws with
  | [] => mret ag
  | drawn :: draws' => ag' ← learn ag drawn; learn_all ag' draws'
  end.

Fixpoint store_all (ag : agent) (trs : list (Agent.transition obs)) : result agent :=
  match trs with
  | [] => mret ag
  | tr :: trs' =>
      ag' ← store_transition ag (Agent.tr_state tr) (Agent.tr_action tr)
              (Agent.tr_reward tr) (Agent.tr_new_state tr) (Agent.tr_done tr);
      store_all ag' trs'
  end.

(** The parameters that the optimizer step of one [learn] gives the
    network the target is synchronised with: [optimizer.step()] on the
    sampled batch [b], for the target that [loss_fn] was called with. *)
Definition stepped_online (ag : agent) (b : Agent.batch obs) (trace : list loss_call)
  : option (list Q) :=
  match ag, trace with
  | DQN self, [loss] =>
      Some (snd (q_step (DQNAgent.optimizer self) (DQNAgent.q_network self)
                   (Agent.states_batch b) (Agent.actions_batch b) (data (arg2 loss))))
  | DDQN self, [loss] =>
      Some (snd (q_step (DDQNAgent.optimizer self) (DDQNAgent.q_network self)
                   (Agent.states_batch b) (Agent.actions_batch b) (data (arg2 loss))))
  | DQV self, [v_loss; _] =>
      Some (snd (v_step (DQVAgent.v_optimizer self) (DQVAgent.v_network self)
                   (Agent.states_batch b) (data (arg1 v_loss))))
  | DQVMax self, [_; q_loss] =>
      Some (snd (q_step (DQVMaxAgent.q_optimizer self) (DQVMaxAgent.q_network self)
                   (Agent.states_batch b) (Agent.actions_batch b) (data (arg1 q_loss))))
  | _, _ => None
  end.

(** An agent as one of the four constructors returns it. *)
Inductive constructed : agent → Prop :=
| constructed_DQN memory_size zero_state n_actions q_fresh q_target_fresh kw self :
    DQNAgent.init memory_size zero_state n_actions q_fresh q_target_fresh kw = Ok self →
    constructed (DQN self)
| constructed_DDQN memory_size zero_state n_actions q_fresh q_target_fresh
    t_weight_start soft_update kw self :
    DDQNAgent.init memory_size zero_state n_actions q_fresh q_target_fresh
      t_weight_start soft_update kw = Ok self →
    constructed (DDQN self)
| constructed_DQV memory_size zero_state n_actions q_fresh v_fresh target_v_fresh kw self :
    DQVAgent.init memory_size zero_state n_actions q_fresh v_fresh target_v_fresh kw
      = Ok self →
    constructed (DQV self)
| constructed_DQVMax memory_size zero_state n_actions q_fresh target_q_fresh v_fresh kw
    self :
    DQVMaxAgent.init memory_size zero_state n_actions q_fresh target_q_fresh v_fresh kw
      = Ok self →
    constructed (DQVMax self).

(** What a training loop does with an agent: [store_transition] and
    [learn] calls in some order. *)
Inductive method_call : Type :=
| StoreTransition (tr : Agent.transition obs)
| Learn (drawn : list nat).

(** The calls in order.  With the agent they leave, the number of
    completed learning steps among them: the [learn] calls that found
    the burn-in guard inactive and returned. *)
Fixpoint run (ag : agent) (calls : list method_call) : result (agent * Z) :=
  match calls with
  | [] => mret (ag, 0)
  | StoreTransition tr :: calls' =>
      ag' ← store_transition ag (Agent.tr_state tr) (Agent.tr_action tr)
              (Agent.tr_reward tr) (Agent.tr_new_state tr) (Agent.tr_done tr);
      run ag' calls'
  | Learn drawn :: calls' =>
      ag' ← learn ag drawn;
      rest ← run ag' calls';
      mret (fst rest, (if burn_in_guard ag then 0 else 1) + snd rest)
  end.
End Variants.
Arguments agent obs {_}.
Arguments method_call obs : clear implicits.
Arguments StoreTransition {obs} tr.
Arguments Learn {obs} drawn.

(** ** [choose_action] and further accessors

    The four classes carry the same [choose_action].  [np.random.rand()]
    and [np.random.choice(n_actions)] are oracles: the method receives
    the uniform draw [u] and the action [chosen] it would be given.  As
    in [learn], evaluation and training mode of a network are not
    distinguished. *)

Section ChooseAction.
Context `{Approximators obs}.

(** [np.random.choice(n_actions)] raises unless the population is
    positive; otherwise it answers with an index below [n_actions]. *)
Definition random_action (n_actions chosen : Z) : result Z :=
  if n_actions <=? 0 then Raise ValueError else Ok chosen.

(** [torch.argmax(q_values).item()] on the estimates of one state. *)
Definition greedy_action (q_network : list Q) (observation : obs) : result Z :=
  (fun r => Z.of_nat (fst r)) <$> row_max (q_forward q_network observation).

(** The network [choose_action] consults: [q_network] in every class. *)
Definition policy_network (ag : agent obs) : list Q :=
  match ag with
  | DQN self => DQNAgent.q_network self
  | DDQN self => DDQNAgent.q_network self
  | DQV self => DQVAgent.q_network self
  | DQVMax self => DQVMaxAgent.q_network self
  end.

Definition choose_action (ag : agent obs) (u : Q) (chosen : Z) (observation : obs)
  : result Z :=
  if Qle_bool u (epsilon ag)
  then random_action (Agent.n_actions (memory ag)) chosen
  else greedy_action (policy_network ag) observation.

Definition batch_size (ag : agent obs) : Z :=
  match ag with
  | DQN self => DQNAgent.batch_size self
  | DDQN self => DDQNAgent.batch_size self
  | DQV self => DQVAgent.batch_size self
  | DQVMax self => DQVMaxAgent.batch_size self
  end.

Definition gamma (ag : agent obs) : Q :=
  match ag with
  | DQN self => DQNAgent.gamma self
  | DDQN self => DDQNAgent.gamma self
  | DQV self => DQVAgent.gamma self
  | DQVMax self => DQVMaxAgent.gamma self
  end.

Definition lr (ag : agent obs) : Q :=
  match ag with
  | DQN self => DQNAgent.lr self
  | DDQN self => DDQNAgent.lr self
  | DQV self => DQVAgent.lr self
  | DQVMax self => DQVMaxAgent.lr self
  end.

(** The two attributes that only [DDQNAgent] has. *)
Definition t_weight (ag : agent obs) : option Q :=
  match ag with
  | DDQN self => Some (DDQNAgent.t_weight self)
  | _ => None
  end.

Definition soft_update (ag : agent obs) : option bool :=
  match ag with
  | DDQN self => Some (DDQNAgent.soft_update self)
  | _ => None
  end.

(** The prediction of the action-value loss among the [loss_fn] calls of
    one [learn]: the first argument of the only call in DQN and double
    DQN, the second argument of the second call in DQV and DQV-Max. *)
Definition q_prediction (ag : agent obs) (trace : list loss_call)
  : option (tensor (list Q)) :=
  match ag, trace with
  | DQN _, [loss] => Some (arg1 loss)
  | DDQN _, [loss] => Some (arg1 loss)
  | DQV _, [_; q_loss] => Some (arg2 q_loss)
  | DQVMax _, [_; q_loss] => Some (arg2 q_loss)
  | _, _ => None
  end.
End ChooseAction.

(** The two classes with one action-value network and its target copy. *)
Definition single_network `{Approximators obs} (ag : agent obs) : bool :=
  match ag with
  | DQN _ => true
  | DDQN _ => true
  | _ => false
  end.

(** The row a fresh memory holds everywhere: [np.zeros] in each array. *)
Definition zero_row {obs : Type} (zero_state : obs) : Agent.transition obs :=
  Agent.Transition zero_state 0 0%Q zero_state false.

(** ** The exploration-rate updates on binary64 floats

    The same two update rules on the machine numbers Python computes
    with; [0x1.999999999999ap-4] is the double that [0.1] denotes. *)

Module Binary64.
Definition dqn_decay (epsilon epsilon_min epsilon_decay : float) : float :=
  if PrimFloat.ltb epsilon_min epsilon
  then PrimFloat.mul epsilon epsilon_decay
  else epsilon_min.

Definition max (a b : float) : float := if PrimFloat.ltb a b then b else a.

Definition ddqn_decay (epsilon epsilon_min epsilon_decay : float) : float :=
  max (PrimFloat.mul epsilon epsilon_decay) epsilon_min.

Fixpoint iterate (step : float → float) (n : nat) (epsilon : float) : list float :=
  match n with
  | O => []
  | S n' => step epsilon :: iterate step n' (step epsilon)
  end.

Definition tenth : float := 0x1.999999999999ap-4%float.
End Binary64.

(** ** A small concrete instance

    Observations are integers.  The action-value network is one linear
    layer without bias, one weight per action; the state-value network
    multiplies the state by its first weight.  One optimizer step adds
    one to every weight. *)

Module Toy.
#[global] Instance approximators : Approximators Z := {|
  q_forward params s := map (fun w => (w * inject_Z s)%Q) params;
  v_forward params s := (hd 0%Q params * inject_Z s)%Q;
  opt_state := unit;
  adam _ := tt;
  q_step _ params _ _ _ := (tt, map (fun w => (w + 1)%Q) params);
  v_step _ params _ _ := (tt, map (fun w => (w + 1)%Q) params);
|}.

(** Seven transitions with the rewards 0 to 6. *)
Definition seven : list (Agent.transition Z) :=
  map (fun i => Agent.Transition i 0 (inject_Z i) (i + 1) false) [0; 1; 2; 3; 4; 5; 6].

(** [gamma=1.0, epsilon_start=1.0, epsilon_min=0.1, epsilon_decay=0.5,
    batch_size=2, target_update_frequency=2] and the given burn-in. *)
Definition kw (burn_in : Z) : kwargs :=
  Kwargs None (Some 1%Q) (Some 1%Q) (Some (1 # 10)%Q) (Some (1 # 2)%Q)
    (Some 2) (Some 2) (Some burn_in).

(** A non-terminal and a terminal transition, both observed in state 1. *)
Definition two : list (Agent.transition Z) :=
  [Agent.Transition 1 0 1%Q 1 false; Agent.Transition 1 1 2%Q 1 true].

(** A memory of capacity two holding [two]. *)
Definition memory : Agent.t Z :=
  Agent.mk 2 [1; 1] [1; 1] [0; 1] [1%Q; 2%Q] [false; true] 2 2.

(** The four agents after construction and these two transitions.  In
    the double-DQN agent the online action values favour action 1, the
    target's favour action 0. *)
Definition dqn_self : DQNAgent.t Z :=
  DQNAgent.mk memory (1 # 10000)%Q 1%Q 1%Q (1 # 10)%Q (1 # 2)%Q 2 2 1 0
    [0%Q; 1%Q] [0%Q; 1%Q] tt.

Definition ddqn_self (soft : bool) : DDQNAgent.t Z :=
  DDQNAgent.mk memory (1 # 10000)%Q 1%Q 1%Q (1 # 10)%Q (1 # 2)%Q 2 2 1 0
    (1 # 2)%Q soft [0%Q; 1%Q] [5%Q; 3%Q] tt.

Definition dqv_self : DQVAgent.t Z :=
  DQVAgent.mk memory (25 # 100000)%Q 1%Q 1%Q (1 # 10)%Q (1 # 2)%Q 2 2 1 0
    [0%Q; 1%Q] [2%Q] [2%Q] tt tt.

Definition dqvmax_self : DQVMaxAgent.t Z :=
  DQVMaxAgent.mk memory (25 # 100000)%Q 1%Q 1%Q (1 # 10)%Q (1 # 2)%Q 2 2 1 0
    [0%Q; 1%Q] [0%Q; 1%Q] [2%Q] tt tt.

Definition dqn : agent Z := DQN dqn_self.
Definition ddqn (soft : bool) : agent Z := DDQN (ddqn_self soft).
Definition dqv : agent Z := DQV dqv_self.
Definition dqvmax : agent Z := DQVMax dqvmax_self.

(** How these agents come about: construction, then two stored
    transitions. *)
Definition build (constructed : result (agent Z)) (trs : list (Agent.transition Z))
  : result (agent Z) :=
  ag ← constructed; store_all ag trs.

Definition build_dqn (burn_in : Z) (trs : list (Agent.transition Z)) : result (agent Z) :=
  build (DQN <$> DQNAgent.init 2 0 2 [0%Q; 1%Q] [5%Q; 3%Q] (kw burn_in)) trs.

Definition build_ddqn (soft : bool) : result (agent Z) :=
  build (DDQN <$> DDQNAgent.init 2 0 2 [0%Q; 1%Q] [5%Q; 3%Q] (Some (1 # 2)%Q)
                    (Some soft) (kw 1)) two.

Definition build_dqv : result (agent Z) :=
  build (DQV <$> DQVAgent.init 2 0 2 [0%Q; 1%Q] [2%Q] [7%Q] (kw 1)) two.

Definition build_dqvmax : result (agent Z) :=
  build (DQVMax <$> DQVMaxAgent.init 2 0 2 [0%Q; 1%Q] [5%Q; 3%Q] [2%Q] (kw 1)) two.

(** No transition stored yet: the burn-in guard is active. *)
Definition early : agent Z :=
  DQN (DQNAgent.mk (Agent.mk 2 [0; 0] [0; 0] [0; 0] [0%Q; 0%Q] [false; false] 0 2)
         (1 # 10000)%Q 1%Q 1%Q (1 # 10)%Q (1 # 2)%Q 2 2 1 0 [0%Q; 1%Q] [0%Q; 1%Q] tt).

(** Burn-in period three with capacity two: after three stored
    transitions the counter has reached the burn-in period, the number
    of valid rows never will. *)
Definition three : list (Agent.transition Z) :=
  two ++ [Agent.Transition 1 0 3%Q 1 false].

Definition late : agent Z :=
  DQN (DQNAgent.mk (Agent.mk 2 [1; 1] [1; 1] [0; 1] [3%Q; 2%Q] [false; true] 3 2)
         (1 # 10000)%Q 1%Q 1%Q (1 # 10)%Q (1 # 2)%Q 2 2 3 0 [0%Q; 1%Q] [0%Q; 1%Q] tt).

Definition draws (n : nat) : list (list nat) := replicate n [0%nat; 1%nat].

(** Burn-in period zero and nothing stored: the guard is inactive on an
    empty memory. *)
Definition fresh : agent Z :=
  DQN (DQNAgent.mk (Agent.mk 2 [0; 0] [0; 0] [0; 0] [0%Q; 0%Q] [false; false] 0 2)
         (1 # 10000)%Q 1%Q 1%Q (1 # 10)%Q (1 # 2)%Q 2 2 0 0 [0%Q; 1%Q] [0%Q; 1%Q] tt).

(** [target_update_frequency=0]. *)
Definition never_synced : agent Z :=
  DQN (DQNAgent.mk memory (1 # 10000)%Q 1%Q 1%Q (1 # 10)%Q (1 # 2)%Q 2 0 1 0
         [0%Q; 1%Q] [0%Q; 1%Q] tt).

(** The DQV-Max agent's target Q-network and discount in a DQN agent. *)
Definition dqn_like_dqvmax : DQNAgent.t Z :=
  DQNAgent.mk memory (1 # 10000)%Q 1%Q 1%Q (1 # 10)%Q (1 # 2)%Q 2 2 1 0
    [7%Q; 1%Q] [0%Q; 1%Q] tt.

(** A double-DQN agent whose exploration rate is at its floor. *)
Definition exploiting_self : DDQNAgent.t Z :=
  DDQNAgent.mk memory (1 # 10000)%Q 1%Q (1 # 10)%Q (1 # 10)%Q (1 # 2)%Q 2 2 1 0
    (1 # 2)%Q false [0%Q; 1%Q] [5%Q; 3%Q] tt.

Definition exploiting : agent Z := DDQN exploiting_self.

(** A double-DQN agent in soft mode with the given weight, one completed
    step before the next synchronisation. *)
Definition soft_ddqn (t_weight : Q) : agent Z :=
  DDQN (DDQNAgent.mk memory (1 # 10000)%Q 1%Q 1%Q (1 # 10)%Q (1 # 2)%Q 2 2 1 1
          t_weight true [0%Q; 1%Q] [5%Q; 3%Q] tt).
End Toy.

(** ** Vocabulary of the properties *)

(** [x] is the maximum of [row] and [a] the index of its first occurrence. *)
Definition first_argmax (row : list Q) (a : nat) (x : Q) : Prop :=
  row !! a = Some x ∧
  (∀ j y, row !! j = Some y → (y <= x)%Q) ∧
  (∀ j y, (j < a)%nat → row !! j = Some y → (y < x)%Q).

(** The action of the transition is a 32-bit integer. *)
Definition action_fits {obs : Type} (tr : Agent.transition obs) : Prop :=
  int32_min ≤ Agent.tr_action tr ≤ int32_max.

(** The arrays can hold the transition: its action is a 32-bit integer
    and its reward does not overflow binary32. *)
Definition fits_dtypes {obs : Type} (tr : Agent.transition obs) : Prop :=
  action_fits tr ∧ float32_finite (Agent.tr_reward tr) = true.

(** The transition as the arrays hold it: the reward is the binary32
    number nearest to it, the other fields are kept. *)
Definition recorded {obs : Type} (tr : Agent.transition obs) : Agent.transition obs :=
  Agent.Transition (Agent.tr_state tr) (Agent.tr_action tr)
    (as_float32 (Agent.tr_reward tr)) (Agent.tr_new_state tr) (Agent.tr_done tr).

(** The memory whose rows were written, in this order, with the
    transitions [stored]: the counter has counted them, the five arrays
    have the capacity as their length, and each of the last
    [memory_size] of them lies, all five fields in one row, at its
    position modulo the capacity. *)
Definition holds_last {obs : Type} (self : Agent.t obs)
  (stored : list (Agent.transition obs)) : Prop :=
  let m := Z.to_nat (Agent.memory_size self) in
  Agent.mem_counter self = Z.of_nat (length stored) ∧
  (length (Agent.state_buffer self) = m ∧
   length (Agent.next_state_buffer self) = m ∧
   length (Agent.action_buffer self) = m ∧
   length (Agent.reward_buffer self) = m ∧
   length (Agent.terminal_buffer self) = m) ∧
  ∀ j tr, stored !! j = Some tr → (length stored ≤ j + m)%nat →
    Agent.row self (j mod m)%nat = Some tr.

(** Each value of the sequence is at most its predecessor and at least
    [floor]. *)
Definition non_increasing_above (floor : Q) (eps : list Q) : Prop :=
  ∀ i x y, eps !! i = Some x → eps !! S i = Some y → (y <= x)%Q ∧ (floor <= y)%Q.

(** * Properties *)

(** ** The error monad *)

Lemma bind_Ok {A B : Type} (m : result A) (k : A → result B) (b : B) :
  m ≫= k = Ok b → ∃ a, m = Ok a ∧ k a = Ok b.
Proof. destruct m as [a|e]; simpl; [eauto | discriminate]. Qed.

Lemma fmap_Ok {A B : Type} (f : A → B) (m : result A) (b : B) :
  f <$> m = Ok b → ∃ a, m = Ok a ∧ b = f a.
Proof. destruct m as [a|e]; simpl; [intros [= <-]; eauto | discriminate]. Qed.

Lemma mapM_Ok_lookup {A B : Type} (f : A → result B) (l : list A) (ys : list B) :
  mapM f l = Ok ys →
  length ys = length l ∧
  ∀ i x, l !! i = Some x → ∃ y, f x = Ok y ∧ ys !! i = Some y.
Proof.
  revert ys. induction l as [|x l IH]; intros ys Hm; simpl in Hm.
  - injection Hm as <-. split; [done | intros i x Hi; discriminate Hi].
  - apply bind_Ok in Hm as (y & Hy & Hm).
    apply bind_Ok in Hm as (ys' & Hys' & Hm).
    injection Hm as <-. destruct (IH ys' Hys') as [Hlen Hl].
    split; [simpl; congruence |].
    intros [|i] x' Hi; simpl in *.
    + injection Hi as <-. eauto.
    + eauto.
Qed.

Lemma take_rows_lookup {A : Type} (buffer : list A) (batch_indices : list nat)
  (rows : list A) :
  take_rows buffer batch_indices = Ok rows →
  length rows = length batch_indices ∧
  ∀ i k, batch_indices !! i = Some k → ∃ x, buffer !! k = Some x ∧ rows !! i = Some x.
Proof.
  intros Hm. apply mapM_Ok_lookup in Hm as [Hlen Hl]. split; [done |].
  intros i k Hi. destruct (Hl i k Hi) as (y & Hy & Hrow).
  destruct (buffer !! k) as [x|]; simpl in Hy; [| discriminate].
  injection Hy as ->. eauto.
Qed.

(** ** The element types of the arrays *)

(** The two conversions on some values.  The 32-bit range ends at
    [2 ^ 31 - 1] and at [- 2 ^ 31].  0.1 and 1/3 are rounded; [2 ^ 24 + 1]
    lies halfway between two binary32 numbers and goes to the even
    one, [2 ^ 24], as [2 ^ 24 + 3] goes to [2 ^ 24 + 4]; the least
    positive binary32 number is [2 ^ -149], half of it is rounded to
    zero and one and a half of it to its double; [float32_max] is kept
    and [2 ^ 128] overflows. *)
Lemma dtype_examples :
  as_int32 (2 ^ 31 - 1) = Ok (2 ^ 31 - 1) ∧
  as_int32 (2 ^ 31) = Raise OverflowError ∧
  as_int32 (- 2 ^ 31) = Ok (- 2 ^ 31) ∧
  as_int32 (- 2 ^ 31 - 1) = Raise OverflowError ∧
  as_float32 (1 # 10) = (13421773 # 134217728)%Q ∧
  as_float32 (- 1 # 3) = (- 11184811 # 33554432)%Q ∧
  as_float32 (inject_Z (2 ^ 24 + 1)) = inject_Z (2 ^ 24) ∧
  as_float32 (inject_Z (2 ^ 24 + 3)) = inject_Z (2 ^ 24 + 4) ∧
  as_float32 (1 # 2 ^ 149) = (1 # 2 ^ 149)%Q ∧
  as_float32 (1 # 2 ^ 150) = 0%Q ∧
  as_float32 (3 # 2 ^ 150) = (1 # 2 ^ 148)%Q ∧
  as_float32 float32_max = float32_max ∧
  float32_finite float32_max = true ∧
  float32_finite (inject_Z (2 ^ 128)) = false.
Proof. split_and!; vm_compute; reflexivity. Qed.

Lemma Qred_inject_Z (n : Z) : Qred (inject_Z n) = inject_Z n.
Proof.
  unfold Qred, inject_Z.
  pose proof (Z.ggcd_gcd n 1) as Hg. pose proof (Z.ggcd_correct_divisors n 1) as Hd.
  destruct (Z.ggcd n 1) as [g [q1 q2]]. simpl in *.
  rewrite Z.gcd_1_r in Hg. subst g. destruct Hd as [Hn H1].
  assert (q1 = n) as -> by lia. assert (q2 = 1) as -> by lia. reflexivity.
Qed.

Lemma round_half_even_exact (a : Z) : round_half_even a 1 = a.
Proof. unfold round_half_even. rewrite Z.mod_1_r, Z.div_1_r. reflexivity. Qed.

Lemma leading_exponent_integer (n : Z) : 0 < n → leading_exponent n 1 = Z.log2 n.
Proof.
  intros Hn. unfold leading_exponent, scaled. change (Z.log2 1) with 0.
  rewrite Z.sub_0_r. pose proof (Z.log2_nonneg n) as H0.
  destruct (0 <=? Z.log2 n) eqn:E; [| lia].
  pose proof (Z.log2_spec n Hn) as [Hlow _].
  destruct (1 * 2 ^ Z.log2 n <=? n) eqn:E'; [done | lia].
Qed.

(** Every integer up to [2 ^ 24] in magnitude is a binary32 number:
    the conversion keeps it. *)
Lemma as_float32_integer (n : Z) :
  - 2 ^ 24 ≤ n ≤ 2 ^ 24 → as_float32 (inject_Z n) = inject_Z n.
Proof.
  intros Hn. destruct (decide (n = 0)) as [-> | Hne]; [reflexivity |].
  destruct (decide (Z.abs n = 2 ^ 24)) as [Hmax | Hlt].
  { assert (n = 2 ^ 24 ∨ n = - 2 ^ 24) as [-> | ->] by lia; vm_compute; reflexivity. }
  assert (0 < Z.abs n < 2 ^ 24) as Habs by lia.
  assert (0 ≤ Z.log2 (Z.abs n) < 24) as Hlog.
  { split; [apply Z.log2_nonneg |]. apply Z.log2_lt_pow2; lia. }
  unfold as_float32. simpl Qnum. simpl Qden.
  destruct (Z.abs n =? 0) eqn:E; [lia |].
  rewrite leading_exponent_integer by lia.
  rewrite Z.max_l by lia.
  set (e := Z.log2 (Z.abs n) - 23) in *.
  unfold scaled. destruct (0 <=? e) eqn:Ee.
  - assert (e = 0) as -> by lia. change (1 * 2 ^ 0) with 1.
    rewrite round_half_even_exact.
    replace (Z.sgn n * Z.abs n * 2 ^ 0) with n by lia.
    apply Qred_inject_Z.
  - rewrite round_half_even_exact.
    rewrite <- (Qred_inject_Z n). apply Qred_complete.
    unfold Qeq, inject_Z. simpl.
    assert (0 < 2 ^ (- e)) as Hpow by (apply Z.pow_pos_nonneg; lia).
    rewrite Z2Pos.id by done. nia.
Qed.

(** ** The replay memory *)

Lemma mod_distinct (m j n : nat) :
  (j < n)%nat → (n < j + m)%nat → (j mod m ≠ n mod m)%nat.
Proof.
  intros Hjn Hnm Heq.
  pose proof (Nat.div_mod_eq j m) as Hj.
  pose proof (Nat.div_mod_eq n m) as Hn.
  rewrite Heq in Hj.
  assert (n - j = m * (n / m) - m * (j / m))%nat as Hd by lia.
  rewrite <- Nat.mul_sub_distr_l in Hd.
  destruct (n / m - j / m)%nat as [|d] eqn:Ed; nia.
Qed.

Lemma slot_has_survivor (m n i : nat) :
  (m ≤ n)%nat → (i < m)%nat →
  ∃ j, (j < n)%nat ∧ (n ≤ j + m)%nat ∧ (j mod m)%nat = i.
Proof.
  intros Hmn Him.
  pose proof (Nat.div_mod_eq (n - m) m) as Hb.
  assert ((n - m) mod m < m)%nat as Hr by (apply Nat.mod_upper_bound; lia).
  set (q := ((n - m) / m)%nat) in *. set (r := ((n - m) mod m)%nat) in *.
  destruct (le_lt_dec r i) as [Hri|Hir].
  - exists (m * q + i)%nat. split_and!; [lia | lia |].
    symmetry. apply (Nat.mod_unique _ _ q); lia.
  - exists (m * S q + i)%nat. split_and!; [nia | nia |].
    symmetry. apply (Nat.mod_unique _ _ (S q)); lia.
Qed.

Lemma write_index (m n : nat) :
  (0 < m)%nat → Z.to_nat (Z.of_nat n mod Z.of_nat m) = (n mod m)%nat.
Proof. intros Hm. rewrite <- Nat2Z.inj_mod. apply Nat2Z.id. Qed.

Section Memory.
Context {obs : Type}.
Implicit Types (self : Agent.t obs) (tr : Agent.transition obs).

Lemma init_holds_last (memory_size : Z) (zero_state : obs) (n_actions : Z) :
  0 ≤ memory_size →
  ∃ self, Agent.init memory_size zero_state n_actions = Ok self ∧
          Agent.memory_size self = memory_size ∧ holds_last self [].
Proof.
  intros HM. unfold Agent.init.
  destruct (memory_size <? 0) eqn:E; [lia |].
  eexists. split; [reflexivity |]. split; [reflexivity |].
  unfold holds_last; simpl. rewrite !length_replicate.
  split_and!; try done.
Qed.

(** A [store_transition] that returns: the capacity is not zero, the
    action is a 32-bit integer, and one row has been written. *)
Lemma store_transition_Ok self (state : obs) (action : Z) (reward : Q)
  (new_state : obs) (done : bool) self' :
  Agent.store_transition self state action reward new_state done = Ok self' ↔
  Agent.memory_size self ≠ 0 ∧ int32_min ≤ action ≤ int32_max ∧
  let index := Z.to_nat (Agent.mem_counter self mod Agent.memory_size self) in
  self' = Agent.mk (Agent.memory_size self)
            (<[index := state]> (Agent.state_buffer self))
            (<[index := new_state]> (Agent.next_state_buffer self))
            (<[index := action]> (Agent.action_buffer self))
            (<[index := as_float32 reward]> (Agent.reward_buffer self))
            (<[index := done]> (Agent.terminal_buffer self))
            (Agent.mem_counter self + 1) (Agent.n_actions self).
Proof.
  unfold Agent.store_transition, as_int32.
  destruct (Agent.memory_size self =? 0) eqn:E.
  - split; [discriminate | intros (HM & _); lia].
  - destruct (action <? int32_min) eqn:E1; simpl.
    + split; [discriminate | intros (_ & Ha & _); lia].
    + destruct (int32_max <? action) eqn:E2; simpl.
      * split; [discriminate | intros (_ & Ha & _); lia].
      * split.
        -- intros [= <-]. split_and!; [lia | lia | lia | done].
        -- by intros (_ & _ & ->).
Qed.

(** Outside the 32-bit range the write of the action raises. *)
Lemma store_transition_overflow self (state : obs) (action : Z) (reward : Q)
  (new_state : obs) (done : bool) :
  Agent.memory_size self ≠ 0 → ¬ int32_min ≤ action ≤ int32_max →
  Agent.store_transition self state action reward new_state done = Raise OverflowError.
Proof.
  intros HM Ha. unfold Agent.store_transition, as_int32.
  destruct (Agent.memory_size self =? 0) eqn:E; [lia |].
  destruct (action <? int32_min) eqn:E1; [done |].
  destruct (int32_max <? action) eqn:E2; [done | lia].
Qed.

Lemma row_insert_eq self i tr :
  (i < length (Agent.state_buffer self))%nat →
  (i < length (Agent.next_state_buffer self))%nat →
  (i < length (Agent.action_buffer self))%nat →
  (i < length (Agent.reward_buffer self))%nat →
  (i < length (Agent.terminal_buffer self))%nat →
  ∀ self', Agent.store_transition self (Agent.tr_state tr) (Agent.tr_action tr)
             (Agent.tr_reward tr) (Agent.tr_new_state tr) (Agent.tr_done tr) = Ok self' →
  i = Z.to_nat (Agent.mem_counter self mod Agent.memory_size self) →
  Agent.row self' i = Some (recorded tr).
Proof.
  intros H1 H2 H3 H4 H5 self' Hs ->.
  apply store_transition_Ok in Hs as (_ & _ & ->). unfold Agent.row; simpl.
  rewrite !list_lookup_insert_eq by assumption. done.
Qed.

Lemma row_insert_ne self i tr self' :
  Agent.store_transition self (Agent.tr_state tr) (Agent.tr_action tr)
    (Agent.tr_reward tr) (Agent.tr_new_state tr) (Agent.tr_done tr) = Ok self' →
  i ≠ Z.to_nat (Agent.mem_counter self mod Agent.memory_size self) →
  Agent.row self' i = Agent.row self i.
Proof.
  intros Hs Hne. apply store_transition_Ok in Hs as (_ & _ & ->).
  unfold Agent.row; simpl. by rewrite !list_lookup_insert_ne by congruence.
Qed.

(** One more recorded transition keeps the invariant. *)
Lemma store_holds_last self stored tr :
  0 < Agent.memory_size self → action_fits tr → holds_last self stored →
  ∃ self', Agent.store self tr = Ok self' ∧
           Agent.memory_size self' = Agent.memory_size self ∧
           holds_last self' (stored ++ [recorded tr]).
Proof.
  intros HM Hfits (Hc & (L1 & L2 & L3 & L4 & L5) & Hrows).
  set (m := Z.to_nat (Agent.memory_size self)) in *.
  assert (Agent.memory_size self = Z.of_nat m) as HMm by lia.
  assert (0 < m)%nat as Hm by lia.
  assert (Z.to_nat (Agent.mem_counter self mod Agent.memory_size self)
          = (length stored mod m)%nat) as Hidx.
  { rewrite Hc, HMm. by apply write_index. }
  assert (length stored mod m < m)%nat as Hlt by (apply Nat.mod_upper_bound; lia).
  assert (∃ self', Agent.store self tr = Ok self') as [self' Hs].
  { eexists. unfold Agent.store. apply store_transition_Ok.
    split_and!; [lia | apply Hfits | apply Hfits | reflexivity]. }
  exists self'. split; [done |]. unfold Agent.store in Hs.
  pose proof Hs as Hs'. apply store_transition_Ok in Hs' as (_ & _ & Hself').
  assert (Agent.memory_size self' = Agent.memory_size self) as HM' by (by rewrite Hself').
  split; [done |]. unfold holds_last. rewrite HM'. fold m.
  split; [| split].
  - rewrite Hself'. simpl. rewrite length_app. simpl. lia.
  - rewrite Hself'. simpl. by rewrite !length_insert.
  - intros j tr' Hj Hlast. rewrite length_app in Hlast. simpl in Hlast.
    destruct (decide (j = length stored)) as [->|Hne].
    + rewrite list_lookup_middle in Hj by done. injection Hj as <-.
      apply (row_insert_eq self); try (rewrite ?L1, ?L2, ?L3, ?L4, ?L5; exact Hlt); done.
    + assert (j < length stored)%nat as Hjs.
      { apply lookup_lt_Some in Hj. rewrite length_app in Hj. simpl in Hj. lia. }
      rewrite lookup_app_l in Hj by done.
      rewrite (row_insert_ne self _ tr self' Hs).
      * apply Hrows; [done | lia].
      * rewrite Hidx. apply mod_distinct; lia.
Qed.

Lemma store_all_holds_last self stored trs :
  0 < Agent.memory_size self → Forall action_fits trs → holds_last self stored →
  ∃ self', Agent.store_all self trs = Ok self' ∧
           Agent.memory_size self' = Agent.memory_size self ∧
           holds_last self' (stored ++ map recorded trs).
Proof.
  revert self stored. induction trs as [|tr trs IH]; intros self stored HM Hfit Hinv.
  - exists self. simpl. rewrite app_nil_r. done.
  - apply Forall_cons in Hfit as [Hfit1 Hfit].
    destruct (store_holds_last self stored tr HM Hfit1 Hinv) as (self1 & Hs & HM1 & Hinv1).
    destruct (IH self1 (stored ++ [recorded tr])) as (self' & Hall & HM' & Hinv');
      [lia | done | done |].
    exists self'. simpl. rewrite Hs. simpl. rewrite <- app_assoc in Hinv'.
    split; [done |]. split; [congruence | done].
Qed.

(** A reward that is a binary32 number is recorded as it is. *)
Lemma recorded_exact tr :
  as_float32 (Agent.tr_reward tr) = Agent.tr_reward tr → recorded tr = tr.
Proof. destruct tr as [s a r s' d]. unfold recorded. simpl. by intros ->. Qed.

Lemma fits_dtypes_actions (trs : list (Agent.transition obs)) :
  Forall fits_dtypes trs → Forall action_fits trs.
Proof. intros Hfit. eapply Forall_impl; [exact Hfit |]. by intros tr [Ha _]. Qed.
End Memory.

(** C3, as the code has it.  For every capacity [M > 0] and every
    sequence of at least [M] transitions (so [M + k] of them, [k > 0]
    included) whose actions are 32-bit integers and whose rewards do not
    overflow binary32, every [store_transition] call succeeds and
    afterwards: the counter [C] is the number of calls, the next write
    index is [C mod M], each of the last [M] transitions lies with all
    its five fields in the row at its position modulo [M], the reward
    rounded to the nearest binary32 number (so the transition itself
    when its reward is a binary32 number), and every row of the memory
    holds one of these last [M] transitions.  A call whose action is not
    a 32-bit integer raises [OverflowError].  With [M = 5] and the
    rewards 0 to 6, the reward buffer is [5; 6; 2; 3; 4]: the rewards 2,
    3, 4, 5, 6 at the positions 2, 3, 4, 0, 1. *)
Theorem store_transition_ring_buffer :
  (∀ (obs : Type) (M : Z) (zero_state : obs) (n_actions : Z)
     (trs : list (Agent.transition obs)),
     0 < M → M ≤ Z.of_nat (length trs) → Forall fits_dtypes trs →
     ∃ self0 self,
       Agent.init M zero_state n_actions = Ok self0 ∧
       Agent.store_all self0 trs = Ok self ∧
       Agent.memory_size self = M ∧
       Agent.mem_counter self = Z.of_nat (length trs) ∧
       Z.to_nat (Agent.mem_counter self mod Agent.memory_size self)
         = (length trs mod Z.to_nat M)%nat ∧
       (∀ j tr, trs !! j = Some tr → (length trs ≤ j + Z.to_nat M)%nat →
          Agent.row self (j mod Z.to_nat M)%nat = Some (recorded tr) ∧
          (as_float32 (Agent.tr_reward tr) = Agent.tr_reward tr →
           Agent.row self (j mod Z.to_nat M)%nat = Some tr)) ∧
       (∀ i, (i < Z.to_nat M)%nat →
          ∃ j tr, trs !! j = Some tr ∧ (length trs ≤ j + Z.to_nat M)%nat ∧
                  (j mod Z.to_nat M)%nat = i ∧ Agent.row self i = Some (recorded tr))) ∧
  (∀ (obs : Type) (self : Agent.t obs) (tr : Agent.transition obs),
     Agent.memory_size self ≠ 0 → ¬ action_fits tr →
     Agent.store self tr = Raise OverflowError) ∧
  (∃ self0 self,
     Agent.init 5 0 2 = Ok self0 ∧
     Agent.store_all self0 Toy.seven = Ok self ∧
     Agent.reward_buffer self = [5%Q; 6%Q; 2%Q; 3%Q; 4%Q] ∧
     Agent.row self 2 = Toy.seven !! 2%nat ∧
     Agent.row self 3 = Toy.seven !! 3%nat ∧
     Agent.row self 4 = Toy.seven !! 4%nat ∧
     Agent.row self 0 = Toy.seven !! 5%nat ∧
     Agent.row self 1 = Toy.seven !! 6%nat).
Proof.
  split_and!.
  - intros obs M zero_state n_actions trs HM Hlen Hfit.
    destruct (init_holds_last M zero_state n_actions) as (self0 & Hinit & HM0 & Hinv0);
      [lia |].
    destruct (store_all_holds_last self0 [] trs) as (self & Hall & HMs & Hinv);
      [lia | by apply fits_dtypes_actions | done |].
    simpl in Hinv. destruct Hinv as (Hc & _ & Hrows).
    rewrite length_map in Hc, Hrows.
    assert (Agent.memory_size self = M) as HMeq by congruence.
    rewrite HMeq in Hrows.
    assert (∀ j tr, trs !! j = Some tr → (length trs ≤ j + Z.to_nat M)%nat →
              Agent.row self (j mod Z.to_nat M)%nat = Some (recorded tr)) as Hrec.
    { intros j tr Hj Hlast. apply Hrows; [| done]. by rewrite list_lookup_fmap, Hj. }
    exists self0, self. split_and!; try done.
    + rewrite Hc, HMeq. replace M with (Z.of_nat (Z.to_nat M)) at 1 by lia.
      apply write_index. lia.
    + intros j tr Hj Hlast. split; [by apply Hrec |].
      intros Hexact. rewrite <- (recorded_exact tr Hexact). by apply Hrec.
    + intros i Hi.
      destruct (slot_has_survivor (Z.to_nat M) (length trs) i) as (j & Hj & Hlast & Hmod);
        [lia | done |].
      destruct (lookup_lt_is_Some_2 trs j Hj) as [tr Htr].
      exists j, tr. split_and!; try done.
      rewrite <- Hmod. by apply Hrec.
  - intros obs self tr HM Hfit. unfold Agent.store.
    by apply store_transition_overflow.
  - eexists _, _. split; [reflexivity |]. split; [vm_compute; reflexivity |].
    split_and!; reflexivity.
Qed.

Lemma store_transition_ring_buffer_witness :
  ∃ self0 self,
    Agent.init 5 0 2 = Ok self0 ∧
    Agent.store_all self0 Toy.seven = Ok self ∧
    Agent.memory_size self = 5 ∧
    Agent.mem_counter self = Z.of_nat (length Toy.seven) ∧
    Z.to_nat (Agent.mem_counter self mod Agent.memory_size self)
      = (length Toy.seven mod Z.to_nat 5)%nat ∧
    (∀ j tr, Toy.seven !! j = Some tr → (length Toy.seven ≤ j + Z.to_nat 5)%nat →
       Agent.row self (j mod Z.to_nat 5)%nat = Some (recorded tr) ∧
       (as_float32 (Agent.tr_reward tr) = Agent.tr_reward tr →
        Agent.row self (j mod Z.to_nat 5)%nat = Some tr)) ∧
    (∀ i, (i < Z.to_nat 5)%nat →
       ∃ j tr, Toy.seven !! j = Some tr ∧ (length Toy.seven ≤ j + Z.to_nat 5)%nat ∧
               (j mod Z.to_nat 5)%nat = i ∧ Agent.row self i = Some (recorded tr)).
Proof.
  apply (proj1 store_transition_ring_buffer Z 5 0 2 Toy.seven).
  - lia.
  - simpl. lia.
  - repeat constructor; vm_compute; discriminate.
Defined.

(** C3 is not what the typed arrays do.  With capacity 2, of three
    recorded transitions the last, with the reward [2 ^ 24 + 1], is held
    with the reward [2 ^ 24], the nearest binary32 number; and with
    [2 ^ 32] actions a third transition with the action [2 ^ 31] is not
    recorded at all: the call raises [OverflowError]. *)
Lemma store_transition_converts_to_dtypes :
  (∃ self0 self,
     Agent.init 2 0 2 = Ok self0 ∧
     Agent.store_all self0 (Toy.two ++ [Agent.Transition 1 0 (inject_Z (2 ^ 24 + 1)) 1 false])
       = Ok self ∧
     Agent.row self 0 = Some (Agent.Transition 1 0 (inject_Z (2 ^ 24)) 1 false) ∧
     Agent.row self 0 ≠ Some (Agent.Transition 1 0 (inject_Z (2 ^ 24 + 1)) 1 false)) ∧
  (∃ self0,
     Agent.init 2 0 (2 ^ 32) = Ok self0 ∧
     0 ≤ 2 ^ 31 < Agent.n_actions self0 ∧
     Agent.store_all self0 (Toy.two ++ [Agent.Transition 1 (2 ^ 31) 3%Q 1 false])
       = Raise OverflowError).
Proof.
  split.
  - eexists _, _. split; [reflexivity |]. split; [vm_compute; reflexivity |].
    split; [reflexivity | discriminate].
  - eexists. split; [reflexivity |]. split; [simpl; lia |]. vm_compute. reflexivity.
Qed.

(** ** Tensor operations *)

Lemma Qgtb_true (a b : Q) : Qgtb a b = true ↔ (b < a)%Q.
Proof.
  unfold Qgtb. rewrite negb_true_iff, <- not_true_iff_false, Qle_bool_iff.
  split; [apply Qnot_le_lt | apply Qlt_not_le].
Qed.

Lemma Qgtb_false (a b : Q) : Qgtb a b = false ↔ (a <= b)%Q.
Proof. unfold Qgtb. by rewrite negb_false_iff, Qle_bool_iff. Qed.

Lemma py_max_spec (a b : Q) :
  (a <= py_max a b)%Q ∧ (b <= py_max a b)%Q ∧ (py_max a b = a ∨ py_max a b = b).
Proof.
  unfold py_max. destruct (Qgtb b a) eqn:E.
  - apply Qgtb_true in E. split_and!; [lra | lra | by right].
  - apply Qgtb_false in E. split_and!; [lra | lra | by left].
Qed.

Lemma max_from_spec (row : list Q) :
  ∀ (best_i : nat) (best : Q) (i a : nat) (x : Q),
    (best_i < i)%nat →
    max_from best_i best i row = (a, x) →
    ((a = best_i ∧ x = best) ∨
     (∃ j, a = (i + j)%nat ∧ row !! j = Some x ∧ (best < x)%Q)) ∧
    (best <= x)%Q ∧
    (∀ j y, row !! j = Some y → (y <= x)%Q) ∧
    (∀ j y, row !! j = Some y → (i + j < a)%nat → (y < x)%Q).
Proof.
  induction row as [|x' row IH]; intros best_i best i a x Hlt Hm; simpl in Hm.
  - injection Hm as <- <-. split_and!; [by left | lra | |]; intros j y Hj; discriminate Hj.
  - destruct (Qgtb x' best) eqn:E.
    + apply Qgtb_true in E.
      destruct (IH i x' (S i) a x (Nat.lt_succ_diag_r i) Hm)
        as ([[-> ->]|(j & -> & Hj & Hx)] & Hle & Hall & Hbefore).
      * split_and!.
        -- right. exists 0%nat. split_and!; [lia | done | done].
        -- lra.
        -- intros [|j] y Hj; simpl in Hj; [injection Hj as <-; lra | eauto].
        -- intros [|j] y Hj Hb; [lia |]. simpl in Hj. apply (Hbefore j); [done | lia].
      * split_and!.
        -- right. exists (S j). split_and!; [lia | done | lra].
        -- lra.
        -- intros [|j'] y Hj'; simpl in Hj'; [injection Hj' as <-; lra | eauto].
        -- intros [|j'] y Hj' Hb; simpl in Hj'; [injection Hj' as <-; lra |].
           apply (Hbefore j'); [done | lia].
    + apply Qgtb_false in E.
      destruct (IH best_i best (S i) a x (Nat.lt_lt_succ_r _ _ Hlt) Hm)
        as (Hcase & Hle & Hall & Hbefore).
      split_and!.
      * destruct Hcase as [[-> ->]|(j & -> & Hj & Hx)]; [by left |].
        right. exists (S j). split_and!; [lia | done | done].
      * done.
      * intros [|j] y Hj; simpl in Hj; [injection Hj as <-; lra | eauto].
      * intros [|j] y Hj Hb; simpl in Hj.
        -- injection Hj as <-.
           destruct Hcase as [[-> ->]|(j & -> & Hj & Hx)]; [lia | lra].
        -- apply (Hbefore j); [done | lia].
Qed.

(** [torch.max] and [torch.argmax] return the maximum of a row and the
    index of its first occurrence. *)
Lemma row_max_spec (row : list Q) (a : nat) (x : Q) :
  row_max row = Ok (a, x) → first_argmax row a x.
Proof.
  destruct row as [|x0 row]; simpl; [discriminate |]. intros [= Hm].
  destruct (max_from_spec row 0 x0 1 a x ltac:(lia) Hm)
    as (Hcase & Hle & Hall & Hbefore).
  unfold first_argmax. split_and!.
  - destruct Hcase as [[-> ->]|(j & -> & Hj & Hx)]; done.
  - intros [|j] y Hj; simpl in Hj; [injection Hj as <-; done | eauto].
  - intros [|j] y Hja Hj; simpl in Hj.
    + injection Hj as <-. destruct Hcase as [[-> ->]|(j & -> & Hj & Hx)]; [lia | done].
    + apply (Hbefore j); [done | lia].
Qed.

Lemma max_from_zeros (row : list Q) (best_i i : nat) :
  max_from best_i 0%Q i (map (fun _ => 0%Q) row) = (best_i, 0%Q).
Proof. revert i. induction row as [|x row IH]; intros i; simpl; [done | apply IH]. Qed.

(** A zeroed row has maximum zero, found at index zero. *)
Lemma row_max_zeros (row : list Q) :
  row ≠ [] → row_max (map (fun _ => 0%Q) row) = Ok (0%nat, 0%Q).
Proof.
  destruct row as [|x row]; [done |]. intros _. simpl. by rewrite max_from_zeros.
Qed.

Lemma max_dim1_lookup (t : tensor (list (list Q))) (m : tensor (list Q)) :
  max_dim1 t = Ok m →
  requires_grad m = requires_grad t ∧
  length (data m) = length (data t) ∧
  ∀ i row, data t !! i = Some row →
    ∃ a x, row_max row = Ok (a, x) ∧ data m !! i = Some x.
Proof.
  unfold max_dim1. intros Hm. apply bind_Ok in Hm as (vals & Hvals & Hm).
  injection Hm as <-. simpl.
  apply mapM_Ok_lookup in Hvals as [Hlen Hl]. split_and!; [done | done |].
  intros i row Hi. destruct (Hl i row Hi) as (x & Hx & Hv).
  apply fmap_Ok in Hx as ([a x'] & Hrow & ->). eauto.
Qed.

Lemma argmax_dim1_lookup (t : tensor (list (list Q))) (index : list nat) :
  argmax_dim1 t = Ok index →
  length index = length (data t) ∧
  ∀ i row, data t !! i = Some row →
    ∃ a x, row_max row = Ok (a, x) ∧ index !! i = Some a.
Proof.
  unfold argmax_dim1. intros Hm.
  apply mapM_Ok_lookup in Hm as [Hlen Hl]. split; [done |].
  intros i row Hi. destruct (Hl i row Hi) as (a & Ha & Hv).
  apply fmap_Ok in Ha as ([a' x] & Hrow & ->). eauto.
Qed.

Lemma gather_rows_lookup (rows : list (list Q)) :
  ∀ (index : list nat) (xs : list Q),
    gather_rows rows index = Ok xs →
    length xs = Nat.min (length rows) (length index) ∧
    ∀ i row a, rows !! i = Some row → index !! i = Some a →
      ∃ x, row !! a = Some x ∧ xs !! i = Some x.
Proof.
  induction rows as [|row rows IH]; intros index xs Hg; simpl in Hg.
  - injection Hg as <-. split; [done |]. intros i row a Hi. discriminate Hi.
  - destruct index as [|a index].
    + injection Hg as <-. split; [done |]. intros i row' a _ Hi. discriminate Hi.
    + apply bind_Ok in Hg as (x & Hx & Hg). apply bind_Ok in Hg as (xs' & Hxs' & Hg).
      injection Hg as <-. destruct (IH index xs' Hxs') as [Hlen Hl].
      split; [simpl; lia |].
      intros [|i] row' a' Hrow Ha; simpl in *.
      * injection Hrow as <-. injection Ha as <-.
        destruct (row !! a) as [y|]; simpl in Hx; [| discriminate].
        injection Hx as ->. eauto.
      * eauto.
Qed.

Lemma gather_dim1_lookup (t : tensor (list (list Q))) (index : list nat)
  (g : tensor (list Q)) :
  gather_dim1 t index = Ok g →
  requires_grad g = requires_grad t ∧
  length (data g) = Nat.min (length (data t)) (length index) ∧
  ∀ i row a, data t !! i = Some row → index !! i = Some a →
    ∃ x, row !! a = Some x ∧ data g !! i = Some x.
Proof.
  unfold gather_dim1. intros Hg. apply bind_Ok in Hg as (vals & Hvals & Hg).
  injection Hg as <-. simpl. apply gather_rows_lookup in Hvals as [Hlen Hl]. done.
Qed.

Lemma random_choice_Ok (max_mem batch_size : Z) (drawn batch_indices : list nat) :
  random_choice max_mem batch_size drawn = Ok batch_indices →
  batch_indices = drawn ∧ 0 ≤ batch_size ≤ max_mem.
Proof.
  unfold random_choice.
  destruct (batch_size <? 0) eqn:E1; [discriminate |].
  destruct (max_mem <? batch_size) eqn:E2; [discriminate |].
  simpl. intros [= <-]. split; [done | lia].
Qed.

(** The sampled batches are row-aligned: position [i] of each of the
    five batches holds the fields of the memory row that was drawn at
    position [i]. *)
Lemma sample_rows {obs : Type} (self : Agent.t obs) (batch_indices : list nat)
  (b : Agent.batch obs) :
  Agent.sample self batch_indices = Ok b →
  ∀ i k, batch_indices !! i = Some k →
    ∃ tr, Agent.row self k = Some tr ∧
          Agent.states_batch b !! i = Some (Agent.tr_state tr) ∧
          Agent.actions_batch b !! i = Some (Agent.tr_action tr) ∧
          Agent.rewards_batch b !! i = Some (Agent.tr_reward tr) ∧
          Agent.new_states_batch b !! i = Some (Agent.tr_new_state tr) ∧
          Agent.terminal_batch b !! i = Some (Agent.tr_done tr).
Proof.
  unfold Agent.sample. intros Hs.
  apply bind_Ok in Hs as (states & Hstates & Hs).
  apply bind_Ok in Hs as (actions & Hactions & Hs).
  apply bind_Ok in Hs as (rewards & Hrewards & Hs).
  apply bind_Ok in Hs as (new_states & Hnew & Hs).
  apply bind_Ok in Hs as (terminal & Hterminal & Hs).
  injection Hs as <-. simpl. intros i k Hi.
  apply take_rows_lookup in Hstates as [_ Hstates].
  apply take_rows_lookup in Hactions as [_ Hactions].
  apply take_rows_lookup in Hrewards as [_ Hrewards].
  apply take_rows_lookup in Hnew as [_ Hnew].
  apply take_rows_lookup in Hterminal as [_ Hterminal].
  destruct (Hstates i k Hi) as (s & Hs1 & Hs2).
  destruct (Hactions i k Hi) as (a & Ha1 & Ha2).
  destruct (Hrewards i k Hi) as (r & Hr1 & Hr2).
  destruct (Hnew i k Hi) as (s' & Hn1 & Hn2).
  destruct (Hterminal i k Hi) as (d & Hd1 & Hd2).
  exists (Agent.Transition s a r s' d). unfold Agent.row.
  rewrite Hs1, Ha1, Hr1, Hn1, Hd1. done.
Qed.

Lemma lookup_map {A B : Type} (f : A → B) (l : list A) (i : nat) :
  map f l !! i = f <$> l !! i.
Proof. revert i. induction l as [|x l IH]; intros [|i]; simpl; auto. Qed.

Lemma zero_rows_lookup (mask : list bool) (t : tensor (list (list Q))) (i : nat)
  (m : bool) (row : list Q) :
  mask !! i = Some m → data t !! i = Some row →
  data (zero_rows mask t) !! i = Some (if m then map (fun _ => 0%Q) row else row).
Proof. intros Hm Hrow. simpl. by rewrite lookup_zip_with, Hm, Hrow. Qed.

Lemma zero_entries_lookup (mask : list bool) (t : tensor (list Q)) (i : nat)
  (m : bool) (x : Q) :
  mask !! i = Some m → data t !! i = Some x →
  data (zero_entries mask t) !! i = Some (if m then 0%Q else x).
Proof. intros Hm Hx. simpl. by rewrite lookup_zip_with, Hm, Hx. Qed.

Lemma zero_squeezed_lookup (mask : list bool) (t z : tensor (list Q)) :
  zero_squeezed mask (squeeze t) = Ok z →
  requires_grad z = requires_grad t ∧
  length (data t) ≠ 1%nat ∧
  ∀ (i : nat) (m : bool) (x : Q), mask !! i = Some m → data t !! i = Some x →
    data z !! i = Some (if m then 0%Q else x).
Proof.
  unfold zero_squeezed, squeeze. simpl.
  destruct (data t) as [|x0 [|x1 xs]] eqn:E; try discriminate; intros [= <-];
    (split_and!; [done | simpl; lia |]);
    intros i m x Hm Hx; simpl; by rewrite lookup_zip_with, Hm, Hx.
Qed.

Lemma td_target_lookup (rewards : list Q) (gamma : Q) (t : tensor (list Q)) (i : nat)
  (r x : Q) :
  rewards !! i = Some r → data t !! i = Some x →
  data (td_target rewards gamma t) !! i = Some (r + gamma * x)%Q.
Proof. intros Hr Hx. simpl. by rewrite lookup_zip_with, Hr, Hx. Qed.

Lemma soft_update_params_lookup (t_weight : Q) (target : list Q) :
  ∀ (online : list Q),
    length (soft_update_params t_weight target online) = length target ∧
    ∀ i target_param param, target !! i = Some target_param → online !! i = Some param →
      soft_update_params t_weight target online !! i
      = Some (t_weight * param + (1 - t_weight) * target_param)%Q.
Proof.
  induction target as [|t0 target IH]; intros online.
  - split; [done |]. intros i ? ? Hi. discriminate Hi.
  - destruct online as [|p0 online].
    + split; [done |]. intros i ? ? _ Hi. discriminate Hi.
    + destruct (IH online) as [Hlen Hl]. split; [simpl; lia |].
      intros [|i] target_param param Ht Hp; simpl in *.
      * by injection Ht as <-; injection Hp as <-.
      * eauto.
Qed.

(** Inversion of a [learn] that returned: every bind succeeded, the
    modulo did not divide by zero. *)
Ltac learn_inv H :=
  repeat first
    [ apply bind_Ok in H as (? & ? & H)
    | match type of H with
      | (if ?c then _ else _) = Ok _ => destruct c eqn:?; [discriminate H |]
      | (let '(_, _) := ?p in _) = Ok _ => destruct p eqn:?
      end
    | progress cbv zeta in H ].

Ltac use_draw :=
  match goal with
  | Hc : random_choice _ _ ?drawn = Ok ?x |- _ =>
      let Hb := fresh "Hbatch" in
      apply random_choice_Ok in Hc as [-> Hb]
  end.

Section Learning.
Context `{Approximators obs}.

Lemma q_apply_lookup (grad_enabled : bool) (params : list Q) (batch : list obs)
  (i : nat) (s : obs) :
  batch !! i = Some s →
  data (q_apply grad_enabled params batch) !! i = Some (q_forward params s).
Proof. intros Hs. simpl. by rewrite lookup_map, Hs. Qed.

Lemma v_apply_lookup (grad_enabled : bool) (params : list Q) (batch : list obs)
  (i : nat) (s : obs) :
  batch !! i = Some s →
  data (v_apply grad_enabled params batch) !! i = Some (v_forward params s).
Proof. intros Hs. simpl. by rewrite lookup_map, Hs. Qed.

(** C6.  In a DQN learning step the TD target of every sampled row whose
    terminal flag is true is [r + gamma * 0], which equals the reward [r],
    whatever the target network estimates at the next state. *)
Theorem dqn_terminal_target (self self' : DQNAgent.t obs) (drawn : list nat)
  (trace : list loss_call) :
  (Agent.mem_counter (DQNAgent.super self) <? DQNAgent.burn_in_period self) = false →
  DQNAgent.learn_trace self drawn = Ok (self', trace) →
  ∃ q_action_taken q_target,
    trace = [LossCall q_action_taken q_target] ∧
    ∀ i k tr,
      drawn !! i = Some k → Agent.row (DQNAgent.super self) k = Some tr →
      Agent.tr_done tr = true →
      ∃ y, data q_target !! i = Some y ∧
           y = (Agent.tr_reward tr + DQNAgent.gamma self * 0)%Q ∧
           (y == Agent.tr_reward tr)%Q.
Proof.
  intros Hguard Hl. unfold DQNAgent.learn_trace in Hl. rewrite Hguard in Hl.
  learn_inv Hl. use_draw. injection Hl as <- <-.
  eexists _, _. split; [reflexivity |].
  intros i k tr Hi Hrow Hdone.
  match goal with Hs : Agent.sample _ _ = Ok ?b |- _ =>
    destruct (sample_rows _ _ _ Hs i k Hi) as (tr' & Hrow' & _ & _ & Hr & Hs' & Hd)
  end.
  assert (tr' = tr) as -> by congruence. rewrite Hdone in Hd.
  match goal with Hm : max_dim1 _ = Ok _ |- _ =>
    apply max_dim1_lookup in Hm as (_ & _ & Hm);
    destruct (Hm i _ (zero_rows_lookup _ _ i _ _ Hd (q_apply_lookup _ _ _ i _ Hs')))
      as (a & x & Hmax & Hx)
  end.
  destruct (q_forward (DQNAgent.q_target_network self) (Agent.tr_new_state tr))
    as [|q0 row] eqn:Erow; [discriminate Hmax |].
  rewrite row_max_zeros in Hmax by done. injection Hmax as <- <-.
  eexists. split; [by apply td_target_lookup |]. split; [done | ring].
Qed.

(** C2.  In a double-DQN learning step the TD target of every sampled
    non-terminal row is [r + gamma * Q_target(s', a)], where [a] is the
    first index of the maximum of the online network's estimates at
    [s'], whatever the target network's own maximum is; the target is
    computed without gradient tracking. *)
Theorem ddqn_target_online_argmax (self self' : DDQNAgent.t obs) (drawn : list nat)
  (trace : list loss_call) :
  (Agent.mem_counter (DDQNAgent.super self) <? DDQNAgent.burn_in_period self) = false →
  DDQNAgent.learn_trace self drawn = Ok (self', trace) →
  ∃ q_action_taken target,
    trace = [LossCall q_action_taken target] ∧
    requires_grad target = false ∧
    ∀ i k tr,
      drawn !! i = Some k → Agent.row (DDQNAgent.super self) k = Some tr →
      Agent.tr_done tr = false →
      ∃ a q_online q_eval,
        first_argmax (q_forward (DDQNAgent.q_network self) (Agent.tr_new_state tr))
          a q_online ∧
        q_forward (DDQNAgent.q_target_network self) (Agent.tr_new_state tr) !! a
          = Some q_eval ∧
        data target !! i = Some (Agent.tr_reward tr + DDQNAgent.gamma self * q_eval)%Q.
Proof.
  intros Hguard Hl. unfold DDQNAgent.learn_trace in Hl. rewrite Hguard in Hl.
  learn_inv Hl. use_draw. injection Hl as <- <-.
  match goal with Hg : gather_dim1 _ _ = Ok _ |- _ =>
    apply gather_dim1_lookup in Hg as (Hgrad & _ & Hgather)
  end.
  match goal with Ha : argmax_dim1 _ = Ok _ |- _ =>
    apply argmax_dim1_lookup in Ha as (_ & Hargmax)
  end.
  eexists _, _. split; [reflexivity |]. split; [exact Hgrad |].
  intros i k tr Hi Hrow Hdone.
  match goal with Hs : Agent.sample _ _ = Ok ?b |- _ =>
    destruct (sample_rows _ _ _ Hs i k Hi) as (tr' & Hrow' & _ & _ & Hr & Hs' & Hd)
  end.
  assert (tr' = tr) as -> by congruence. rewrite Hdone in Hd.
  destruct (Hargmax i _ (zero_rows_lookup _ _ i _ _ Hd (q_apply_lookup _ _ _ i _ Hs')))
    as (a & q_online & Hmax & Ha).
  destruct (Hgather i _ a (zero_rows_lookup _ _ i _ _ Hd (q_apply_lookup _ _ _ i _ Hs')) Ha)
    as (q_eval & Heval & Hx).
  exists a, q_online, q_eval. split_and!.
  - by apply row_max_spec.
  - done.
  - by apply td_target_lookup.
Qed.
End Learning.

(** ** One call of [learn], for the four variants *)

Section Steps.
Context `{Approximators obs}.
Implicit Types (ag : agent obs) (drawn : list nat) (trace : list loss_call).

Lemma learn_is_learn_trace ag drawn : learn ag drawn = fst <$> learn_trace ag drawn.
Proof.
  destruct ag as [self|self|self|self]; simpl;
    [unfold DQNAgent.learn; destruct (DQNAgent.learn_trace self drawn) as [[? ?]|]
    |unfold DDQNAgent.learn; destruct (DDQNAgent.learn_trace self drawn) as [[? ?]|]
    |unfold DQVAgent.learn; destruct (DQVAgent.learn_trace self drawn) as [[? ?]|]
    |unfold DQVMaxAgent.learn; destruct (DQVMaxAgent.learn_trace self drawn) as [[? ?]|]];
    done.
Qed.

Lemma learn_Ok ag drawn ag' :
  learn ag drawn = Ok ag' ↔ ∃ trace, learn_trace ag drawn = Ok (ag', trace).
Proof.
  rewrite learn_is_learn_trace. split.
  - intros Hl. apply fmap_Ok in Hl as ([ag'' trace] & Hl & ->). eauto.
  - intros [trace ->]. done.
Qed.

(** Under the burn-in guard [learn] returns at once. *)
Lemma learn_guarded ag drawn :
  burn_in_guard ag = true → learn_trace ag drawn = Ok (ag, []).
Proof.
  unfold burn_in_guard. destruct ag as [self|self|self|self]; simpl; intros Hguard;
    [unfold DQNAgent.learn_trace | unfold DDQNAgent.learn_trace
    |unfold DQVAgent.learn_trace | unfold DQVMaxAgent.learn_trace];
    by rewrite Hguard.
Qed.

(** Past the guard, a [learn] that returns has completed one learning
    step: the memory and the hyperparameters are as before, the step
    counter has advanced by one, the exploration rate has decayed and
    the target network is synchronised when the counter says so. *)
Lemma learn_step ag ag' drawn trace :
  burn_in_guard ag = false → learn_trace ag drawn = Ok (ag', trace) →
  memory ag' = memory ag ∧
  learn_step_counter ag' = learn_step_counter ag + 1 ∧
  target_update_frequency ag ≠ 0 ∧
  (epsilon_min ag' = epsilon_min ag ∧ epsilon_decay ag' = epsilon_decay ag ∧
   burn_in_period ag' = burn_in_period ag ∧
   target_update_frequency ag' = target_update_frequency ag ∧
   soft_weight ag' = soft_weight ag ∧
   conditional_decay ag' = conditional_decay ag) ∧
  trace ≠ [] ∧
  epsilon ag' =
    (if conditional_decay ag
     then if Qgtb (epsilon ag) (epsilon_min ag)
          then (epsilon ag * epsilon_decay ag)%Q
          else epsilon_min ag
     else match ag with
          | DDQN _ => py_max (epsilon ag * epsilon_decay ag)%Q (epsilon_min ag)
          | _ => py_max (epsilon_min ag) (epsilon ag * epsilon_decay ag)%Q
          end) ∧
  target_network ag' =
    (if (learn_step_counter ag + 1) mod target_update_frequency ag =? 0
     then match soft_weight ag with
          | Some t_weight =>
              soft_update_params t_weight (target_network ag) (online_network ag')
          | None => online_network ag'
          end
     else target_network ag).
Proof.
  unfold burn_in_guard.
  destruct ag as [self|self|self|self]; simpl; intros Hguard Hl;
    apply fmap_Ok in Hl as ([self' trace'] & Hl & [= -> ->]);
    [unfold DQNAgent.learn_trace in Hl | unfold DDQNAgent.learn_trace in Hl
    |unfold DQVAgent.learn_trace in Hl | unfold DQVMaxAgent.learn_trace in Hl];
    rewrite Hguard in Hl; learn_inv Hl; injection Hl as <- <-; simpl;
    (split_and!; [done | done | lia | done | done | done | done | done
                 | | done | done | ]); try done.
  simpl. by destruct (DDQNAgent.soft_update self).
Qed.
End Steps.

(** ** The two-network rules *)

Section TwoNetworks.
Context `{Approximators obs}.

(** C7, as the code has it.  In DQV both losses of one [learn] call are
    computed against the same target, evaluated once without gradient
    tracking on the target V-network of before the call.  In DQV-Max the
    two losses have two targets: the V-target [r + gamma * (1 - terminal)
    * max_a Q_target(s', a)] of before the call, and the Q-target
    [r + gamma * (1 - terminal) * V(s')] evaluated, without gradient
    tracking, on the V-network as the first update of the same call
    left it. *)
Theorem two_network_targets :
  (∀ (self self' : DQVAgent.t obs) (drawn : list nat) (trace : list loss_call),
     (Agent.mem_counter (DQVAgent.super self) <? DQVAgent.burn_in_period self) = false →
     DQVAgent.learn_trace self drawn = Ok (self', trace) →
     ∃ b target_dqv v_s q_action_taken,
       Agent.sample (DQVAgent.super self) drawn = Ok b ∧
       trace = [LossCall target_dqv v_s; LossCall target_dqv q_action_taken] ∧
       requires_grad target_dqv = false ∧
       (DQVAgent.v_optimizer self', DQVAgent.v_network self')
         = v_step (DQVAgent.v_optimizer self) (DQVAgent.v_network self)
             (Agent.states_batch b) (data target_dqv) ∧
       (DQVAgent.q_optimizer self', DQVAgent.q_network self')
         = q_step (DQVAgent.q_optimizer self) (DQVAgent.q_network self)
             (Agent.states_batch b) (Agent.actions_batch b) (data target_dqv) ∧
       ∀ i k tr,
         drawn !! i = Some k → Agent.row (DQVAgent.super self) k = Some tr →
         data target_dqv !! i
         = Some (Agent.tr_reward tr + DQVAgent.gamma self *
                   (if Agent.tr_done tr then 0
                    else v_forward (DQVAgent.target_v_network self)
                           (Agent.tr_new_state tr)))%Q) ∧
  (∀ (self self' : DQVMaxAgent.t obs) (drawn : list nat) (trace : list loss_call),
     (Agent.mem_counter (DQVMaxAgent.super self) <? DQVMaxAgent.burn_in_period self)
       = false →
     DQVMaxAgent.learn_trace self drawn = Ok (self', trace) →
     ∃ b v_target q_target v_s q_action_taken,
       Agent.sample (DQVMaxAgent.super self) drawn = Ok b ∧
       trace = [LossCall v_target v_s; LossCall q_target q_action_taken] ∧
       requires_grad v_target = false ∧
       requires_grad q_target = false ∧
       (DQVMaxAgent.v_optimizer self', DQVMaxAgent.v_network self')
         = v_step (DQVMaxAgent.v_optimizer self) (DQVMaxAgent.v_network self)
             (Agent.states_batch b) (data v_target) ∧
       (DQVMaxAgent.q_optimizer self', DQVMaxAgent.q_network self')
         = q_step (DQVMaxAgent.q_optimizer self) (DQVMaxAgent.q_network self)
             (Agent.states_batch b) (Agent.actions_batch b) (data q_target) ∧
       ∀ i k tr,
         drawn !! i = Some k → Agent.row (DQVMaxAgent.super self) k = Some tr →
         (∃ a q_max,
            first_argmax (q_forward (DQVMaxAgent.target_q_network self)
                            (Agent.tr_new_state tr)) a q_max ∧
            data v_target !! i
            = Some (Agent.tr_reward tr + DQVMaxAgent.gamma self *
                      (if Agent.tr_done tr then 0 else q_max))%Q) ∧
         data q_target !! i
         = Some (Agent.tr_reward tr + DQVMaxAgent.gamma self *
                   (if Agent.tr_done tr then 0
                    else v_forward (DQVMaxAgent.v_network self')
                           (Agent.tr_new_state tr)))%Q).
Proof.
  split.
  - intros self self' drawn trace Hguard Hl.
    unfold DQVAgent.learn_trace in Hl. rewrite Hguard in Hl.
    learn_inv Hl. use_draw. injection Hl as <- <-. simpl.
    match goal with Hz : zero_squeezed _ _ = Ok _ |- _ =>
      apply zero_squeezed_lookup in Hz as (Hgrad & _ & Hzero)
    end.
    eexists _, _, _, _.
    split_and!; [eassumption | reflexivity | exact Hgrad | done | done |].
    intros i k tr Hi Hrow.
    match goal with Hs : Agent.sample _ _ = Ok ?b |- _ =>
      destruct (sample_rows _ _ _ Hs i k Hi) as (tr' & Hrow' & _ & _ & Hr & Hs' & Hd)
    end.
    assert (tr' = tr) as -> by congruence.
    apply td_target_lookup; [done |].
    apply Hzero; [done |]. by apply v_apply_lookup.
  - intros self self' drawn trace Hguard Hl.
    unfold DQVMaxAgent.learn_trace in Hl. rewrite Hguard in Hl.
    learn_inv Hl. use_draw. injection Hl as <- <-. simpl.
    match goal with Hz : zero_squeezed _ _ = Ok _ |- _ =>
      apply zero_squeezed_lookup in Hz as (Hgrad & _ & Hzero)
    end.
    match goal with Hm : max_dim1 _ = Ok _ |- _ =>
      apply max_dim1_lookup in Hm as (Hgrad' & _ & Hmaxes)
    end.
    eexists _, _, _, _, _.
    split_and!; [eassumption | reflexivity | exact Hgrad' | exact Hgrad | done | done |].
    intros i k tr Hi Hrow.
    match goal with Hs : Agent.sample _ _ = Ok ?b |- _ =>
      destruct (sample_rows _ _ _ Hs i k Hi) as (tr' & Hrow' & _ & _ & Hr & Hs' & Hd)
    end.
    assert (tr' = tr) as -> by congruence. split.
    + destruct (Hmaxes i _ (q_apply_lookup _ _ _ i _ Hs')) as (a & q_max & Hmax & Hx).
      exists a, q_max. split; [by apply row_max_spec |].
      apply td_target_lookup; [done |]. by apply zero_entries_lookup.
    + apply td_target_lookup; [done |].
      apply Hzero; [done |]. by apply v_apply_lookup.
Qed.
End TwoNetworks.

(** ** Burn-in guard, target synchronisation and exploration rate *)

Section Claims.
Context `{Approximators obs}.
Implicit Types (ag : agent obs) (drawn : list nat).

(** C8.  While the burn-in guard is active, [learn] makes no [loss_fn]
    call and returns the agent it was given: exploration rate, step
    counter, memory and write counter, networks and optimizers are all
    what they were.  Past the guard, a [learn] that returns has made at
    least one [loss_fn] call and completed one learning step. *)
Theorem learn_noop_or_full_step ag drawn :
  (burn_in_guard ag = true →
   learn ag drawn = Ok ag ∧ learn_trace ag drawn = Ok (ag, [])) ∧
  (burn_in_guard ag = false →
   ∀ ag', learn ag drawn = Ok ag' →
     learn_step_counter ag' = learn_step_counter ag + 1 ∧
     memory ag' = memory ag ∧
     ∃ call trace, learn_trace ag drawn = Ok (ag', call :: trace)).
Proof.
  split.
  - intros Hguard. rewrite learn_is_learn_trace, (learn_guarded ag drawn Hguard). done.
  - intros Hguard ag' Hl. apply learn_Ok in Hl as [trace Hl].
    destruct (learn_step ag ag' drawn trace Hguard Hl)
      as (Hmem & Hcnt & _ & _ & Htrace & _).
    split_and!; [done | done |].
    destruct trace as [|call trace]; [done | eauto].
Qed.

(** C5, as the code has it.  [learn] returns at once, as a no-op, exactly
    when the write counter [C] is below [burn_in_period]; the capacity
    plays no part in the guard.  Once [C] has reached [burn_in_period],
    whatever the capacity, a [learn] that returns is no no-op: it has
    called [loss_fn] and advanced the step counter by one. *)
Theorem learn_noop_iff_counter_below_burn_in ag drawn :
  (learn ag drawn = Ok ag ↔ Agent.mem_counter (memory ag) < burn_in_period ag) ∧
  (learn_trace ag drawn = Ok (ag, []) ↔
   Agent.mem_counter (memory ag) < burn_in_period ag) ∧
  (burn_in_period ag ≤ Agent.mem_counter (memory ag) →
   ∀ ag', learn ag drawn = Ok ag' →
     learn_step_counter ag' = learn_step_counter ag + 1 ∧
     ∃ loss trace, learn_trace ag drawn = Ok (ag', loss :: trace)).
Proof.
  assert (burn_in_guard ag = true ↔ Agent.mem_counter (memory ag) < burn_in_period ag)
    as Hiff by (unfold burn_in_guard; apply Z.ltb_lt).
  split_and!; [rewrite <- Hiff; split | rewrite <- Hiff; split |].
  - intros Hl. destruct (burn_in_guard ag) eqn:Hguard; [done |].
    apply learn_Ok in Hl as [trace Hl].
    destruct (learn_step ag ag drawn trace Hguard Hl) as (_ & Hcnt & _). lia.
  - intros Hguard. rewrite learn_is_learn_trace, (learn_guarded ag drawn Hguard). done.
  - intros Hl. destruct (burn_in_guard ag) eqn:Hguard; [done |].
    destruct (learn_step ag ag drawn [] Hguard Hl) as (_ & _ & _ & _ & Htrace & _). done.
  - apply learn_guarded.
  - intros Hreached ag' Hl.
    assert (burn_in_guard ag = false) as Hguard.
    { apply not_true_iff_false. rewrite Hiff. lia. }
    apply learn_Ok in Hl as [trace Hl].
    destruct (learn_step ag ag' drawn trace Hguard Hl) as (_ & Hcnt & _ & _ & Htrace & _).
    split; [done |]. destruct trace as [|loss trace]; [done | eauto].
Qed.

(** Every constructor starts the step counter at zero. *)
Lemma constructed_counter ag : constructed ag → learn_step_counter ag = 0.
Proof.
  intros [? ? ? ? ? ? self Hinit | ? ? ? ? ? ? ? ? self Hinit
         | ? ? ? ? ? ? ? self Hinit | ? ? ? ? ? ? ? self Hinit]; simpl;
    [unfold DQNAgent.init in Hinit | unfold DDQNAgent.init in Hinit
    |unfold DQVAgent.init in Hinit | unfold DQVMaxAgent.init in Hinit];
    apply bind_Ok in Hinit as (super & _ & Hinit); by injection Hinit as <-.
Qed.

Lemma store_transition_counter ag (state : obs) (action : Z) (reward : Q)
  (new_state : obs) (done : bool) ag' :
  store_transition ag state action reward new_state done = Ok ag' →
  learn_step_counter ag' = learn_step_counter ag.
Proof.
  unfold store_transition. intros Hs. apply fmap_Ok in Hs as (m & _ & ->).
  by destruct ag.
Qed.

(** The step counter counts the completed learning steps of any
    sequence of calls. *)
Lemma run_counts (calls : list (method_call obs)) :
  ∀ ag ag' n, run ag calls = Ok (ag', n) →
    learn_step_counter ag' = learn_step_counter ag + n.
Proof.
  induction calls as [|[tr|drawn] calls IH]; intros ag ag' n Hr; simpl in Hr.
  - injection Hr as <- <-. lia.
  - apply bind_Ok in Hr as (ag1 & Hs & Hr). rewrite (IH _ _ _ Hr).
    by rewrite (store_transition_counter _ _ _ _ _ _ _ Hs).
  - apply bind_Ok in Hr as (ag1 & Hl & Hr).
    apply bind_Ok in Hr as ([ag2 k] & Hrest & Hr). injection Hr as <- <-.
    simpl. rewrite (IH _ _ _ Hrest).
    destruct (burn_in_guard ag) eqn:Hguard.
    + rewrite learn_is_learn_trace, (learn_guarded ag drawn Hguard) in Hl.
      injection Hl as <-. lia.
    + apply learn_Ok in Hl as [trace Hl].
      destruct (learn_step ag ag1 drawn trace Hguard Hl) as (_ & Hcnt & _). lia.
Qed.

(** Past the guard, the online network that a [learn] leaves is the one
    its optimizer step computed, on the sampled batch and for the target
    of its loss. *)
Lemma learn_steps_online ag ag' drawn (trace : list loss_call) :
  burn_in_guard ag = false → learn_trace ag drawn = Ok (ag', trace) →
  ∃ b, Agent.sample (memory ag) drawn = Ok b ∧
       stepped_online ag b trace = Some (online_network ag').
Proof.
  unfold burn_in_guard.
  destruct ag as [self|self|self|self]; simpl; intros Hguard Hl;
    apply fmap_Ok in Hl as ([self' trace'] & Hl & [= -> ->]);
    [unfold DQNAgent.learn_trace in Hl | unfold DDQNAgent.learn_trace in Hl
    |unfold DQVAgent.learn_trace in Hl | unfold DQVMaxAgent.learn_trace in Hl];
    rewrite Hguard in Hl; learn_inv Hl; use_draw; injection Hl as <- <-;
    (eexists; split; [eassumption |]);
    first
      [ match goal with Hq : q_step ?a ?b ?c ?d ?e = (?o, ?l) |- _ =>
          change (Some (snd (q_step a b c d e)) = Some l); by rewrite Hq
        end
      | match goal with Hv : v_step ?a ?b ?c ?d = (?o, ?l) |- _ =>
          change (Some (snd (v_step a b c d)) = Some l); by rewrite Hv
        end ].
Qed.

(** C4.  Take an agent as its constructor returns it and any sequence of
    [store_transition] and [learn] calls on it, [n] of which completed
    a learning step.  A [learn] that then runs past the burn-in guard
    and returns has completed step [n + 1]: the step counter, which had
    counted [n], is [n + 1], and the online network is the one that the
    optimizer step of this call computed.  When [n + 1] is a multiple of
    [target_update_frequency], the target network afterwards equals this
    online network in hard mode (DQN, double DQN without [soft_update],
    the target V of DQV, the target Q of DQV-Max), and in double DQN's
    soft mode every target parameter is
    [t_weight * online + (1 - t_weight) * old target].  Otherwise the
    target network is unchanged. *)
Theorem target_network_sync ag0 (calls : list (method_call obs)) ag (n : Z) drawn ag'
  (trace : list loss_call) :
  constructed ag0 →
  run ag0 calls = Ok (ag, n) →
  burn_in_guard ag = false →
  learn_trace ag drawn = Ok (ag', trace) →
  learn_step_counter ag = n ∧
  learn_step_counter ag' = n + 1 ∧
  (∃ b, Agent.sample (memory ag) drawn = Ok b ∧
        stepped_online ag b trace = Some (online_network ag')) ∧
  ((n + 1) mod target_update_frequency ag = 0 →
   match soft_weight ag with
   | None => target_network ag' = online_network ag'
   | Some t_weight =>
       length (target_network ag') = length (target_network ag) ∧
       ∀ i target_param param,
         target_network ag !! i = Some target_param →
         online_network ag' !! i = Some param →
         target_network ag' !! i
         = Some (t_weight * param + (1 - t_weight) * target_param)%Q
   end) ∧
  ((n + 1) mod target_update_frequency ag ≠ 0 →
   target_network ag' = target_network ag).
Proof.
  intros Hconstructed Hrun Hguard Hl.
  assert (learn_step_counter ag = n) as Hn.
  { rewrite (run_counts calls ag0 ag n Hrun), (constructed_counter ag0 Hconstructed). lia. }
  destruct (learn_step ag ag' drawn trace Hguard Hl)
    as (_ & Hcnt & _ & _ & _ & _ & Htarget).
  rewrite Hn in Hcnt, Htarget.
  split_and!; [done | done | by apply learn_steps_online | |]; intros Hmod; rewrite Htarget.
  - apply Z.eqb_eq in Hmod as ->.
    destruct (soft_weight ag) as [t_weight|]; [| done].
    apply soft_update_params_lookup.
  - by apply Z.eqb_neq in Hmod as ->.
Qed.

(** X17.  The step counter counts the completed learning steps: after
    any number of [learn] calls that returned past the burn-in guard it
    has grown by exactly that number, and the guard is still inactive. *)
Lemma learn_all_counts ag (draws : list (list nat)) :
  ∀ ag', burn_in_guard ag = false → learn_all ag draws = Ok ag' →
    learn_step_counter ag' = learn_step_counter ag + Z.of_nat (length draws) ∧
    burn_in_guard ag' = false.
Proof.
  revert ag. induction draws as [|drawn draws IH]; intros ag ag' Hguard Hl; simpl in Hl.
  - injection Hl as <-. split; [simpl; lia | done].
  - apply bind_Ok in Hl as (ag1 & Hl1 & Hl). apply learn_Ok in Hl1 as [trace Hl1].
    destruct (learn_step ag ag1 drawn trace Hguard Hl1)
      as (Hmem & Hcnt & _ & (_ & _ & Hburn & _) & _).
    assert (burn_in_guard ag1 = false) as Hguard1.
    { unfold burn_in_guard in *. by rewrite Hmem, Hburn. }
    destruct (IH ag1 ag' Hguard1 Hl) as [Hcnt' Hguard'].
    split; [simpl length; lia | done].
Qed.

(** The three classes that clamp with [max]: a completed learning step
    leaves the exploration rate at or above [epsilon_min], and does not
    raise it. *)
Lemma max_decay_step ag ag' drawn :
  conditional_decay ag = false → burn_in_guard ag = false →
  learn ag drawn = Ok ag' →
  (epsilon_min ag <= epsilon ag')%Q ∧
  ((epsilon_min ag <= epsilon ag)%Q → (0 <= epsilon ag)%Q →
   (epsilon_decay ag <= 1)%Q → (epsilon ag' <= epsilon ag)%Q).
Proof.
  intros Hmax Hguard Hl. apply learn_Ok in Hl as [trace Hl].
  destruct (learn_step ag ag' drawn trace Hguard Hl)
    as (_ & _ & _ & _ & _ & Heps & _).
  rewrite Hmax in Heps. rewrite Heps.
  assert ((epsilon_min ag <= epsilon ag)%Q → (0 <= epsilon ag)%Q →
          (epsilon_decay ag <= 1)%Q →
          (epsilon ag * epsilon_decay ag <= epsilon ag)%Q) as Hmul by (intros; nra).
  destruct ag as [self|self|self|self]; [done | | |];
    match goal with |- context [py_max ?a ?b] =>
      destruct (py_max_spec a b) as (Ha & Hb & Hcase)
    end; (split; [done |]); intros H1 H2 H3; specialize (Hmul H1 H2 H3);
    destruct Hcase as [-> | ->]; done.
Qed.

(** X19.  The conditional of [DQNAgent] tests the exploration rate
    before it multiplies: a rate above the floor whose product with the
    decay is below the floor ends below the floor. *)
Lemma conditional_decay_undershoots ag ag' drawn :
  conditional_decay ag = true → burn_in_guard ag = false →
  learn ag drawn = Ok ag' →
  (epsilon_min ag < epsilon ag)%Q →
  (epsilon ag * epsilon_decay ag < epsilon_min ag)%Q →
  (epsilon ag' < epsilon_min ag)%Q.
Proof.
  intros Hcond Hguard Hl Habove Hbelow. apply learn_Ok in Hl as [trace Hl].
  destruct (learn_step ag ag' drawn trace Hguard Hl)
    as (_ & _ & _ & _ & _ & Heps & _).
  rewrite Hcond in Heps. apply Qgtb_true in Habove. by rewrite Heps, Habove.
Qed.

(** X18.  With a floor that is not negative, a start at or above the
    floor and a decay of at most one, the exploration rates of the three
    classes that clamp with [max] never increase and never fall below
    the floor, over any sequence of completed learning steps. *)
Lemma max_decay_sequence ag (draws : list (list nat)) :
  ∀ eps,
    conditional_decay ag = false → burn_in_guard ag = false →
    (0 <= epsilon_min ag)%Q → (epsilon_min ag <= epsilon ag)%Q →
    (epsilon_decay ag <= 1)%Q →
    learn_epsilons ag draws = Ok eps →
    non_increasing_above (epsilon_min ag) (epsilon ag :: eps).
Proof.
  revert ag. induction draws as [|drawn draws IH];
    intros ag eps Hmax Hguard Hfloor Hstart Hdecay Hl; simpl in Hl.
  - injection Hl as <-. intros [|i] x y Hx Hy; discriminate Hy.
  - apply bind_Ok in Hl as (ag1 & Hl1 & Hl). apply bind_Ok in Hl as (eps1 & Heps1 & Hl).
    injection Hl as <-.
    destruct (max_decay_step ag ag1 drawn Hmax Hguard Hl1) as [Hge Hle].
    apply learn_Ok in Hl1 as [trace Hl1].
    destruct (learn_step ag ag1 drawn trace Hguard Hl1)
      as (Hmem & _ & _ & (Hmin & Hdec & Hburn & _ & _ & Hcond) & _).
    assert (burn_in_guard ag1 = false) as Hguard1.
    { unfold burn_in_guard in *. by rewrite Hmem, Hburn. }
    assert (non_increasing_above (epsilon_min ag1) (epsilon ag1 :: eps1)) as Hrest.
    { apply IH; rewrite ?Hmin, ?Hdec, ?Hcond; done. }
    rewrite Hmin in Hrest.
    intros [|i] x y Hx Hy; simpl in Hx, Hy.
    + injection Hx as <-. injection Hy as <-. split; [apply Hle; lra | done].
    + by apply (Hrest i).
Qed.
End Claims.

(** ** Construction *)

Section Construction.
Context `{Approximators obs}.

(** [DQNAgent], [DQVAgent] and [DQVMaxAgent] load the online parameters
    into the target they have just created. *)
Lemma init_copies_online_into_target (memory_size : Z) (zero_state : obs)
  (n_actions : Z) (fresh1 fresh2 fresh3 : list Q) (kw : kwargs) :
  (∀ self, DQNAgent.init memory_size zero_state n_actions fresh1 fresh2 kw = Ok self →
     DQNAgent.q_target_network self = DQNAgent.q_network self) ∧
  (∀ self, DQVAgent.init memory_size zero_state n_actions fresh1 fresh2 fresh3 kw = Ok self →
     DQVAgent.target_v_network self = DQVAgent.v_network self) ∧
  (∀ self, DQVMaxAgent.init memory_size zero_state n_actions fresh1 fresh2 fresh3 kw
           = Ok self →
     DQVMaxAgent.target_q_network self = DQVMaxAgent.q_network self).
Proof.
  split_and!; intros self Hinit;
    [unfold DQNAgent.init in Hinit | unfold DQVAgent.init in Hinit
    |unfold DQVMaxAgent.init in Hinit];
    apply bind_Ok in Hinit as (super & _ & Hinit); by injection Hinit as <-.
Qed.

(** [DDQNAgent] keeps the two networks as [q_network_class] drew them. *)
Lemma ddqn_init_networks (memory_size : Z) (zero_state : obs) (n_actions : Z)
  (q_fresh q_target_fresh : list Q) (t_weight_start : option Q)
  (soft_update : option bool) (kw : kwargs) (self : DDQNAgent.t obs) :
  DDQNAgent.init memory_size zero_state n_actions q_fresh q_target_fresh
    t_weight_start soft_update kw = Ok self →
  DDQNAgent.q_network self = q_fresh ∧
  DDQNAgent.q_target_network self = q_target_fresh.
Proof.
  unfold DDQNAgent.init. intros Hinit.
  apply bind_Ok in Hinit as (super & _ & Hinit). by injection Hinit as <-.
Qed.

(** C9, as the code has it.  The constructor of the double-DQN agent does
    not inspect the interpolation weight: it never raises a
    configuration error, and with a non-negative memory size it
    succeeds for every weight and stores the weight and the soft-update
    flag as given. *)
Theorem ddqn_init_accepts_every_t_weight (memory_size : Z) (zero_state : obs)
  (n_actions : Z) (q_fresh q_target_fresh : list Q) (t_weight : Q) (soft : bool)
  (kw : kwargs) :
  0 ≤ memory_size →
  DDQNAgent.init memory_size zero_state n_actions q_fresh q_target_fresh
    (Some t_weight) (Some soft) kw ≠ Raise ConfigurationError ∧
  ∃ self,
    DDQNAgent.init memory_size zero_state n_actions q_fresh q_target_fresh
      (Some t_weight) (Some soft) kw = Ok self ∧
    DDQNAgent.t_weight self = t_weight ∧
    DDQNAgent.soft_update self = soft ∧
    soft_weight (DDQN self) = (if soft then Some t_weight else None).
Proof.
  intros HM. unfold DDQNAgent.init, Agent.init.
  destruct (memory_size <? 0) eqn:E; [lia |]. simpl.
  split; [discriminate |]. eexists. split; [reflexivity |]. done.
Qed.
End Construction.

(** ** The concrete instance *)

(** The agents of [Toy] are what construction and [store_transition]
    produce. *)
Lemma toy_agents_built :
  Toy.build_dqn 1 Toy.two = Ok Toy.dqn ∧
  Toy.build_ddqn false = Ok (Toy.ddqn false) ∧
  Toy.build_ddqn true = Ok (Toy.ddqn true) ∧
  Toy.build_dqv = Ok Toy.dqv ∧
  Toy.build_dqvmax = Ok Toy.dqvmax ∧
  Toy.build_dqn 1 [] = Ok Toy.early ∧
  Toy.build_dqn 3 Toy.three = Ok Toy.late.
Proof. split_and!; vm_compute; reflexivity. Qed.

(** The three classes that clamp with [max] reach the floor at the
    fourth step and stay there, on rationals and on binary64. *)
Lemma max_clamped_epsilon_scenario :
  learn_epsilons (Toy.ddqn false) (Toy.draws 5)
    = Ok [(1 # 2)%Q; (1 # 4)%Q; (1 # 8)%Q; (1 # 10)%Q; (1 # 10)%Q] ∧
  learn_epsilons Toy.dqv (Toy.draws 5)
    = Ok [(1 # 2)%Q; (1 # 4)%Q; (1 # 8)%Q; (1 # 10)%Q; (1 # 10)%Q] ∧
  learn_epsilons Toy.dqvmax (Toy.draws 5)
    = Ok [(1 # 2)%Q; (1 # 4)%Q; (1 # 8)%Q; (1 # 10)%Q; (1 # 10)%Q] ∧
  Binary64.iterate (fun e => Binary64.ddqn_decay e Binary64.tenth 0.5%float) 5 1%float
    = [0.5%float; 0.25%float; 0.125%float; Binary64.tenth; Binary64.tenth].
Proof. split_and!; vm_compute; reflexivity. Qed.

(** C1 on [DQNAgent.learn].  With [epsilon_start=1.0], [epsilon_min=0.1],
    [epsilon_decay=0.5] and the burn-in satisfied, five completed
    learning steps of the DQN agent leave the exploration rates 0.5,
    0.25, 0.125, 0.0625, 0.1: the fourth is below [epsilon_min] and the
    fifth is larger than the fourth.  The binary64 computation gives the
    same values. *)
Theorem dqn_epsilon_falls_below_epsilon_min :
  epsilon Toy.dqn = 1%Q ∧ epsilon_min Toy.dqn = (1 # 10)%Q ∧
  epsilon_decay Toy.dqn = (1 # 2)%Q ∧ burn_in_guard Toy.dqn = false ∧
  learn_epsilons Toy.dqn (Toy.draws 5)
    = Ok [(1 # 2)%Q; (1 # 4)%Q; (1 # 8)%Q; (1 # 16)%Q; (1 # 10)%Q] ∧
  ((1 # 16) < epsilon_min Toy.dqn)%Q ∧
  ((1 # 16) < (1 # 10))%Q ∧
  Binary64.iterate (fun e => Binary64.dqn_decay e Binary64.tenth 0.5%float) 5 1%float
    = [0.5%float; 0.25%float; 0.125%float; 0.0625%float; Binary64.tenth].
Proof. split_and!; vm_compute; reflexivity. Qed.

(** C10 on [DDQNAgent.__init__].  Constructed with a network class whose
    two calls draw different parameters, the double-DQN agent starts
    with a target network that differs from its online network. *)
Theorem ddqn_target_starts_independent :
  ∃ self,
    DDQNAgent.init 2 0 2 [0%Q; 1%Q] [5%Q; 3%Q] None None no_kwargs = Ok self ∧
    DDQNAgent.q_network self = [0%Q; 1%Q] ∧
    DDQNAgent.q_target_network self = [5%Q; 3%Q] ∧
    target_network (DDQN self) ≠ online_network (DDQN self).
Proof.
  eexists. split; [reflexivity |]. split_and!; [done | done | discriminate].
Qed.

(** C9 is not what the constructor does: a weight of 2 with soft update
    enabled is accepted. *)
Lemma ddqn_init_accepts_t_weight_two :
  ¬ (0 < 2 ∧ 2 < 1)%Q ∧
  DDQNAgent.init 2 0 2 [0%Q; 1%Q] [5%Q; 3%Q] (Some 2%Q) (Some true) (Toy.kw 1)
    ≠ Raise ConfigurationError ∧
  ∃ self,
    DDQNAgent.init 2 0 2 [0%Q; 1%Q] [5%Q; 3%Q] (Some 2%Q) (Some true) (Toy.kw 1)
      = Ok self ∧
    DDQNAgent.t_weight self = 2%Q ∧ DDQNAgent.soft_update self = true.
Proof.
  split_and!.
  - intros [_ Hlt]. vm_compute in Hlt. discriminate Hlt.
  - discriminate.
  - eexists. split; [reflexivity |]. done.
Qed.

Lemma ddqn_init_accepts_every_t_weight_witness :
  DDQNAgent.init 2 0 2 [0%Q; 1%Q] [5%Q; 3%Q] (Some 2%Q) (Some true) (Toy.kw 1)
    ≠ Raise ConfigurationError ∧
  ∃ self,
    DDQNAgent.init 2 0 2 [0%Q; 1%Q] [5%Q; 3%Q] (Some 2%Q) (Some true) (Toy.kw 1)
      = Ok self ∧
    DDQNAgent.t_weight self = 2%Q ∧
    DDQNAgent.soft_update self = true ∧
    soft_weight (DDQN self) = Some 2%Q.
Proof.
  apply (ddqn_init_accepts_every_t_weight 2 0 2 [0%Q; 1%Q] [5%Q; 3%Q] 2%Q true (Toy.kw 1)).
  lia.
Defined.

(** C5 is not what the guard tests: with capacity 2 and burn-in period 3,
    after three stored transitions the number of valid rows, 2, is below
    the burn-in period, yet [learn] completes a learning step. *)
Lemma learn_runs_with_fewer_valid_rows_than_burn_in :
  Z.min (Agent.mem_counter (memory Toy.late)) (Agent.memory_size (memory Toy.late))
    < burn_in_period Toy.late ∧
  ∃ ag', learn Toy.late [0%nat; 1%nat] = Ok ag' ∧
         learn_step_counter ag' = learn_step_counter Toy.late + 1 ∧
         ag' ≠ Toy.late.
Proof.
  split; [vm_compute; reflexivity |].
  eexists. split; [vm_compute; reflexivity |]. split; [reflexivity | discriminate].
Qed.

Lemma learn_noop_or_full_step_witness :
  learn Toy.early [0%nat; 1%nat] = Ok Toy.early ∧
  learn_trace Toy.early [0%nat; 1%nat] = Ok (Toy.early, []).
Proof.
  apply (proj1 (learn_noop_or_full_step Toy.early [0%nat; 1%nat])).
  reflexivity.
Defined.

(** In the concrete double-DQN agent the two networks disagree: at the
    next state 1 the online estimates are largest at action 1, the
    target's at action 0, and the target of the non-terminal row is
    built from the target's estimate 3 of action 1. *)
Lemma toy_networks_disagree :
  row_max (q_forward (DDQNAgent.q_network (Toy.ddqn_self false)) 1) = Ok (1%nat, 1%Q) ∧
  row_max (q_forward (DDQNAgent.q_target_network (Toy.ddqn_self false)) 1)
    = Ok (0%nat, 5%Q) ∧
  (fun r => map arg2 (snd r)) <$> DDQNAgent.learn_trace (Toy.ddqn_self false) [0%nat; 1%nat]
    = Ok [Tensor [4%Q; 2%Q] false].
Proof. split_and!; vm_compute; reflexivity. Qed.

Lemma ddqn_target_online_argmax_witness :
  ∃ self' trace,
    DDQNAgent.learn_trace (Toy.ddqn_self false) [0%nat; 1%nat] = Ok (self', trace) ∧
    ∃ q_action_taken target,
      trace = [LossCall q_action_taken target] ∧
      requires_grad target = false ∧
      ∀ i k tr,
        [0%nat; 1%nat] !! i = Some k →
        Agent.row (DDQNAgent.super (Toy.ddqn_self false)) k = Some tr →
        Agent.tr_done tr = false →
        ∃ a q_online q_eval,
          first_argmax (q_forward (DDQNAgent.q_network (Toy.ddqn_self false))
                          (Agent.tr_new_state tr)) a q_online ∧
          q_forward (DDQNAgent.q_target_network (Toy.ddqn_self false))
            (Agent.tr_new_state tr) !! a = Some q_eval ∧
          data target !! i
          = Some (Agent.tr_reward tr + DDQNAgent.gamma (Toy.ddqn_self false) * q_eval)%Q.
Proof.
  eexists _, _. split; [vm_compute; reflexivity |].
  eapply (ddqn_target_online_argmax (Toy.ddqn_self false) _ [0%nat; 1%nat]);
    reflexivity.
Defined.

Lemma dqn_terminal_target_witness :
  ∃ self' trace,
    DQNAgent.learn_trace Toy.dqn_self [0%nat; 1%nat] = Ok (self', trace) ∧
    ∃ q_action_taken q_target,
      trace = [LossCall q_action_taken q_target] ∧
      ∀ i k tr,
        [0%nat; 1%nat] !! i = Some k →
        Agent.row (DQNAgent.super Toy.dqn_self) k = Some tr →
        Agent.tr_done tr = true →
        ∃ y, data q_target !! i = Some y ∧
             y = (Agent.tr_reward tr + DQNAgent.gamma Toy.dqn_self * 0)%Q ∧
             (y == Agent.tr_reward tr)%Q.
Proof.
  eexists _, _. split; [vm_compute; reflexivity |].
  eapply (dqn_terminal_target Toy.dqn_self _ [0%nat; 1%nat]); reflexivity.
Defined.

(** C7 is not what DQV-Max does: in one [learn] call the target of the
    V-loss of the first sampled row is 2 and the target of its Q-loss is
    4; the latter comes from the V-network after its update in the same
    call (estimate 3), not from the V-network of before (estimate 2). *)
Lemma dqvmax_losses_use_different_targets :
  ∃ self' v_loss q_loss,
    DQVMaxAgent.learn_trace Toy.dqvmax_self [0%nat; 1%nat]
      = Ok (self', [v_loss; q_loss]) ∧
    data (arg1 v_loss) !! 0%nat = Some 2%Q ∧
    data (arg1 q_loss) !! 0%nat = Some 4%Q ∧
    arg1 v_loss ≠ arg1 q_loss ∧
    v_forward (DQVMaxAgent.v_network Toy.dqvmax_self) 1 = 2%Q ∧
    v_forward (DQVMaxAgent.v_network self') 1 = 3%Q.
Proof.
  eexists _, _, _. split; [vm_compute; reflexivity |].
  split_and!; [reflexivity | reflexivity | discriminate | reflexivity | reflexivity].
Qed.

Lemma two_network_targets_witness :
  (∃ self' trace,
     DQVAgent.learn_trace Toy.dqv_self [0%nat; 1%nat] = Ok (self', trace) ∧
     ∃ target_dqv v_s q_action_taken,
       trace = [LossCall target_dqv v_s; LossCall target_dqv q_action_taken] ∧
       requires_grad target_dqv = false ∧
       data target_dqv = [3%Q; 2%Q]) ∧
  (∃ self' trace,
     DQVMaxAgent.learn_trace Toy.dqvmax_self [0%nat; 1%nat] = Ok (self', trace) ∧
     ∃ v_target q_target v_s q_action_taken,
       trace = [LossCall v_target v_s; LossCall q_target q_action_taken] ∧
       requires_grad v_target = false ∧
       requires_grad q_target = false ∧
       data v_target = [2%Q; 2%Q] ∧
       data q_target = [4%Q; 2%Q]).
Proof.
  split.
  - eexists _, _. split; [vm_compute; reflexivity |].
    edestruct (proj1 (two_network_targets (obs := Z)) Toy.dqv_self _ [0%nat; 1%nat] _
                 eq_refl eq_refl)
      as (b & target_dqv & v_s & q_action_taken & _ & Htrace & Hgrad & _).
    exists target_dqv, v_s, q_action_taken.
    split_and!; [exact Htrace | exact Hgrad |].
    injection Htrace as <- _ _. reflexivity.
  - eexists _, _. split; [vm_compute; reflexivity |].
    edestruct (proj2 (two_network_targets (obs := Z)) Toy.dqvmax_self _ [0%nat; 1%nat] _
                 eq_refl eq_refl)
      as (b & v_target & q_target & v_s & q_action_taken & _ & Htrace & Hgv & Hgq & _).
    exists v_target, q_target, v_s, q_action_taken.
    split_and!; [exact Htrace | exact Hgv | exact Hgq | |];
      injection Htrace as <- _ <- _; reflexivity.
Defined.

Lemma target_network_sync_witness :
  ∃ self0 ag ag' trace,
    DDQNAgent.init 2 0 2 [0%Q; 1%Q] [5%Q; 3%Q] (Some (1 # 2)%Q) (Some true) (Toy.kw 1)
      = Ok self0 ∧
    run (DDQN self0) (map StoreTransition Toy.two ++ [Learn [0%nat; 1%nat]]) = Ok (ag, 1) ∧
    learn_trace ag [0%nat; 1%nat] = Ok (ag', trace) ∧
    learn_step_counter ag' = 1 + 1 ∧
    target_network ag = [5%Q; 3%Q] ∧
    online_network ag = [1%Q; 2%Q] ∧
    online_network ag' = [2%Q; 3%Q] ∧
    target_network ag' !! 0%nat = Some ((1 # 2) * 2 + (1 - (1 # 2)) * 5)%Q ∧
    target_network ag' !! 1%nat = Some ((1 # 2) * 3 + (1 - (1 # 2)) * 3)%Q.
Proof.
  set (self0 := @DDQNAgent.mk Z Toy.approximators
                  (Agent.mk 2 [0; 0] [0; 0] [0; 0] [0%Q; 0%Q] [false; false] 0 2)
                  (1 # 10000)%Q 1%Q 1%Q (1 # 10)%Q (1 # 2)%Q 2 2 1 0 (1 # 2)%Q true
                  [0%Q; 1%Q] [5%Q; 3%Q] tt).
  assert (DDQNAgent.init 2 0 2 [0%Q; 1%Q] [5%Q; 3%Q] (Some (1 # 2)%Q) (Some true) (Toy.kw 1)
          = Ok self0) as Hinit by reflexivity.
  exists self0. eexists _, _, _. split; [exact Hinit |].
  split; [vm_compute; reflexivity |]. split; [vm_compute; reflexivity |].
  match goal with |- learn_step_counter ?ag' = _ ∧ target_network ?ag = _ ∧ _ =>
    edestruct (target_network_sync (DDQN self0)
                 (map StoreTransition Toy.two ++ [Learn [0%nat; 1%nat]]) ag 1
                 [0%nat; 1%nat] ag')
      as (_ & Hcnt & _ & Hsync & _);
      [exact (constructed_DDQN _ _ _ _ _ _ _ _ _ Hinit)
      | vm_compute; reflexivity | reflexivity | vm_compute; reflexivity |]
  end.
  split; [exact Hcnt |]. split; [reflexivity |]. split; [reflexivity |].
  split; [reflexivity |].
  destruct (Hsync eq_refl) as [_ Hparams].
  split; apply Hparams; reflexivity.
Defined.

(** Hard mode on the concrete agents: after the second completed step,
    the first that is a multiple of the update frequency 2, the target
    equals the online network. *)
Lemma hard_sync_scenario :
  (target_network <$> learn_all Toy.dqn (Toy.draws 1)) = Ok [0%Q; 1%Q] ∧
  (online_network <$> learn_all Toy.dqn (Toy.draws 2)) = Ok [2%Q; 3%Q] ∧
  (target_network <$> learn_all Toy.dqn (Toy.draws 2)) = Ok [2%Q; 3%Q] ∧
  (target_network <$> learn_all (Toy.ddqn false) (Toy.draws 1)) = Ok [5%Q; 3%Q] ∧
  (target_network <$> learn_all (Toy.ddqn false) (Toy.draws 2)) = Ok [2%Q; 3%Q] ∧
  (online_network <$> learn_all Toy.dqv (Toy.draws 2)) = Ok [4%Q] ∧
  (target_network <$> learn_all Toy.dqv (Toy.draws 2)) = Ok [4%Q] ∧
  (target_network <$> learn_all Toy.dqvmax (Toy.draws 2)) = Ok [2%Q; 3%Q].
Proof. split_and!; vm_compute; reflexivity. Qed.

(** * Further properties *)

(** ** The replay memory below its capacity, and what [learn] reads *)

Section MemoryMore.
Context {obs : Type}.
Implicit Types (self : Agent.t obs) (tr : Agent.transition obs).

Lemma init_rows_zero (memory_size : Z) (zero_state : obs) (n_actions : Z) self0 :
  Agent.init memory_size zero_state n_actions = Ok self0 →
  ∀ i, (i < Z.to_nat memory_size)%nat → Agent.row self0 i = Some (zero_row zero_state).
Proof.
  unfold Agent.init. destruct (memory_size <? 0); [discriminate |].
  intros [= <-] i Hi. unfold Agent.row. simpl.
  by rewrite !lookup_replicate_2 by done.
Qed.

(** Rows above everything written so far are not touched. *)
Lemma store_all_row_above (trs : list (Agent.transition obs)) :
  ∀ self stored self' i,
    0 < Agent.memory_size self → holds_last self stored →
    (length stored + length trs ≤ i)%nat → (i < Z.to_nat (Agent.memory_size self))%nat →
    Agent.store_all self trs = Ok self' →
    Agent.row self' i = Agent.row self i.
Proof.
  induction trs as [|tr trs IH]; intros self stored self' i HM Hinv Hi Him Hall;
    simpl in Hall.
  - by injection Hall as <-.
  - apply bind_Ok in Hall as (self1 & Hs & Hall).
    assert (action_fits tr) as Hfit.
    { unfold Agent.store in Hs. by apply store_transition_Ok in Hs as (_ & Hfit & _). }
    destruct (store_holds_last self stored tr HM Hfit Hinv) as (self1' & Hs' & HM1 & Hinv1).
    assert (self1' = self1) as -> by congruence.
    simpl in Hi.
    rewrite (IH self1 (stored ++ [recorded tr]) self' i); try done.
    + apply (row_insert_ne self i tr self1 Hs).
      destruct Hinv as (Hc & _ & _). rewrite Hc.
      replace (Agent.memory_size self) with (Z.of_nat (Z.to_nat (Agent.memory_size self)))
        at 1 by lia.
      rewrite write_index by lia. rewrite Nat.mod_small by lia. lia.
    + lia.
    + rewrite length_app. simpl. lia.
    + by rewrite HM1.
Qed.

(** Whether successive [store_transition] calls succeed depends on the
    capacity and on the actions only. *)
Lemma store_all_result (trs : list (Agent.transition obs)) :
  ∀ self, Agent.memory_size self ≠ 0 →
    (Forall action_fits trs → ∃ self', Agent.store_all self trs = Ok self') ∧
    (¬ Forall action_fits trs → Agent.store_all self trs = Raise OverflowError).
Proof.
  induction trs as [|tr trs IH]; intros self HM.
  - split; [simpl; eauto | intros Hnot; destruct Hnot; constructor].
  - destruct (decide (int32_min ≤ Agent.tr_action tr ≤ int32_max)) as [Hfit|Hnot].
    + assert (∃ self1, Agent.store self tr = Ok self1 ∧
                       Agent.memory_size self1 = Agent.memory_size self)
        as (self1 & Hs & HM1).
      { eexists. split.
        - unfold Agent.store. apply store_transition_Ok.
          split_and!; [done | apply Hfit | apply Hfit | reflexivity].
        - reflexivity. }
      destruct (IH self1) as [IHok IHraise]; [congruence |].
      simpl. rewrite Hs. simpl. split.
      * intros Hall. apply Forall_cons in Hall as [_ Hall]. by apply IHok.
      * intros Hnot. apply IHraise. intros Hall. apply Hnot. by constructor.
    + simpl. unfold Agent.store.
      rewrite store_transition_overflow by done. simpl. split; [| done].
      intros Hall. apply Forall_cons in Hall as [Hfit _]. done.
Qed.

Lemma take_rows_Ok {A : Type} (buffer : list A) (drawn : list nat) :
  Forall (fun k => (k < length buffer)%nat) drawn →
  ∃ rows, take_rows buffer drawn = Ok rows.
Proof.
  unfold take_rows. induction 1 as [|k drawn Hk _ [rows IH]]; simpl; [eauto |].
  destruct (lookup_lt_is_Some_2 buffer k Hk) as [x Hx].
  rewrite Hx. simpl. rewrite IH. simpl. eauto.
Qed.

Lemma take_rows_insert_ne {A : Type} (buffer : list A) (index : nat) (x : A)
  (drawn : list nat) :
  index ∉ drawn → take_rows (<[index := x]> buffer) drawn = take_rows buffer drawn.
Proof.
  unfold take_rows. induction drawn as [|k drawn IH]; intros Hnot; simpl; [done |].
  apply not_elem_of_cons in Hnot as [Hne Hnot].
  rewrite list_lookup_insert_ne by done. by rewrite IH.
Qed.

(** X1.  While the capacity is not exceeded nothing is overwritten: after
    at most [M] recorded transitions, with 32-bit actions and rewards
    that do not overflow binary32, every one of them lies at the row of
    its own position, in the order of recording and with its reward
    rounded to the nearest binary32 number, and every row beyond them
    still holds the zeros of construction. *)
Theorem store_transition_below_capacity (M : Z) (zero_state : obs) (n_actions : Z)
  (trs : list (Agent.transition obs)) :
  Z.of_nat (length trs) ≤ M → Forall fits_dtypes trs →
  ∃ self0 self,
    Agent.init M zero_state n_actions = Ok self0 ∧
    Agent.store_all self0 trs = Ok self ∧
    Agent.mem_counter self = Z.of_nat (length trs) ∧
    (∀ j tr, trs !! j = Some tr → Agent.row self j = Some (recorded tr)) ∧
    (∀ i, (length trs ≤ i < Z.to_nat M)%nat →
       Agent.row self i = Some (zero_row zero_state)).
Proof.
  intros Hlen Hfit.
  destruct (init_holds_last M zero_state n_actions) as (self0 & Hinit & HM0 & Hinv0);
    [lia |].
  destruct trs as [|tr0 trs].
  - exists self0, self0. split_and!; try done.
    + by destruct Hinv0 as (-> & _).
    + intros i [_ Hi]. by apply (init_rows_zero M zero_state n_actions).
  - assert (0 < M) as HM by (simpl length in Hlen; lia).
    revert Hlen Hfit. generalize (tr0 :: trs). intros l Hlen Hfit.
    destruct (store_all_holds_last self0 [] l) as (self & Hall & HMs & Hinv);
      [lia | by apply fits_dtypes_actions | done |].
    exists self0, self. simpl app in Hinv. destruct Hinv as (Hc & _ & Hrows).
    rewrite length_map in Hc, Hrows.
    assert (Agent.memory_size self = M) as HMeq by congruence.
    rewrite HMeq in Hrows.
    split_and!; try done.
    + intros j tr Hj. pose proof (lookup_lt_Some _ _ _ Hj) as Hjlt.
      rewrite <- (Nat.mod_small j (Z.to_nat M)) by lia.
      apply Hrows; [by rewrite list_lookup_fmap, Hj |]. lia.
    + intros i [Hi Him].
      rewrite (store_all_row_above l self0 [] self i); try done; try lia.
      by apply (init_rows_zero M zero_state n_actions).
Qed.

(** X2.  What is stored is what is sampled, up to the element types of
    the arrays: on a memory that recording has produced, a
    [store_transition] with a 32-bit action and a reward that does not
    overflow binary32 succeeds, the row at the write index [C mod M]
    then reads back, across the five arrays, the transition just stored
    with its reward rounded to the nearest binary32 number (so the very
    transition when its reward is a binary32 number), and a batch that
    does not draw this index reads what it read before. *)
Theorem store_then_sample self (stored : list (Agent.transition obs)) tr :
  0 < Agent.memory_size self → holds_last self stored → fits_dtypes tr →
  ∃ self',
    Agent.store self tr = Ok self' ∧
    Agent.sample self' [Z.to_nat (Agent.mem_counter self mod Agent.memory_size self)]
      = Ok (Agent.Batch [Agent.tr_state tr] [Agent.tr_action tr]
              [as_float32 (Agent.tr_reward tr)]
              [Agent.tr_new_state tr] [Agent.tr_done tr]) ∧
    (as_float32 (Agent.tr_reward tr) = Agent.tr_reward tr →
     Agent.sample self' [Z.to_nat (Agent.mem_counter self mod Agent.memory_size self)]
       = Ok (Agent.Batch [Agent.tr_state tr] [Agent.tr_action tr] [Agent.tr_reward tr]
               [Agent.tr_new_state tr] [Agent.tr_done tr])) ∧
    ∀ drawn,
      Z.to_nat (Agent.mem_counter self mod Agent.memory_size self) ∉ drawn →
      Agent.sample self' drawn = Agent.sample self drawn.
Proof.
  intros HM (Hc & (L1 & L2 & L3 & L4 & L5) & _) [Hfit _].
  assert (Z.to_nat (Agent.mem_counter self mod Agent.memory_size self)
          < Z.to_nat (Agent.memory_size self))%nat as Hlt.
  { pose proof (Z.mod_pos_bound (Agent.mem_counter self) (Agent.memory_size self) HM). lia. }
  assert (∃ self', Agent.store self tr = Ok self') as [self' Hs].
  { eexists. unfold Agent.store. apply store_transition_Ok.
    split_and!; [lia | apply Hfit | apply Hfit | reflexivity]. }
  exists self'. split; [done |].
  unfold Agent.store in Hs. apply store_transition_Ok in Hs as (_ & _ & ->).
  assert (Agent.sample
            (Agent.mk (Agent.memory_size self)
               (<[Z.to_nat (Agent.mem_counter self mod Agent.memory_size self)
                  := Agent.tr_state tr]> (Agent.state_buffer self))
               (<[Z.to_nat (Agent.mem_counter self mod Agent.memory_size self)
                  := Agent.tr_new_state tr]> (Agent.next_state_buffer self))
               (<[Z.to_nat (Agent.mem_counter self mod Agent.memory_size self)
                  := Agent.tr_action tr]> (Agent.action_buffer self))
               (<[Z.to_nat (Agent.mem_counter self mod Agent.memory_size self)
                  := as_float32 (Agent.tr_reward tr)]> (Agent.reward_buffer self))
               (<[Z.to_nat (Agent.mem_counter self mod Agent.memory_size self)
                  := Agent.tr_done tr]> (Agent.terminal_buffer self))
               (Agent.mem_counter self + 1) (Agent.n_actions self))
            [Z.to_nat (Agent.mem_counter self mod Agent.memory_size self)]
          = Ok (Agent.Batch [Agent.tr_state tr] [Agent.tr_action tr]
                  [as_float32 (Agent.tr_reward tr)]
                  [Agent.tr_new_state tr] [Agent.tr_done tr])) as Hread.
  { unfold Agent.sample, take_rows. simpl.
    rewrite !list_lookup_insert_eq by (rewrite ?L1, ?L2, ?L3, ?L4, ?L5; exact Hlt).
    reflexivity. }
  split_and!.
  - exact Hread.
  - intros Hexact. rewrite Hread. by rewrite Hexact.
  - intros drawn Hnot. unfold Agent.sample. simpl.
    by rewrite !take_rows_insert_ne by done.
Qed.

(** X3.  Recording depends on the capacity and on the actions only:
    construction followed by one or more [store_transition] calls
    succeeds exactly when the capacity is positive and every action is a
    32-bit integer; it raises [ZeroDivisionError] exactly when the
    capacity is zero (the constructor accepts it, the first write
    divides by it), [ValueError] exactly when the capacity is negative,
    and [OverflowError] exactly when the capacity is positive and some
    action is not a 32-bit integer. *)
Theorem recording_needs_positive_capacity (M : Z) (zero_state : obs) (n_actions : Z)
  tr (trs : list (Agent.transition obs)) :
  ((∃ self, (self0 ← Agent.init M zero_state n_actions;
             Agent.store_all self0 (tr :: trs)) = Ok self)
   ↔ 0 < M ∧ Forall action_fits (tr :: trs)) ∧
  ((self0 ← Agent.init M zero_state n_actions; Agent.store_all self0 (tr :: trs))
     = Raise ZeroDivisionError ↔ M = 0) ∧
  ((self0 ← Agent.init M zero_state n_actions; Agent.store_all self0 (tr :: trs))
     = Raise ValueError ↔ M < 0) ∧
  ((self0 ← Agent.init M zero_state n_actions; Agent.store_all self0 (tr :: trs))
     = Raise OverflowError ↔ 0 < M ∧ ¬ Forall action_fits (tr :: trs)).
Proof.
  destruct (Z.lt_trichotomy M 0) as [Hneg | [-> | Hpos]].
  - assert ((self0 ← Agent.init M zero_state n_actions;
             Agent.store_all self0 (tr :: trs)) = Raise ValueError) as ->.
    { unfold Agent.init. destruct (M <? 0) eqn:E; [done | lia]. }
    split_and!; split;
      first [done | lia | intros [self Hs]; discriminate Hs | intros [HM _]; lia].
  - assert ((self0 ← Agent.init 0 zero_state n_actions;
             Agent.store_all self0 (tr :: trs)) = Raise ZeroDivisionError) as ->
      by reflexivity.
    split_and!; split;
      first [done | lia | intros [self Hs]; discriminate Hs | intros [HM _]; lia].
  - destruct (init_holds_last M zero_state n_actions) as (self0 & -> & HM0 & Hinv0);
      [lia |].
    change ((self0 ← Ok self0; Agent.store_all self0 (tr :: trs)))
      with (Agent.store_all self0 (tr :: trs)).
    destruct (store_all_result (tr :: trs) self0) as [Hok Hraise]; [lia |].
    destruct (Agent.store_all self0 (tr :: trs)) as [self|e] eqn:Hall.
    + assert (Forall action_fits (tr :: trs)) as Hfit.
      { destruct (Forall_dec action_fits (tr :: trs)) as [Hfit|Hnot]; [done |].
        specialize (Hraise Hnot). discriminate Hraise. }
      split_and!; split;
        first [done | lia | by eauto | intros [_ Hnot]; done].
    + assert (¬ Forall action_fits (tr :: trs)) as Hnot.
      { intros Hfit. destruct (Hok Hfit) as [self Hself]. discriminate Hself. }
      specialize (Hraise Hnot). injection Hraise as ->.
      split_and!; split;
        first [done | lia | intros [self Hs]; discriminate Hs | intros [_ Hfit]; done].
Qed.

(** Every row below [min(C, M)] of a memory that recording has produced
    holds a recorded transition. *)
Lemma valid_row_recorded self (stored : list (Agent.transition obs)) (k : nat) :
  0 < Agent.memory_size self → holds_last self stored →
  Z.of_nat k < Z.min (Agent.mem_counter self) (Agent.memory_size self) →
  ∃ j tr, stored !! j = Some tr ∧ Agent.row self k = Some tr.
Proof.
  intros HM (Hc & _ & Hrows) Hk. rewrite Hc in Hk.
  set (m := Z.to_nat (Agent.memory_size self)) in *.
  destruct (le_lt_dec m (length stored)) as [Hfull|Hpart].
  - destruct (slot_has_survivor m (length stored) k) as (j & Hj & Hlast & Hmod);
      [done | lia |].
    destruct (lookup_lt_is_Some_2 stored j Hj) as [tr Htr].
    exists j, tr. split; [done |]. rewrite <- Hmod. by apply Hrows.
  - assert (k < length stored)%nat as Hks by lia.
    destruct (lookup_lt_is_Some_2 stored k Hks) as [tr Htr].
    exists k, tr. split; [done |].
    rewrite <- (Nat.mod_small k m) by lia. apply Hrows; [done | lia].
Qed.

(** X4.  A draw below [min(C, M)], as [np.random.choice] gives it, never
    fails to index the memory, and each sampled row is one of the
    recorded transitions with its five fields at the same position of
    the five batches: the zeros of construction are never sampled. *)
Theorem sample_reads_recorded_transitions self (stored : list (Agent.transition obs))
  (drawn : list nat) :
  0 < Agent.memory_size self → holds_last self stored →
  Forall (fun k => Z.of_nat k < Z.min (Agent.mem_counter self) (Agent.memory_size self))
    drawn →
  ∃ b,
    Agent.sample self drawn = Ok b ∧
    ∀ i k, drawn !! i = Some k →
      ∃ j tr,
        stored !! j = Some tr ∧
        Agent.states_batch b !! i = Some (Agent.tr_state tr) ∧
        Agent.actions_batch b !! i = Some (Agent.tr_action tr) ∧
        Agent.rewards_batch b !! i = Some (Agent.tr_reward tr) ∧
        Agent.new_states_batch b !! i = Some (Agent.tr_new_state tr) ∧
        Agent.terminal_batch b !! i = Some (Agent.tr_done tr).
Proof.
  intros HM Hinv Hdrawn.
  pose proof Hinv as (_ & (L1 & L2 & L3 & L4 & L5) & _).
  assert (∀ A (buffer : list A), length buffer = Z.to_nat (Agent.memory_size self) →
            ∃ rows, take_rows buffer drawn = Ok rows) as Htake.
  { intros A buffer Hlen. apply take_rows_Ok.
    eapply Forall_impl; [exact Hdrawn |]. simpl. intros k Hk. lia. }
  destruct (Htake _ _ L1) as [states Hstates].
  destruct (Htake _ _ L3) as [actions Hactions].
  destruct (Htake _ _ L4) as [rewards Hrewards].
  destruct (Htake _ _ L2) as [new_states Hnew].
  destruct (Htake _ _ L5) as [terminal Hterminal].
  assert (Agent.sample self drawn
          = Ok (Agent.Batch states actions rewards new_states terminal)) as Hs.
  { unfold Agent.sample. rewrite Hstates, Hactions, Hrewards, Hnew, Hterminal. done. }
  eexists. split; [exact Hs |].
  intros i k Hi.
  destruct (sample_rows _ _ _ Hs i k Hi) as (tr & Hrow & Hfields).
  assert (Z.of_nat k < Z.min (Agent.mem_counter self) (Agent.memory_size self)) as Hk.
  { eapply Forall_lookup_1 in Hdrawn; [exact Hdrawn | exact Hi]. }
  destruct (valid_row_recorded self stored k HM Hinv Hk) as (j & tr' & Hj & Hrow').
  assert (tr' = tr) as -> by congruence.
  exists j, tr. split; [done | exact Hfields].
Qed.
End MemoryMore.

(** ** How a call of [learn] can end, and what it leaves alone *)

Lemma random_choice_too_large (max_mem batch_size : Z) (drawn : list nat) :
  batch_size < 0 ∨ max_mem < batch_size →
  random_choice max_mem batch_size drawn = Raise ValueError.
Proof.
  intros Hsize. unfold random_choice.
  destruct (batch_size <? 0) eqn:E1; [done |].
  destruct (max_mem <? batch_size) eqn:E2; [done | lia].
Qed.

Section LearnMore.
Context `{Approximators obs}.
Implicit Types (ag : agent obs) (drawn : list nat).

(** X5.  Past the burn-in guard, a batch size that is negative or larger
    than the number [min(C, M)] of valid rows makes [learn] raise
    [ValueError], whatever would be drawn: a burn-in period shorter than
    the batch does not protect the sampling. *)
Theorem learn_sample_too_large ag drawn :
  burn_in_guard ag = false →
  batch_size ag < 0 ∨
  Z.min (Agent.mem_counter (memory ag)) (Agent.memory_size (memory ag)) < batch_size ag →
  learn ag drawn = Raise ValueError.
Proof.
  unfold burn_in_guard. intros Hguard Hsize.
  destruct ag as [self|self|self|self]; simpl in *;
    [unfold DQNAgent.learn, DQNAgent.learn_trace
    |unfold DDQNAgent.learn, DDQNAgent.learn_trace
    |unfold DQVAgent.learn, DQVAgent.learn_trace
    |unfold DQVMaxAgent.learn, DQVMaxAgent.learn_trace];
    rewrite Hguard; by rewrite random_choice_too_large by done.
Qed.

(** X6.  With [target_update_frequency] zero no call of [learn] past the
    burn-in guard returns: each one raises. *)
Theorem learn_zero_frequency ag drawn :
  burn_in_guard ag = false → target_update_frequency ag = 0 →
  ∃ e, learn ag drawn = Raise e.
Proof.
  intros Hguard Hzero. destruct (learn ag drawn) as [ag'|e] eqn:Hl; [| eauto].
  apply learn_Ok in Hl as [trace Hl].
  destruct (learn_step ag ag' drawn trace Hguard Hl) as (_ & _ & Hfreq & _). done.
Qed.

(** X7.  A call of [learn] that returns, guarded or not, has not touched
    the replay memory and has changed no hyperparameter: learning rate,
    discount, batch size, floor and decay of the exploration rate,
    burn-in period, update frequency and, in [DDQNAgent], the attributes
    [t_weight] and [soft_update], whichever of the two modes is on. *)
Theorem learn_keeps_memory_and_hyperparameters ag ag' drawn :
  learn ag drawn = Ok ag' →
  memory ag' = memory ag ∧
  lr ag' = lr ag ∧
  gamma ag' = gamma ag ∧
  batch_size ag' = batch_size ag ∧
  epsilon_min ag' = epsilon_min ag ∧
  epsilon_decay ag' = epsilon_decay ag ∧
  burn_in_period ag' = burn_in_period ag ∧
  target_update_frequency ag' = target_update_frequency ag ∧
  t_weight ag' = t_weight ag ∧
  soft_update ag' = soft_update ag.
Proof.
  intros Hl. destruct (burn_in_guard ag) eqn:Hguard.
  - rewrite learn_is_learn_trace, (learn_guarded ag drawn Hguard) in Hl.
    by injection Hl as <-.
  - unfold burn_in_guard in Hguard.
    destruct ag as [self|self|self|self]; simpl in *;
      apply fmap_Ok in Hl as (self' & Hl & ->);
      [unfold DQNAgent.learn in Hl | unfold DDQNAgent.learn in Hl
      |unfold DQVAgent.learn in Hl | unfold DQVMaxAgent.learn in Hl];
      apply fmap_Ok in Hl as ([self'' trace] & Hl & ->);
      [unfold DQNAgent.learn_trace in Hl | unfold DDQNAgent.learn_trace in Hl
      |unfold DQVAgent.learn_trace in Hl | unfold DQVMaxAgent.learn_trace in Hl];
      rewrite Hguard in Hl; learn_inv Hl; by injection Hl as <- <-.
Qed.

(** X8.  The burn-in guard opens once: an agent past the guard is still
    past it after any [store_transition] and after any [learn] that
    returns, because the write counter only grows and the burn-in
    period never changes. *)
Theorem burn_in_guard_stays_inactive ag :
  burn_in_guard ag = false →
  (∀ state action reward new_state done ag',
     store_transition ag state action reward new_state done = Ok ag' →
     Agent.mem_counter (memory ag') = Agent.mem_counter (memory ag) + 1 ∧
     burn_in_guard ag' = false) ∧
  (∀ drawn ag', learn ag drawn = Ok ag' → burn_in_guard ag' = false).
Proof.
  intros Hguard. split.
  - intros state action reward new_state done ag' Hs.
    unfold store_transition in Hs. apply fmap_Ok in Hs as (m' & Hs & ->).
    apply store_transition_Ok in Hs as (_ & _ & ->). unfold burn_in_guard in *.
    destruct ag as [self|self|self|self]; simpl in *; (split; [done | lia]).
  - intros drawn ag' Hl. apply learn_Ok in Hl as [trace Hl].
    destruct (learn_step ag ag' drawn trace Hguard Hl)
      as (Hmem & _ & _ & (_ & _ & Hburn & _) & _).
    unfold burn_in_guard in *. by rewrite Hmem, Hburn.
Qed.

(** X9.  Once the exploration rate is at or below its floor, with a rate
    that is not negative and a decay of at most one, a completed
    learning step of any of the four classes sets it to the floor. *)
Theorem epsilon_floor_absorbs ag ag' drawn :
  burn_in_guard ag = false → learn ag drawn = Ok ag' →
  (0 <= epsilon ag)%Q → (epsilon ag <= epsilon_min ag)%Q →
  (epsilon_decay ag <= 1)%Q →
  (epsilon ag' == epsilon_min ag)%Q.
Proof.
  intros Hguard Hl Hpos Hfloor Hdecay. apply learn_Ok in Hl as [trace Hl].
  destruct (learn_step ag ag' drawn trace Hguard Hl)
    as (_ & _ & _ & _ & _ & Heps & _).
  rewrite Heps.
  assert (epsilon ag * epsilon_decay ag <= epsilon_min ag)%Q as Hmul by nra.
  destruct ag as [self|self|self|self]; simpl in *.
  - apply Qgtb_false in Hfloor. by rewrite Hfloor.
  - unfold py_max. destruct (Qgtb _ _) eqn:E; [done |].
    apply Qgtb_false in E. by apply Qle_antisym.
  - unfold py_max. destruct (Qgtb _ _) eqn:E; [| done].
    apply Qgtb_true in E. lra.
  - unfold py_max. destruct (Qgtb _ _) eqn:E; [| done].
    apply Qgtb_true in E. lra.
Qed.
End LearnMore.

(** ** More on the loss arguments *)

Lemma gather_actions_lookup (t : tensor (list (list Q))) (actions : list Z)
  (g : tensor (list Q)) :
  gather_actions t actions = Ok g →
  requires_grad g = requires_grad t ∧
  ∀ i row a, data t !! i = Some row → actions !! i = Some a →
    0 ≤ a ∧ ∃ y, row !! Z.to_nat a = Some y ∧ data g !! i = Some y.
Proof.
  unfold gather_actions. intros Hg. apply bind_Ok in Hg as (index & Hindex & Hg).
  apply gather_dim1_lookup in Hg as (Hgrad & _ & Hgather).
  apply mapM_Ok_lookup in Hindex as [_ Hindex].
  split; [done |]. intros i row a Hrow Ha.
  destruct (Hindex i a Ha) as (c & Hc & Hi). unfold column_index in Hc.
  destruct (a <? 0) eqn:E; [discriminate |]. injection Hc as <-.
  split; [lia |]. by apply (Hgather i).
Qed.

Section TargetsMore.
Context `{Approximators obs}.

(** X10.  In a DQN learning step the TD target of every sampled row whose
    terminal flag is false is [r + gamma * max_a Q_target(s', a)], the
    maximum taken over the estimates of the target network at the next
    state; no [torch.no_grad()] surrounds it, so the target is computed
    with gradient tracking enabled. *)
Theorem dqn_bootstrap_target (self self' : DQNAgent.t obs) (drawn : list nat)
  (trace : list loss_call) :
  (Agent.mem_counter (DQNAgent.super self) <? DQNAgent.burn_in_period self) = false →
  DQNAgent.learn_trace self drawn = Ok (self', trace) →
  ∃ q_action_taken q_target,
    trace = [LossCall q_action_taken q_target] ∧
    requires_grad q_target = true ∧
    ∀ i k tr,
      drawn !! i = Some k → Agent.row (DQNAgent.super self) k = Some tr →
      Agent.tr_done tr = false →
      ∃ a q_max,
        first_argmax (q_forward (DQNAgent.q_target_network self) (Agent.tr_new_state tr))
          a q_max ∧
        data q_target !! i = Some (Agent.tr_reward tr + DQNAgent.gamma self * q_max)%Q.
Proof.
  intros Hguard Hl. unfold DQNAgent.learn_trace in Hl. rewrite Hguard in Hl.
  learn_inv Hl. use_draw. injection Hl as <- <-.
  match goal with Hm : max_dim1 _ = Ok _ |- _ =>
    apply max_dim1_lookup in Hm as (Hgrad & _ & Hmaxes)
  end.
  eexists _, _. split; [reflexivity |]. split; [exact Hgrad |].
  intros i k tr Hi Hrow Hdone.
  match goal with Hs : Agent.sample _ _ = Ok ?b |- _ =>
    destruct (sample_rows _ _ _ Hs i k Hi) as (tr' & Hrow' & _ & _ & Hr & Hs' & Hd)
  end.
  assert (tr' = tr) as -> by congruence. rewrite Hdone in Hd.
  destruct (Hmaxes i _ (zero_rows_lookup _ _ i _ _ Hd (q_apply_lookup _ _ _ i _ Hs')))
    as (a & q_max & Hmax & Hx).
  exists a, q_max. split; [by apply row_max_spec | by apply td_target_lookup].
Qed.

(** X11.  In a double-DQN learning step the TD target of every sampled
    row whose terminal flag is true is [r + gamma * 0], which equals the
    reward: both the online and the target estimates of the row are
    zeroed before the action is selected and evaluated. *)
Theorem ddqn_terminal_target (self self' : DDQNAgent.t obs) (drawn : list nat)
  (trace : list loss_call) :
  (Agent.mem_counter (DDQNAgent.super self) <? DDQNAgent.burn_in_period self) = false →
  DDQNAgent.learn_trace self drawn = Ok (self', trace) →
  ∃ q_action_taken target,
    trace = [LossCall q_action_taken target] ∧
    ∀ i k tr,
      drawn !! i = Some k → Agent.row (DDQNAgent.super self) k = Some tr →
      Agent.tr_done tr = true →
      ∃ y, data target !! i = Some y ∧
           y = (Agent.tr_reward tr + DDQNAgent.gamma self * 0)%Q ∧
           (y == Agent.tr_reward tr)%Q.
Proof.
  intros Hguard Hl. unfold DDQNAgent.learn_trace in Hl. rewrite Hguard in Hl.
  learn_inv Hl. use_draw. injection Hl as <- <-.
  match goal with Hg : gather_dim1 _ _ = Ok _ |- _ =>
    apply gather_dim1_lookup in Hg as (_ & _ & Hgather)
  end.
  match goal with Ha : argmax_dim1 _ = Ok _ |- _ =>
    apply argmax_dim1_lookup in Ha as (_ & Hargmax)
  end.
  eexists _, _. split; [reflexivity |].
  intros i k tr Hi Hrow Hdone.
  match goal with Hs : Agent.sample _ _ = Ok ?b |- _ =>
    destruct (sample_rows _ _ _ Hs i k Hi) as (tr' & Hrow' & _ & _ & Hr & Hs' & Hd)
  end.
  assert (tr' = tr) as -> by congruence. rewrite Hdone in Hd.
  destruct (Hargmax i _ (zero_rows_lookup _ _ i _ _ Hd (q_apply_lookup _ _ _ i _ Hs')))
    as (a & q_online & Hmax & Ha).
  destruct (Hgather i _ a (zero_rows_lookup _ _ i _ _ Hd (q_apply_lookup _ _ _ i _ Hs')) Ha)
    as (q_eval & Heval & Hx).
  rewrite lookup_map in Heval.
  destruct (q_forward (DDQNAgent.q_target_network self) (Agent.tr_new_state tr) !! a);
    [| discriminate]. injection Heval as <-.
  eexists. split; [by apply td_target_lookup |]. split; [done | ring].
Qed.
End TargetsMore.

Section Prediction.
Context `{Approximators obs}.

Ltac prediction_rows Hsample Hgather :=
  intros i k tr Hi Hrow;
  destruct (sample_rows _ _ _ Hsample i k Hi) as (tr' & Hrow' & Hs & Ha & _);
  assert (tr' = tr) as -> by congruence;
  exact (Hgather i _ _ (q_apply_lookup _ _ _ i _ Hs) Ha).

(** X12.  In every class the prediction of the action-value loss is, row
    by row, the estimate of the online action-value network at the
    stored state for the stored action, computed with gradient tracking;
    a [learn] that returns has found every sampled action inside the
    range of the network's outputs. *)
Theorem q_loss_predicts_action_taken (ag ag' : agent obs) (drawn : list nat)
  (trace : list loss_call) :
  burn_in_guard ag = false → learn_trace ag drawn = Ok (ag', trace) →
  ∃ prediction,
    q_prediction ag trace = Some prediction ∧
    requires_grad prediction = true ∧
    ∀ i k tr,
      drawn !! i = Some k → Agent.row (memory ag) k = Some tr →
      0 ≤ Agent.tr_action tr ∧
      ∃ y, q_forward (policy_network ag) (Agent.tr_state tr) !! Z.to_nat (Agent.tr_action tr)
             = Some y ∧
           data prediction !! i = Some y.
Proof.
  unfold burn_in_guard.
  destruct ag as [self|self|self|self]; simpl; intros Hguard Hl;
    apply fmap_Ok in Hl as ([self' trace'] & Hl & [= -> ->]);
    [unfold DQNAgent.learn_trace in Hl | unfold DDQNAgent.learn_trace in Hl
    |unfold DQVAgent.learn_trace in Hl | unfold DQVMaxAgent.learn_trace in Hl];
    rewrite Hguard in Hl; learn_inv Hl; use_draw; injection Hl as <- <-; simpl;
    match goal with
    | Hg : gather_actions _ _ = Ok _, Hs : Agent.sample _ _ = Ok _ |- _ =>
        apply gather_actions_lookup in Hg as (Hgrad & Hgather);
        eexists; split; [reflexivity |]; split; [exact Hgrad |];
        prediction_rows Hs Hgather
    end.
Qed.
End Prediction.

(** ** Action selection *)

Section ActionSelection.
Context `{Approximators obs}.

Lemma greedy_action_spec (q_network : list Q) (observation : obs) :
  q_forward q_network observation ≠ [] →
  ∃ a x, row_max (q_forward q_network observation) = Ok (a, x) ∧
         greedy_action q_network observation = Ok (Z.of_nat a) ∧
         first_argmax (q_forward q_network observation) a x ∧
         (a < length (q_forward q_network observation))%nat.
Proof.
  intros Hrow. unfold greedy_action.
  destruct (row_max (q_forward q_network observation)) as [[a x]|e] eqn:Hmax.
  - exists a, x. pose proof (row_max_spec _ _ _ Hmax) as Hfirst.
    split_and!; try done. destruct Hfirst as (Hx & _). by apply lookup_lt_Some in Hx.
  - destruct (q_forward q_network observation); [done | discriminate].
Qed.

(** X13.  When [np.random.choice] answers inside the action space and the
    action-value network has one output per action, [choose_action]
    returns an index of the action space: the random action whenever the
    uniform draw is at most the exploration rate, and otherwise the
    first index at which the online estimates at the observation are
    largest. *)
Theorem choose_action_valid_index (ag : agent obs) (u : Q) (chosen : Z)
  (observation : obs) :
  0 ≤ chosen < Agent.n_actions (memory ag) →
  Z.of_nat (length (q_forward (policy_network ag) observation))
    = Agent.n_actions (memory ag) →
  ∃ a,
    choose_action ag u chosen observation = Ok a ∧
    0 ≤ a < Agent.n_actions (memory ag) ∧
    ((u <= epsilon ag)%Q → a = chosen) ∧
    ((epsilon ag < u)%Q →
     ∃ x, first_argmax (q_forward (policy_network ag) observation) (Z.to_nat a) x).
Proof.
  intros Hchosen Hlen. unfold choose_action.
  destruct (Qle_bool u (epsilon ag)) eqn:E.
  - apply Qle_bool_iff in E. unfold random_action.
    destruct (Agent.n_actions (memory ag) <=? 0) eqn:En; [lia |].
    exists chosen. split_and!; try done; try lia. intros Hlt. lra.
  - assert (¬ (u <= epsilon ag)%Q) as Hnot.
    { intros Hle. apply Qle_bool_iff in Hle. congruence. }
    destruct (greedy_action_spec (policy_network ag) observation)
      as (a & x & _ & Hgreedy & Hfirst & Ha).
    { intros Hnil. rewrite Hnil in Hlen. simpl in Hlen. lia. }
    exists (Z.of_nat a). rewrite Nat2Z.id. split_and!; try done; try lia. eauto.
Qed.

(** X14.  Double DQN bootstraps on the action its own policy would
    exploit: for every sampled non-terminal row, the index at which the
    target network is evaluated is the action that [choose_action]
    returns at the next state when it does not explore. *)
Theorem ddqn_bootstraps_on_greedy_action (self self' : DDQNAgent.t obs)
  (drawn : list nat) (trace : list loss_call) (u : Q) (chosen : Z) :
  (Agent.mem_counter (DDQNAgent.super self) <? DDQNAgent.burn_in_period self) = false →
  DDQNAgent.learn_trace self drawn = Ok (self', trace) →
  (DDQNAgent.epsilon self < u)%Q →
  ∃ q_action_taken target,
    trace = [LossCall q_action_taken target] ∧
    ∀ i k tr,
      drawn !! i = Some k → Agent.row (DDQNAgent.super self) k = Some tr →
      Agent.tr_done tr = false →
      ∃ a q_eval,
        choose_action (DDQN self) u chosen (Agent.tr_new_state tr) = Ok (Z.of_nat a) ∧
        q_forward (DDQNAgent.q_target_network self) (Agent.tr_new_state tr) !! a
          = Some q_eval ∧
        data target !! i = Some (Agent.tr_reward tr + DDQNAgent.gamma self * q_eval)%Q.
Proof.
  intros Hguard Hl Hu. unfold DDQNAgent.learn_trace in Hl. rewrite Hguard in Hl.
  learn_inv Hl. use_draw. injection Hl as <- <-.
  match goal with Hg : gather_dim1 _ _ = Ok _ |- _ =>
    apply gather_dim1_lookup in Hg as (_ & _ & Hgather)
  end.
  match goal with Ha : argmax_dim1 _ = Ok _ |- _ =>
    apply argmax_dim1_lookup in Ha as (_ & Hargmax)
  end.
  eexists _, _. split; [reflexivity |].
  intros i k tr Hi Hrow Hdone.
  match goal with Hs : Agent.sample _ _ = Ok ?b |- _ =>
    destruct (sample_rows _ _ _ Hs i k Hi) as (tr' & Hrow' & _ & _ & Hr & Hs' & Hd)
  end.
  assert (tr' = tr) as -> by congruence. rewrite Hdone in Hd.
  destruct (Hargmax i _ (zero_rows_lookup _ _ i _ _ Hd (q_apply_lookup _ _ _ i _ Hs')))
    as (a & q_online & Hmax & Ha).
  destruct (Hgather i _ a (zero_rows_lookup _ _ i _ _ Hd (q_apply_lookup _ _ _ i _ Hs')) Ha)
    as (q_eval & Heval & Hx).
  exists a, q_eval. split_and!; [| done | by apply td_target_lookup].
  unfold choose_action. simpl.
  assert (Qle_bool u (DDQNAgent.epsilon self) = false) as ->.
  { apply not_true_iff_false. rewrite Qle_bool_iff. lra. }
  unfold greedy_action. by rewrite Hmax.
Qed.
End ActionSelection.

(** ** Soft update at the two ends of the weight *)

Lemma Forall2_Qeq_refl (l : list Q) : Forall2 Qeq l l.
Proof. induction l as [|x l IH]; constructor; [reflexivity | exact IH]. Qed.

Lemma soft_update_params_zero (t_weight : Q) (target : list Q) :
  (t_weight == 0)%Q →
  ∀ online, Forall2 Qeq (soft_update_params t_weight target online) target.
Proof.
  intros Ht. induction target as [|target_param target IH]; intros [|param online]; simpl.
  - constructor.
  - constructor.
  - apply Forall2_Qeq_refl.
  - constructor; [| apply IH]. rewrite Ht. ring.
Qed.

Lemma soft_update_params_one (t_weight : Q) (target : list Q) :
  (t_weight == 1)%Q →
  ∀ online, length online = length target →
    Forall2 Qeq (soft_update_params t_weight target online) online.
Proof.
  intros Ht. induction target as [|target_param target IH]; intros [|param online] Hlen;
    simpl in *; try discriminate.
  - constructor.
  - constructor; [| apply IH; lia]. rewrite Ht. ring.
Qed.

Section SoftUpdate.
Context `{Approximators obs}.

(** X15.  The two ends of the soft update of [DDQNAgent].  With
    [t_weight] 0 no completed learning step moves the target network.
    With [t_weight] 1 a synchronising step leaves the target network
    equal to the online network, parameter by parameter, as the hard
    update does, the two networks having as many parameters. *)
Theorem soft_update_boundary_weights (ag ag' : agent obs) (drawn : list nat) (weight : Q) :
  burn_in_guard ag = false → learn ag drawn = Ok ag' →
  soft_weight ag = Some weight →
  ((weight == 0)%Q → Forall2 Qeq (target_network ag') (target_network ag)) ∧
  ((weight == 1)%Q →
   (learn_step_counter ag + 1) mod target_update_frequency ag = 0 →
   length (online_network ag') = length (target_network ag) →
   Forall2 Qeq (target_network ag') (online_network ag')).
Proof.
  intros Hguard Hl Hsoft. apply learn_Ok in Hl as [trace Hl].
  destruct (learn_step ag ag' drawn trace Hguard Hl)
    as (_ & _ & _ & _ & _ & _ & Htarget).
  rewrite Hsoft in Htarget. rewrite Htarget. split.
  - intros Hzero. destruct (_ =? 0).
    + by apply soft_update_params_zero.
    + apply Forall2_Qeq_refl.
  - intros Hone Hmod Hlen. apply Z.eqb_eq in Hmod as ->.
    by apply soft_update_params_one.
Qed.
End SoftUpdate.

(** ** Two ways of masking terminal rows *)

Lemma masking_orders_agree (rows : list (list Q)) :
  ∀ (mask : list bool) (a b : list Q),
    length mask = length rows →
    mapM (fun row => snd <$> row_max row)
      (zip_with (fun (m : bool) row => if m then map (fun _ => 0%Q) row else row) mask rows)
      = Ok a →
    mapM (fun row => snd <$> row_max row) rows = Ok b →
    zip_with (fun (m : bool) x => if m then 0%Q else x) mask b = a.
Proof.
  induction rows as [|row rows IH]; intros [|m mask] a b Hlen Ha Hb;
    simpl in *; try discriminate.
  - injection Ha as <-. by injection Hb as <-.
  - apply bind_Ok in Ha as (x & Hx & Ha). apply bind_Ok in Ha as (a' & Ha' & Ha).
    apply bind_Ok in Hb as (y & Hy & Hb). apply bind_Ok in Hb as (b' & Hb' & Hb).
    injection Ha as <-. injection Hb as <-. simpl. f_equal.
    + destruct m; [| congruence].
      destruct row as [|x0 row]; [discriminate |].
      rewrite row_max_zeros in Hx by done. by injection Hx as <-.
    + apply IH; [lia | done | done].
Qed.

Lemma sample_lengths {obs : Type} (self : Agent.t obs) (drawn : list nat)
  (b : Agent.batch obs) :
  Agent.sample self drawn = Ok b →
  length (Agent.new_states_batch b) = length drawn ∧
  length (Agent.terminal_batch b) = length drawn.
Proof.
  unfold Agent.sample. intros Hs.
  apply bind_Ok in Hs as (states & _ & Hs).
  apply bind_Ok in Hs as (actions & _ & Hs).
  apply bind_Ok in Hs as (rewards & _ & Hs).
  apply bind_Ok in Hs as (new_states & Hnew & Hs).
  apply bind_Ok in Hs as (terminal & Hterminal & Hs).
  injection Hs as <-. simpl.
  apply take_rows_lookup in Hnew as [-> _]. by apply take_rows_lookup in Hterminal as [-> _].
Qed.

Section Masking.
Context `{Approximators obs}.

(** X16.  DQN zeroes the target estimates of a terminal row before it
    takes the maximum, DQV-Max takes the maximum and then zeroes the
    entry.  On the same memory, draw, discount and target Q-network the
    two give the same targets: the TD target of DQN is the V-target of
    DQV-Max. *)
Theorem dqn_target_is_dqvmax_v_target (dqn dqn' : DQNAgent.t obs)
  (dqvmax dqvmax' : DQVMaxAgent.t obs) (drawn : list nat)
  (trace trace' : list loss_call) :
  DQNAgent.super dqn = DQVMaxAgent.super dqvmax →
  DQNAgent.gamma dqn = DQVMaxAgent.gamma dqvmax →
  DQNAgent.q_target_network dqn = DQVMaxAgent.target_q_network dqvmax →
  (Agent.mem_counter (DQNAgent.super dqn) <? DQNAgent.burn_in_period dqn) = false →
  (Agent.mem_counter (DQVMaxAgent.super dqvmax) <? DQVMaxAgent.burn_in_period dqvmax)
    = false →
  DQNAgent.learn_trace dqn drawn = Ok (dqn', trace) →
  DQVMaxAgent.learn_trace dqvmax drawn = Ok (dqvmax', trace') →
  ∃ q_action_taken q_target v_s q_loss,
    trace = [LossCall q_action_taken q_target] ∧
    trace' = [LossCall (Tensor (data q_target) false) v_s; q_loss].
Proof.
  intros Hsuper Hgamma Htarget Hguard Hguard' Hl Hl'.
  unfold DQNAgent.learn_trace in Hl. rewrite Hguard in Hl.
  learn_inv Hl. use_draw. injection Hl as <- <-.
  unfold DQVMaxAgent.learn_trace in Hl'. rewrite Hguard' in Hl'.
  learn_inv Hl'. use_draw. injection Hl' as <- <-.
  rewrite <- Hsuper, <- Hgamma, <- Htarget in *.
  repeat match goal with
  | Hs : Agent.sample ?m ?d = Ok ?b, Hs' : Agent.sample ?m ?d = Ok ?b' |- _ =>
      assert (b' = b) as -> by congruence; clear Hs'
  end.
  match goal with Hs : Agent.sample _ _ = Ok ?b |- _ =>
    destruct (sample_lengths _ _ _ Hs) as [Hlen_new Hlen_term]
  end.
  repeat match goal with Hm : max_dim1 _ = Ok _ |- _ =>
    unfold max_dim1 in Hm; apply bind_Ok in Hm as (? & ? & [= <-])
  end.
  simpl in *.
  match goal with
  | Ha : mapM _ (zip_with _ ?mask _) = Ok ?a, Hb : mapM _ (map _ _) = Ok ?b |- _ =>
      assert (zip_with (fun (m : bool) x => if m then 0%Q else x) mask b = a) as Hmask
        by (eapply masking_orders_agree; [| exact Ha | exact Hb];
            rewrite length_map; congruence)
  end.
  eexists _, _, _, _. split; [reflexivity |].
  unfold td_target, zero_entries. simpl. rewrite Hmask. reflexivity.
Qed.
End Masking.

(** ** When a learning step completes *)

Lemma mapM_Ok_intro {A B : Type} (f : A → result B) (l : list A) :
  Forall (fun x => ∃ y, f x = Ok y) l → ∃ ys, mapM f l = Ok ys.
Proof.
  induction 1 as [|x l [y Hy] _ [ys IH]]; simpl; [eauto |].
  rewrite Hy. simpl. rewrite IH. simpl. eauto.
Qed.

Lemma max_dim1_Ok (t : tensor (list (list Q))) :
  Forall (fun row => row ≠ []) (data t) → ∃ m, max_dim1 t = Ok m.
Proof.
  intros Hrows. unfold max_dim1.
  destruct (mapM_Ok_intro (fun row => snd <$> row_max row) (data t)) as [vals ->].
  - eapply Forall_impl; [exact Hrows |]. intros [|x row] Hne; [done |].
    simpl. destruct (max_from 0 x 1 row). simpl. eauto.
  - simpl. eauto.
Qed.

Lemma argmax_dim1_Ok (t : tensor (list (list Q))) :
  Forall (fun row => row ≠ []) (data t) → ∃ index, argmax_dim1 t = Ok index.
Proof.
  intros Hrows. unfold argmax_dim1. apply mapM_Ok_intro.
  eapply Forall_impl; [exact Hrows |]. intros [|x row] Hne; [done |].
  simpl. destruct (max_from 0 x 1 row). simpl. eauto.
Qed.

Lemma gather_rows_Ok (rows : list (list Q)) :
  ∀ index : list nat,
    (∀ i row a, rows !! i = Some row → index !! i = Some a → (a < length row)%nat) →
    ∃ xs, gather_rows rows index = Ok xs.
Proof.
  induction rows as [|row rows IH]; intros index Hin; simpl; [eauto |].
  destruct index as [|a index]; [eauto |].
  destruct (lookup_lt_is_Some_2 row a (Hin 0%nat row a eq_refl eq_refl)) as [x ->].
  simpl. destruct (IH index) as [xs ->]; [| simpl; eauto].
  intros i row' a' Hrow Ha. apply (Hin (S i)); done.
Qed.

Lemma gather_actions_Ok (t : tensor (list (list Q))) (actions : list Z) (n : nat) :
  Forall (fun row => length row = n) (data t) →
  Forall (fun a => 0 ≤ a < Z.of_nat n) actions →
  ∃ g, gather_actions t actions = Ok g.
Proof.
  intros Hrows Hactions. unfold gather_actions.
  destruct (mapM_Ok_intro column_index actions) as [index Hindex].
  - eapply Forall_impl; [exact Hactions |]. intros a Ha. simpl in Ha.
    unfold column_index.
    destruct (a <? 0) eqn:E; [lia | eauto].
  - rewrite Hindex. simpl. unfold gather_dim1.
    apply mapM_Ok_lookup in Hindex as [Hlen Hl].
    destruct (gather_rows_Ok (data t) index) as [xs ->]; [| simpl; eauto].
    intros i row c Hrow Hc.
    assert (i < length actions)%nat as Hi.
    { rewrite <- Hlen. by apply lookup_lt_Some in Hc. }
    destruct (lookup_lt_is_Some_2 actions i Hi) as [a Ha].
    destruct (Hl i a Ha) as (c' & Hcol & Hc'). assert (c' = c) as -> by congruence.
    unfold column_index in Hcol. destruct (a <? 0); [discriminate |].
    injection Hcol as <-.
    eapply Forall_lookup_1 in Hrows; [| exact Hrow].
    eapply Forall_lookup_1 in Hactions; [| exact Ha]. simpl in *. lia.
Qed.

Lemma zero_rows_lengths (mask : list bool) (t : tensor (list (list Q))) (n : nat) :
  Forall (fun row => length row = n) (data t) →
  Forall (fun row => length row = n) (data (zero_rows mask t)).
Proof.
  intros Hrows. apply Forall_lookup_2. intros i row Hi. simpl in Hi.
  apply lookup_zip_with_Some in Hi as (m & row' & -> & _ & Hrow').
  eapply Forall_lookup_1 in Hrows; [| exact Hrow']. simpl in Hrows.
  destruct m; [by rewrite length_map | done].
Qed.

Section Completion.
Context `{Approximators obs}.

(** X20.  A learning step of DQN or double DQN completes whenever the
    configuration allows it: past the burn-in guard, on a memory that
    recording has produced, with a non-zero update frequency, a batch
    size between 0 and [min(C, M)], drawn indices below [min(C, M)],
    online and target networks with one output for each of [n > 0]
    actions and every recorded action inside this range, [learn]
    returns and raises nothing. *)
Theorem single_network_learn_completes (ag : agent obs)
  (stored : list (Agent.transition obs)) (drawn : list nat) (n : nat) :
  single_network ag = true →
  burn_in_guard ag = false →
  target_update_frequency ag ≠ 0 →
  0 < Agent.memory_size (memory ag) → holds_last (memory ag) stored →
  0 ≤ batch_size ag ≤
    Z.min (Agent.mem_counter (memory ag)) (Agent.memory_size (memory ag)) →
  Forall (fun k => Z.of_nat k
                   < Z.min (Agent.mem_counter (memory ag)) (Agent.memory_size (memory ag)))
    drawn →
  (0 < n)%nat →
  (∀ s, length (q_forward (policy_network ag) s) = n) →
  (∀ s, length (q_forward (target_network ag) s) = n) →
  Forall (fun tr => 0 ≤ Agent.tr_action tr < Z.of_nat n) stored →
  ∃ ag', learn ag drawn = Ok ag' ∧ learn_step_counter ag' = learn_step_counter ag + 1.
Proof.
  intros Hsingle Hguard Hfreq HM Hinv Hsize Hdrawn Hn Hpolicy Htarget Hactions.
  assert (∃ b, Agent.sample (memory ag) drawn = Ok b) as [b Hs].
  { pose proof Hinv as (_ & (L1 & L2 & L3 & L4 & L5) & _).
    assert (∀ A (buffer : list A),
              length buffer = Z.to_nat (Agent.memory_size (memory ag)) →
              ∃ rows, take_rows buffer drawn = Ok rows) as Htake.
    { intros A buffer Hlen. apply take_rows_Ok.
      eapply Forall_impl; [exact Hdrawn |]. simpl. intros k Hk. lia. }
    destruct (Htake _ _ L1) as [states Hstates].
    destruct (Htake _ _ L3) as [actions Hact].
    destruct (Htake _ _ L4) as [rewards Hrewards].
    destruct (Htake _ _ L2) as [new_states Hnew].
    destruct (Htake _ _ L5) as [terminal Hterminal].
    unfold Agent.sample. rewrite Hstates, Hact, Hrewards, Hnew, Hterminal. simpl. eauto. }
  assert (Forall (fun a => 0 ≤ a < Z.of_nat n) (Agent.actions_batch b)) as Hbatch_actions.
  { apply Forall_lookup_2. intros i a Ha.
    assert (i < length drawn)%nat as Hi.
    { unfold Agent.sample in Hs.
      apply bind_Ok in Hs as (? & _ & Hs). apply bind_Ok in Hs as (actions & Hact & Hs).
      apply bind_Ok in Hs as (? & _ & Hs). apply bind_Ok in Hs as (? & _ & Hs).
      apply bind_Ok in Hs as (? & _ & Hs). injection Hs as <-. simpl in Ha.
      apply take_rows_lookup in Hact as [<- _]. by apply lookup_lt_Some in Ha. }
    destruct (lookup_lt_is_Some_2 drawn i Hi) as [k Hk].
    destruct (sample_rows _ _ _ Hs i k Hk) as (tr & Hrow & _ & Ha' & _).
    assert (Z.of_nat k < Z.min (Agent.mem_counter (memory ag))
                           (Agent.memory_size (memory ag))) as Hkv.
    { eapply Forall_lookup_1 in Hdrawn; [exact Hdrawn | exact Hk]. }
    destruct (valid_row_recorded _ stored k HM Hinv Hkv) as (j & tr' & Hj & Hrow').
    assert (tr' = tr) as -> by congruence.
    eapply Forall_lookup_1 in Hactions; [| exact Hj]. simpl in Hactions. congruence. }
  assert (∀ grad params batch, (∀ s, length (q_forward params s) = n) →
            Forall (fun row => length row = n) (data (q_apply grad params batch))) as Hshape.
  { intros grad params batch Hlen. simpl. apply Forall_lookup_2. intros i row Hi.
    rewrite lookup_map in Hi. destruct (batch !! i); [| discriminate].
    injection Hi as <-. apply Hlen. }
  assert (∀ t : tensor (list (list Q)), Forall (fun row => length row = n) (data t) →
            Forall (fun row => row ≠ []) (data t)) as Hnonempty.
  { intros t Ht. eapply Forall_impl; [exact Ht |]. simpl. intros [|x row] Hlen;
      [simpl in Hlen; lia | done]. }
  unfold burn_in_guard in Hguard.
  destruct ag as [self|self|self|self]; try discriminate Hsingle;
    simpl in Hguard, Hfreq, HM, Hinv, Hsize, Hdrawn, Hpolicy, Htarget, Hs |- *.
  - destruct (gather_actions_Ok (q_apply true (DQNAgent.q_network self)
                                   (Agent.states_batch b)) (Agent.actions_batch b) n)
      as [q_action_taken Hgather]; [exact (Hshape true _ _ Hpolicy) | done |].
    destruct (max_dim1_Ok (zero_rows (Agent.terminal_batch b)
                             (q_apply true (DQNAgent.q_target_network self)
                                (Agent.new_states_batch b))))
      as [q_next_max Hmax].
    { apply Hnonempty, zero_rows_lengths. exact (Hshape true _ _ Htarget). }
    unfold DQNAgent.learn, DQNAgent.learn_trace. rewrite Hguard.
    unfold random_choice.
    destruct (DQNAgent.batch_size self <? 0) eqn:E1; [lia |].
    destruct (_ <? DQNAgent.batch_size self) eqn:E2; [lia |].
    simpl. rewrite Hs. simpl. rewrite Hgather. simpl. rewrite Hmax. simpl.
    destruct (q_step _ _ _ _ _) as [optimizer' q_network'].
    destruct (DQNAgent.target_update_frequency self =? 0) eqn:E3; [lia |].
    simpl. eauto.
  - destruct (gather_actions_Ok (q_apply true (DDQNAgent.q_network self)
                                   (Agent.states_batch b)) (Agent.actions_batch b) n)
      as [q_action_taken Hgather]; [exact (Hshape true _ _ Hpolicy) | done |].
    destruct (argmax_dim1_Ok (zero_rows (Agent.terminal_batch b)
                                (q_apply true (DDQNAgent.q_network self)
                                   (Agent.new_states_batch b))))
      as [q_actions_batch Hargmax].
    { apply Hnonempty, zero_rows_lengths. exact (Hshape true _ _ Hpolicy). }
    assert (∃ g, gather_dim1 (zero_rows (Agent.terminal_batch b)
                                (q_apply false (DDQNAgent.q_target_network self)
                                   (Agent.new_states_batch b))) q_actions_batch = Ok g)
      as [q_action_target Htarget_gather].
    { unfold gather_dim1.
      destruct (gather_rows_Ok
                  (data (zero_rows (Agent.terminal_batch b)
                           (q_apply false (DDQNAgent.q_target_network self)
                              (Agent.new_states_batch b)))) q_actions_batch)
        as [xs ->]; [| simpl; eauto].
      intros i row a Hrow Ha.
      pose proof (zero_rows_lengths (Agent.terminal_batch b) _ n
                    (Hshape false _ (Agent.new_states_batch b) Htarget)) as Hlens.
      eapply Forall_lookup_1 in Hlens; [| exact Hrow]. simpl in Hlens. rewrite Hlens.
      apply argmax_dim1_lookup in Hargmax as [_ Hargmax].
      assert (∃ row', data (zero_rows (Agent.terminal_batch b)
                              (q_apply true (DDQNAgent.q_network self)
                                 (Agent.new_states_batch b))) !! i = Some row')
        as [row' Hrow'].
      { apply lookup_lt_is_Some_2. apply lookup_lt_Some in Hrow. simpl in *.
        by rewrite length_zip_with, length_map in *. }
      destruct (Hargmax i row' Hrow') as (a' & x & Hmax & Ha').
      assert (a' = a) as -> by congruence.
      apply row_max_spec in Hmax as (Hx & _). apply lookup_lt_Some in Hx.
      pose proof (zero_rows_lengths (Agent.terminal_batch b) _ n
                    (Hshape true _ (Agent.new_states_batch b) Hpolicy)) as Hlens'.
      eapply Forall_lookup_1 in Hlens'; [| exact Hrow']. simpl in Hlens'. lia. }
    unfold DDQNAgent.learn, DDQNAgent.learn_trace. rewrite Hguard.
    unfold random_choice.
    destruct (DDQNAgent.batch_size self <? 0) eqn:E1; [lia |].
    destruct (_ <? DDQNAgent.batch_size self) eqn:E2; [lia |].
    simpl. rewrite Hs. simpl. rewrite Hgather. simpl. rewrite Hargmax. simpl.
    rewrite Htarget_gather. simpl.
    destruct (q_step _ _ _ _ _) as [optimizer' q_network'].
    destruct (DDQNAgent.target_update_frequency self =? 0) eqn:E3; [lia |].
    simpl. eauto.
Qed.
End Completion.

(** ** The further properties on the concrete instance *)

Lemma toy_memory_holds_last : holds_last Toy.memory Toy.two.
Proof.
  destruct (init_holds_last (obs := Z) 2 0 2) as (self0 & Hinit & HM0 & Hinv0); [lia |].
  destruct (store_all_holds_last self0 [] Toy.two) as (self & Hall & _ & Hinv);
    [lia | repeat constructor; vm_compute; discriminate | done |].
  injection Hinit as <-. vm_compute in Hall. injection Hall as <-. exact Hinv.
Qed.

Lemma store_transition_below_capacity_witness :
  ∃ self0 self,
    Agent.init 5 0 2 = Ok self0 ∧
    Agent.store_all self0 Toy.two = Ok self ∧
    Agent.mem_counter self = Z.of_nat (length Toy.two) ∧
    (∀ j tr, Toy.two !! j = Some tr → Agent.row self j = Some (recorded tr)) ∧
    (∀ i, (length Toy.two ≤ i < Z.to_nat 5)%nat → Agent.row self i = Some (zero_row 0)).
Proof.
  apply (store_transition_below_capacity (obs := Z) 5 0 2 Toy.two).
  - simpl. lia.
  - repeat constructor; vm_compute; discriminate.
Defined.

Lemma store_then_sample_witness :
  ∃ self',
    Agent.store Toy.memory (Agent.Transition 1 0 (1 # 10)%Q 1 false) = Ok self' ∧
    Agent.sample self' [0%nat]
      = Ok (Agent.Batch [1] [0] [as_float32 (1 # 10)] [1] [false]) ∧
    (as_float32 (1 # 10) = (1 # 10)%Q →
     Agent.sample self' [0%nat] = Ok (Agent.Batch [1] [0] [(1 # 10)%Q] [1] [false])) ∧
    ∀ drawn, 0%nat ∉ drawn → Agent.sample self' drawn = Agent.sample Toy.memory drawn.
Proof.
  apply (store_then_sample Toy.memory Toy.two (Agent.Transition 1 0 (1 # 10)%Q 1 false)).
  - reflexivity.
  - exact toy_memory_holds_last.
  - split; [vm_compute; split; discriminate | vm_compute; reflexivity].
Defined.

Lemma sample_reads_recorded_transitions_witness :
  ∃ b,
    Agent.sample Toy.memory [1%nat; 0%nat] = Ok b ∧
    ∀ i k, [1%nat; 0%nat] !! i = Some k →
      ∃ j tr,
        Toy.two !! j = Some tr ∧
        Agent.states_batch b !! i = Some (Agent.tr_state tr) ∧
        Agent.actions_batch b !! i = Some (Agent.tr_action tr) ∧
        Agent.rewards_batch b !! i = Some (Agent.tr_reward tr) ∧
        Agent.new_states_batch b !! i = Some (Agent.tr_new_state tr) ∧
        Agent.terminal_batch b !! i = Some (Agent.tr_done tr).
Proof.
  apply (sample_reads_recorded_transitions Toy.memory Toy.two [1%nat; 0%nat]).
  - reflexivity.
  - exact toy_memory_holds_last.
  - repeat constructor.
Defined.

Lemma learn_sample_too_large_witness :
  learn Toy.fresh [0%nat; 1%nat] = Raise ValueError.
Proof.
  apply (learn_sample_too_large Toy.fresh [0%nat; 1%nat]).
  - reflexivity.
  - right. reflexivity.
Defined.

Lemma learn_zero_frequency_witness :
  ∃ e, learn Toy.never_synced [0%nat; 1%nat] = Raise e.
Proof.
  apply (learn_zero_frequency Toy.never_synced [0%nat; 1%nat]); reflexivity.
Defined.

Lemma learn_keeps_memory_and_hyperparameters_witness :
  ∃ ag',
    learn (Toy.ddqn false) [0%nat; 1%nat] = Ok ag' ∧
    memory ag' = memory (Toy.ddqn false) ∧
    lr ag' = lr (Toy.ddqn false) ∧
    gamma ag' = gamma (Toy.ddqn false) ∧
    batch_size ag' = batch_size (Toy.ddqn false) ∧
    epsilon_min ag' = epsilon_min (Toy.ddqn false) ∧
    epsilon_decay ag' = epsilon_decay (Toy.ddqn false) ∧
    burn_in_period ag' = burn_in_period (Toy.ddqn false) ∧
    target_update_frequency ag' = target_update_frequency (Toy.ddqn false) ∧
    t_weight ag' = Some (1 # 2)%Q ∧
    soft_update ag' = Some false.
Proof.
  eexists. split; [vm_compute; reflexivity |].
  eapply (learn_keeps_memory_and_hyperparameters (Toy.ddqn false) _ [0%nat; 1%nat]).
  vm_compute. reflexivity.
Defined.

Lemma burn_in_guard_stays_inactive_witness :
  (∀ state action reward new_state done ag',
     store_transition Toy.dqv state action reward new_state done = Ok ag' →
     Agent.mem_counter (memory ag') = Agent.mem_counter (memory Toy.dqv) + 1 ∧
     burn_in_guard ag' = false) ∧
  (∀ drawn ag', learn Toy.dqv drawn = Ok ag' → burn_in_guard ag' = false).
Proof. apply (burn_in_guard_stays_inactive Toy.dqv). reflexivity. Defined.

Lemma epsilon_floor_absorbs_witness :
  ∃ ag',
    learn Toy.exploiting [0%nat; 1%nat] = Ok ag' ∧
    (epsilon ag' == epsilon_min Toy.exploiting)%Q.
Proof.
  eexists. split; [vm_compute; reflexivity |].
  eapply (epsilon_floor_absorbs Toy.exploiting _ [0%nat; 1%nat]).
  - reflexivity.
  - vm_compute. reflexivity.
  - vm_compute. discriminate.
  - vm_compute. discriminate.
  - vm_compute. discriminate.
Defined.

Lemma dqn_bootstrap_target_witness :
  ∃ self' trace,
    DQNAgent.learn_trace Toy.dqn_self [0%nat; 1%nat] = Ok (self', trace) ∧
    ∃ q_action_taken q_target,
      trace = [LossCall q_action_taken q_target] ∧
      requires_grad q_target = true ∧
      ∀ i k tr,
        [0%nat; 1%nat] !! i = Some k →
        Agent.row (DQNAgent.super Toy.dqn_self) k = Some tr →
        Agent.tr_done tr = false →
        ∃ a q_max,
          first_argmax (q_forward (DQNAgent.q_target_network Toy.dqn_self)
                          (Agent.tr_new_state tr)) a q_max ∧
          data q_target !! i
          = Some (Agent.tr_reward tr + DQNAgent.gamma Toy.dqn_self * q_max)%Q.
Proof.
  eexists _, _. split; [vm_compute; reflexivity |].
  eapply (dqn_bootstrap_target Toy.dqn_self _ [0%nat; 1%nat]); reflexivity.
Defined.

Lemma ddqn_terminal_target_witness :
  ∃ self' trace,
    DDQNAgent.learn_trace (Toy.ddqn_self false) [0%nat; 1%nat] = Ok (self', trace) ∧
    ∃ q_action_taken target,
      trace = [LossCall q_action_taken target] ∧
      ∀ i k tr,
        [0%nat; 1%nat] !! i = Some k →
        Agent.row (DDQNAgent.super (Toy.ddqn_self false)) k = Some tr →
        Agent.tr_done tr = true →
        ∃ y, data target !! i = Some y ∧
             y = (Agent.tr_reward tr + DDQNAgent.gamma (Toy.ddqn_self false) * 0)%Q ∧
             (y == Agent.tr_reward tr)%Q.
Proof.
  eexists _, _. split; [vm_compute; reflexivity |].
  eapply (ddqn_terminal_target (Toy.ddqn_self false) _ [0%nat; 1%nat]); reflexivity.
Defined.

Lemma q_loss_predicts_action_taken_witness :
  ∃ ag' trace,
    learn_trace Toy.dqv [0%nat; 1%nat] = Ok (ag', trace) ∧
    ∃ prediction,
      q_prediction Toy.dqv trace = Some prediction ∧
      requires_grad prediction = true ∧
      ∀ i k tr,
        [0%nat; 1%nat] !! i = Some k → Agent.row (memory Toy.dqv) k = Some tr →
        0 ≤ Agent.tr_action tr ∧
        ∃ y, q_forward (policy_network Toy.dqv) (Agent.tr_state tr)
               !! Z.to_nat (Agent.tr_action tr) = Some y ∧
             data prediction !! i = Some y.
Proof.
  eexists _, _. split; [vm_compute; reflexivity |].
  eapply (q_loss_predicts_action_taken Toy.dqv _ [0%nat; 1%nat]); reflexivity.
Defined.

Lemma choose_action_valid_index_witness :
  ∃ a,
    choose_action Toy.exploiting (1 # 2)%Q 0 1 = Ok a ∧
    0 ≤ a < Agent.n_actions (memory Toy.exploiting) ∧
    (((1 # 2) <= epsilon Toy.exploiting)%Q → a = 0) ∧
    ((epsilon Toy.exploiting < (1 # 2))%Q →
     ∃ x, first_argmax (q_forward (policy_network Toy.exploiting) 1) (Z.to_nat a) x).
Proof.
  apply (choose_action_valid_index Toy.exploiting (1 # 2)%Q 0 1).
  - simpl. lia.
  - reflexivity.
Defined.

Lemma ddqn_bootstraps_on_greedy_action_witness :
  ∃ self' trace,
    DDQNAgent.learn_trace Toy.exploiting_self [0%nat; 1%nat] = Ok (self', trace) ∧
    ∃ q_action_taken target,
      trace = [LossCall q_action_taken target] ∧
      ∀ i k tr,
        [0%nat; 1%nat] !! i = Some k →
        Agent.row (DDQNAgent.super Toy.exploiting_self) k = Some tr →
        Agent.tr_done tr = false →
        ∃ a q_eval,
          choose_action (DDQN Toy.exploiting_self) (1 # 2)%Q 0 (Agent.tr_new_state tr)
            = Ok (Z.of_nat a) ∧
          q_forward (DDQNAgent.q_target_network Toy.exploiting_self)
            (Agent.tr_new_state tr) !! a = Some q_eval ∧
          data target !! i
          = Some (Agent.tr_reward tr + DDQNAgent.gamma Toy.exploiting_self * q_eval)%Q.
Proof.
  eexists _, _. split; [vm_compute; reflexivity |].
  eapply (ddqn_bootstraps_on_greedy_action Toy.exploiting_self _ [0%nat; 1%nat]);
    reflexivity.
Defined.

Lemma soft_update_boundary_weights_witness :
  ∃ ag',
    learn (Toy.soft_ddqn 1) [0%nat; 1%nat] = Ok ag' ∧
    online_network ag' = [1%Q; 2%Q] ∧
    Forall2 Qeq (target_network ag') (online_network ag').
Proof.
  eexists. split; [vm_compute; reflexivity |]. split; [reflexivity |].
  eapply (proj2 (soft_update_boundary_weights (Toy.soft_ddqn 1) _ [0%nat; 1%nat] 1
                   eq_refl ltac:(vm_compute; reflexivity) eq_refl));
    reflexivity.
Defined.

Lemma dqn_target_is_dqvmax_v_target_witness :
  ∃ dqn' dqvmax' trace trace',
    DQNAgent.learn_trace Toy.dqn_like_dqvmax [0%nat; 1%nat] = Ok (dqn', trace) ∧
    DQVMaxAgent.learn_trace Toy.dqvmax_self [0%nat; 1%nat] = Ok (dqvmax', trace') ∧
    ∃ q_action_taken q_target v_s q_loss,
      trace = [LossCall q_action_taken q_target] ∧
      trace' = [LossCall (Tensor (data q_target) false) v_s; q_loss].
Proof.
  eexists _, _, _, _. split; [vm_compute; reflexivity |].
  split; [vm_compute; reflexivity |].
  eapply (dqn_target_is_dqvmax_v_target Toy.dqn_like_dqvmax _ Toy.dqvmax_self _
            [0%nat; 1%nat]); reflexivity.
Defined.

Lemma learn_all_counts_witness :
  ∃ ag',
    learn_all Toy.dqvmax (Toy.draws 3) = Ok ag' ∧
    learn_step_counter ag' = learn_step_counter Toy.dqvmax + Z.of_nat (length (Toy.draws 3)) ∧
    burn_in_guard ag' = false.
Proof.
  eexists. split; [vm_compute; reflexivity |].
  apply (learn_all_counts Toy.dqvmax (Toy.draws 3)); [reflexivity |].
  vm_compute. reflexivity.
Defined.

Lemma max_decay_sequence_witness :
  ∃ eps,
    learn_epsilons (Toy.ddqn false) (Toy.draws 5) = Ok eps ∧
    non_increasing_above (epsilon_min (Toy.ddqn false)) (epsilon (Toy.ddqn false) :: eps).
Proof.
  eexists. split; [vm_compute; reflexivity |].
  apply (max_decay_sequence (Toy.ddqn false) (Toy.draws 5)).
  - reflexivity.
  - reflexivity.
  - vm_compute. discriminate.
  - vm_compute. discriminate.
  - vm_compute. discriminate.
  - vm_compute. reflexivity.
Defined.

Lemma conditional_decay_undershoots_witness :
  ∃ ag3 ag4,
    learn_all Toy.dqn (Toy.draws 3) = Ok ag3 ∧
    learn ag3 [0%nat; 1%nat] = Ok ag4 ∧
    (epsilon ag4 < epsilon_min ag3)%Q.
Proof.
  eexists _, _. split; [vm_compute; reflexivity |].
  split; [vm_compute; reflexivity |].
  eapply (conditional_decay_undershoots _ _ [0%nat; 1%nat]).
  - reflexivity.
  - reflexivity.
  - vm_compute. reflexivity.
  - vm_compute. reflexivity.
  - vm_compute. reflexivity.
Defined.

(** ** How far the conditional update undershoots *)

Section Schedule.
Context `{Approximators obs}.
Implicit Types (ag : agent obs) (drawn : list nat).

(** X22.  The undershoot of [DQNAgent] is bounded: with a floor that is
    not negative and a decay between 0 and 1, a completed learning step
    leaves the exploration rate at or above [epsilon_min * epsilon_decay],
    and does not raise a rate that was at or above the floor. *)
Theorem conditional_decay_lower_bound ag ag' drawn :
  conditional_decay ag = true → burn_in_guard ag = false →
  learn ag drawn = Ok ag' →
  (0 <= epsilon_min ag)%Q → (0 <= epsilon_decay ag)%Q → (epsilon_decay ag <= 1)%Q →
  (epsilon_min ag * epsilon_decay ag <= epsilon ag')%Q ∧
  ((epsilon_min ag <= epsilon ag)%Q → (epsilon ag' <= epsilon ag)%Q).
Proof.
  intros Hcond Hguard Hl Hfloor Hd0 Hd1. apply learn_Ok in Hl as [trace Hl].
  destruct (learn_step ag ag' drawn trace Hguard Hl)
    as (_ & _ & _ & _ & _ & Heps & _).
  rewrite Hcond in Heps. rewrite Heps.
  destruct (Qgtb (epsilon ag) (epsilon_min ag)) eqn:E.
  - apply Qgtb_true in E. split; [nra | intros _; nra].
  - apply Qgtb_false in E. split; [nra | intros Hge; lra].
Qed.
End Schedule.

Lemma single_network_learn_completes_witness :
  ∃ ag', learn Toy.dqn [1%nat; 0%nat] = Ok ag' ∧
         learn_step_counter ag' = learn_step_counter Toy.dqn + 1.
Proof.
  apply (single_network_learn_completes Toy.dqn Toy.two [1%nat; 0%nat] 2).
  - reflexivity.
  - reflexivity.
  - discriminate.
  - reflexivity.
  - exact toy_memory_holds_last.
  - vm_compute. split; discriminate.
  - repeat constructor.
  - lia.
  - intros s. reflexivity.
  - intros s. reflexivity.
  - repeat constructor; simpl; lia.
Defined.

Lemma conditional_decay_lower_bound_witness :
  ∃ ag',
    learn Toy.dqn [0%nat; 1%nat] = Ok ag' ∧
    (epsilon_min Toy.dqn * epsilon_decay Toy.dqn <= epsilon ag')%Q ∧
    ((epsilon_min Toy.dqn <= epsilon Toy.dqn)%Q → (epsilon ag' <= epsilon Toy.dqn)%Q).
Proof.
  eexists. split; [vm_compute; reflexivity |].
  eapply (conditional_decay_lower_bound Toy.dqn _ [0%nat; 1%nat]).
  - reflexivity.
  - reflexivity.
  - vm_compute. reflexivity.
  - vm_compute. discriminate.
  - vm_compute. discriminate.
  - vm_compute. discriminate.
Defined.
